(** * uxhtop (bruh2.c): sampling engine and auto-management policy

  A shallow embedding of the CPU sampler, the process scanner, the
  resource policy engine and the process actions of [src/bruh2.c],
  followed by the properties that the specification states about them.

  Conventions.
  - C [int], [long], [pid_t], [uid_t] values are [Z].  The only unsigned
    arithmetic that can wrap ([unsigned long long] tick sums and
    differences, [unsigned long] tick deltas) is written with [wrap64].
  - C [double] is IEEE-754 binary64, modelled by [spec_float] with
    precision 53 and exponent bound 1024 (module [Dbl]).
  - C arrays are lists indexed with stdpp's lookup and insert; every index
    the program uses is guarded in the source, the guards are kept.
  - [kill] and [usleep] are calls into the operating system: they are
    recorded in a trace, and the value each [kill] returns is drawn from
    an arbitrary answer function. *)

From Stdlib Require Import ZArith Lia List Bool String Ascii SpecFloat.
From Stdlib Require Import Permutation.
From stdpp Require Import base list.
Import ListNotations.
Open Scope Z_scope.

(* ================================================================== *)
(** ** Machine integers *)

Definition wrap64 (z : Z) : Z := z mod 2 ^ 64.

(* ================================================================== *)
(** ** Doubles *)

Module Dbl.

Definition prec : Z := 53.
Definition emax : Z := 1024.

Definition double : Type := spec_float.

(** Conversion of an integer to [double], round to nearest even. *)
Definition of_int (z : Z) : double := binary_normalize prec emax z 0 false.

Definition zero : double := S754_zero false.
Definition one : double := Eval cbv in of_int 1.
Definition ten : double := Eval cbv in of_int 10.
Definition hundred : double := Eval cbv in of_int 100.
Definition thousand : double := Eval cbv in of_int 1000.

Definition sub : double -> double -> double := SFsub prec emax.
Definition mul : double -> double -> double := SFmul prec emax.
Definition div : double -> double -> double := SFdiv prec emax.

(** [x < y] and [x > y] of C: false as soon as one side is a NaN. *)
Definition lt (x y : double) : bool := SFltb x y.
Definition gt (x y : double) : bool := SFltb y x.
Definition le (x y : double) : bool := SFleb x y.

(** Not a NaN, and a mantissa of at most 53 bits when finite: what every
    operation of the machine returns. *)
Definition regular (x : double) : Prop :=
  match x with
  | S754_nan => False
  | S754_finite _ m _ => Z.pos m < 2 ^ 53
  | _ => True
  end.

(** Finite and not negative: [+0] or a positive finite number. *)
Definition finite_nonneg (x : double) : Prop :=
  x = S754_zero false \/ exists m e, x = S754_finite false m e.

(** The exact value [m * 2^e] of the double is between 0 and 1. *)
Definition unit_value (x : double) : Prop :=
  match x with
  | S754_zero _ => True
  | S754_finite false m e => e <= 0 /\ Z.pos m <= 2 ^ (- e)
  | _ => False
  end.

(** The unit interval: by the comparisons of the machine, and by value. *)
Definition in_unit (x : double) : Prop :=
  le zero x = true /\ le x one = true /\ unit_value x.

(** The exact value of a finite positive double is [m * 2^e]; the next
    predicate says that this value is within [2^-t] of [a / b] for positive
    integers [a] and [b], without leaving the integers: with [e = -k],
    |b * m - a * 2^k| <= b * 2^(k - t). *)
Definition near_ratio (t : Z) (x : double) (a b : Z) : Prop :=
  match x with
  | S754_finite false m (Zneg k) =>
      Z.abs (b * Zpos m - a * 2 ^ Zpos k) <= b * 2 ^ (Zpos k - t)
  | _ => False
  end.

(** Finite, not negative, mantissa below [2^53] and exponent at most [E]. *)
Definition bnd (E : Z) (x : double) : Prop :=
  x = zero \/
  exists m e, x = S754_finite false m e /\ Z.pos m < 2 ^ 53 /\ e <= E.

(** The smallest exponent of binary64, [3 - emax - prec]. *)
Definition emin : Z := -1074.

#[global] Instance double_inhabited : Inhabited double := populate zero.

End Dbl.

Abbreviation double := Dbl.double.

(* ================================================================== *)
(** ** Tunables *)

Definition MAX_CORES : Z := 128.
Definition MAX_PROCS : Z := 2048.
Definition HIST_W : Z := 120.
Definition MAX_PRIORITY_PROCS : Z := 10.

(* ================================================================== *)
(** ** CPU sampling and history *)

Module Cpu.

(** One record of [/proc/stat] as [fscanf] delivers it with nine items
    converted: the label and eight [unsigned long long] counters. *)
Record StatLine := {
  id : string;
  l_u : Z; l_n : Z; l_s : Z; l_idle : Z;
  l_iow : Z; l_irq : Z; l_sirq : Z; l_steal : Z
}.

Record CpuSnap := {
  total : double;
  core : list double;
  ncores : Z
}.

(** The file-scope variables [cpu], [hist_cpu], [hpos] and the statics of
    [cpu_sample]. *)
Record State := {
  pu : list Z; pn : list Z; ps : list Z; pi : list Z;
  piow : list Z; pirq : list Z; psirq : list Z; psteal : list Z;
  initialized : bool;
  cpu : CpuSnap;
  hist_cpu : list (list double);
  hpos : Z
}.

Definition init : State := {|
  pu := replicate 129 0; pn := replicate 129 0;
  ps := replicate 129 0; pi := replicate 129 0;
  piow := replicate 129 0; pirq := replicate 129 0;
  psirq := replicate 129 0; psteal := replicate 129 0;
  initialized := false;
  cpu := {| total := Dbl.zero; core := replicate 128 Dbl.zero; ncores := 0 |};
  hist_cpu := replicate 128 (replicate 120 Dbl.zero);
  hpos := 0
|}.

Definition clamp (usage : double) : double :=
  let usage := if Dbl.lt usage Dbl.zero then Dbl.zero else usage in
  if Dbl.gt usage Dbl.one then Dbl.one else usage.

(** The body of the loop of [push_hist] for core [i]. *)
Definition push_core (c : CpuSnap) (pos : Z) (h : list (list double)) (i : nat)
  : list (list double) :=
  alter (fun row => <[Z.to_nat pos := clamp (core c !!! i)]> row) i h.

(** [for (i = 0; i < cpu.ncores && i < MAX_CORES; i++)]: the indices
    visited are [0 .. min ncores MAX_CORES - 1]. *)
Definition push_rows (c : CpuSnap) (pos : Z) (h : list (list double))
  : list (list double) :=
  fold_left (push_core c pos) (seq 0 (Z.to_nat (Z.min (ncores c) MAX_CORES))) h.

Definition push_hist (s : State) : State := {|
  pu := pu s; pn := pn s; ps := ps s; pi := pi s;
  piow := piow s; pirq := pirq s; psirq := psirq s; psteal := psteal s;
  initialized := initialized s;
  cpu := cpu s;
  hist_cpu := push_rows (cpu s) (hpos s) (hist_cpu s);
  hpos := Z.rem (hpos s + 1) HIST_W
|}.

(** Sum of the eight counters of a line, and of the remembered ones. *)
Definition line_tot (l : StatLine) : Z :=
  wrap64 (l_u l + l_n l + l_s l + l_idle l + l_iow l + l_irq l + l_sirq l
          + l_steal l).

Definition prev_tot (s : State) (idx : nat) : Z :=
  wrap64 (pu s !!! idx + pn s !!! idx + ps s !!! idx + pi s !!! idx
          + piow s !!! idx + pirq s !!! idx + psirq s !!! idx
          + psteal s !!! idx).

Definition line_dt (s : State) (idx : nat) (l : StatLine) : Z :=
  wrap64 (line_tot l - prev_tot s idx).

Definition line_di (s : State) (idx : nat) (l : StatLine) : Z :=
  wrap64 (l_idle l - pi s !!! idx).

(** [double use = (dt > 0) ? (1.0 - (double)di / (double)dt) : 0.0] *)
Definition usage_of (dt di : Z) : double :=
  if 0 <? dt
  then Dbl.sub Dbl.one (Dbl.div (Dbl.of_int di) (Dbl.of_int dt))
  else Dbl.zero.

(** The store into [cpu.total] or [cpu.core[idx - 1]]. *)
Definition emit (c : CpuSnap) (idx : Z) (v : double) : CpuSnap :=
  if idx =? 0 then {| total := v; core := core c; ncores := ncores c |}
  else if idx - 1 <? MAX_CORES
       then {| total := total c;
               core := <[Z.to_nat (idx - 1) := v]> (core c);
               ncores := ncores c |}
       else c.

(** One iteration of the [while] loop of [cpu_sample], after the line was
    accepted. *)
Definition line_step (s : State) (idx : Z) (l : StatLine) : State :=
  let i := Z.to_nat idx in
  let use := usage_of (line_dt s i l) (line_di s i l) in
  {| pu := <[i := l_u l]> (pu s); pn := <[i := l_n l]> (pn s);
     ps := <[i := l_s l]> (ps s); pi := <[i := l_idle l]> (pi s);
     piow := <[i := l_iow l]> (piow s); pirq := <[i := l_irq l]> (pirq s);
     psirq := <[i := l_sirq l]> (psirq s);
     psteal := <[i := l_steal l]> (psteal s);
     initialized := initialized s;
     cpu := emit (cpu s) idx (if initialized s then use else Dbl.zero);
     hist_cpu := hist_cpu s;
     hpos := hpos s |}.

(** The [while (idx <= MAX_CORES)] loop.  The list holds the records that
    [fscanf] converts completely; its end is the first call that returns
    fewer than nine items.  The result is the state and the final [idx]. *)
Fixpoint sample_loop (lines : list StatLine) (idx : Z) (s : State)
  {struct lines} : State * Z :=
  if idx <=? MAX_CORES then
    match lines with
    | [] => (s, idx)
    | l :: rest =>
        if String.prefix "cpu" (id l)
        then sample_loop rest (idx + 1) (line_step s idx l)
        else (s, idx)
    end
  else (s, idx).

Definition set_ncores (c : CpuSnap) (idx NCPU : Z) : CpuSnap :=
  let n := idx - 1 in
  let n := if n <=? 0 then 1 else n in
  let n := if NCPU <? n then NCPU else n in
  {| total := total c; core := core c; ncores := n |}.

(** [cpu_sample]; [file = None] is a failed [fopen].  [NCPU] is the global
    that [main] sets from [sysconf] before the first sample. *)
Definition cpu_sample (NCPU : Z) (file : option (list StatLine)) (s : State)
  : State :=
  match file with
  | None => s
  | Some lines =>
      let '(s1, idx) := sample_loop lines 0 s in
      push_hist
        {| pu := pu s1; pn := pn s1; ps := ps s1; pi := pi s1;
           piow := piow s1; pirq := pirq s1; psirq := psirq s1;
           psteal := psteal s1;
           initialized := true;
           cpu := set_ncores (cpu s1) idx NCPU;
           hist_cpu := hist_cpu s1;
           hpos := hpos s1 |}
  end.

(** A run of the sampler: the files seen by successive calls. *)
Definition run (NCPU : Z) (files : list (option (list StatLine))) (s : State)
  : State :=
  fold_left (fun st f => cpu_sample NCPU f st) files s.

(** The value that [emit] stored for the line of index [idx]. *)
Definition emitted (c : CpuSnap) (idx : Z) : double :=
  if idx =? 0 then total c else core c !!! Z.to_nat (idx - 1).

(** The eight counters remembered for index [i], and those of a line. *)
Definition remembered (s : State) (i : nat) : list Z :=
  [pu s !!! i; pn s !!! i; ps s !!! i; pi s !!! i;
   piow s !!! i; pirq s !!! i; psirq s !!! i; psteal s !!! i].

Definition counters (l : StatLine) : list Z :=
  [l_u l; l_n l; l_s l; l_idle l; l_iow l; l_irq l; l_sirq l; l_steal l].

Definition sum8 (l : StatLine) : Z :=
  l_u l + l_n l + l_s l + l_idle l + l_iow l + l_irq l + l_sirq l + l_steal l.

(** No counter of [b] is below the one of [a]. *)
Definition monotone (a b : StatLine) : Prop :=
  Forall2 Z.le (counters a) (counters b).

(** The array bounds of the declarations. *)
Definition wf (s : State) : Prop :=
  Forall (fun a : list Z => length a = 129%nat)
         [pu s; pn s; ps s; pi s; piow s; pirq s; psirq s; psteal s]
  /\ length (core (cpu s)) = 128%nat
  /\ length (hist_cpu s) = 128%nat
  /\ Forall (fun row : list double => length row = 120%nat) (hist_cpu s).

(** Number of lines that [cpu_sample] reads from a file: the value of [idx]
    when its loop ends. *)
Definition read_count (lines : list StatLine) (s : State) : Z :=
  snd (sample_loop lines 0 s).

(** Counters as the kernel gives them: not negative, and their sum fits
    [unsigned long long]. *)
Definition in_range (l : StatLine) : Prop :=
  Forall (fun x => 0 <= x) (counters l) /\ sum8 l < 2 ^ 64.

(** The rows and columns of [hist_cpu]. *)
Definition dims (h : list (list double)) : Prop :=
  length h = 128%nat
  /\ Forall (fun row : list double => length row = 120%nat) h.

Definition all_regular (l : list double) : Prop := Forall Dbl.regular l.

(** The invariant of the history: bounds of the arrays, samples in the unit
    interval, cursor inside the ring, no NaN among the core values (the
    clamp of [push_hist] lets a NaN through). *)
Definition hist_ok (s : State) : Prop :=
  wf s /\ Forall (Forall Dbl.in_unit) (hist_cpu s)
  /\ 0 <= hpos s < HIST_W /\ all_regular (core (cpu s)).

(** The cell [hist_cpu[i][j]]. *)
Definition cell (s : State) (i j : nat) : double :=
  (hist_cpu s !!! i) !!! j.

Definition mk_line (lab : string) (u n s idle iow irq sirq steal : Z)
  : StatLine :=
  {| id := lab; l_u := u; l_n := n; l_s := s; l_idle := idle;
     l_iow := iow; l_irq := irq; l_sirq := sirq; l_steal := steal |}.

End Cpu.

(* ================================================================== *)
(** ** The operating system seen through [kill] and [usleep] *)

Module Os.

Inductive signal := SIGTERM | SIGKILL | SIGSTOP | SIGCONT.

Inductive event :=
| Kill (pid : Z) (sig : signal) (ret : Z)
| Sleep (usec : Z).

(** What the program did to the outside so far, and what the outside will
    answer: the [k]-th call of [kill] returns [answers k] (0 on success,
    -1 on failure). *)
Record world := {
  trace : list event;
  calls : nat;
  answers : nat -> Z
}.

Definition M (A : Type) : Type := world -> A * world.

Definition ret {A} (a : A) : M A := fun w => (a, w).

Definition bind {A B} (m : M A) (k : A -> M B) : M B :=
  fun w => let '(a, w') := m w in k a w'.

Definition kill (pid : Z) (sig : signal) : M Z :=
  fun w =>
    let r := answers w (calls w) in
    (r, {| trace := trace w ++ [Kill pid sig r];
           calls := S (calls w);
           answers := answers w |}).

Definition usleep (usec : Z) : M unit :=
  fun w => (tt, {| trace := trace w ++ [Sleep usec];
                   calls := calls w;
                   answers := answers w |}).

Definition start (ans : nat -> Z) : world :=
  {| trace := []; calls := 0; answers := ans |}.

(** The signals of a trace, in order, with their targets. *)
Definition signals (t : list event) : list (Z * signal) :=
  flat_map (fun e => match e with Kill p s _ => [(p, s)] | Sleep _ => [] end) t.

End Os.

Notation "'do' x <- m ; k" := (Os.bind m (fun x => k))
  (at level 10, x name, m at level 100, k at level 200).

(* ================================================================== *)
(** ** Process table *)

Module Proc.

Record PInfo := {
  pid : Z;
  uid : Z;
  comm : string;
  ut : Z;
  st : Z;
  cpu_pct : double;
  rss_kb : Z;
  nicev : Z;
  running : bool;
  suspended_by_manager : bool
}.

(** A slot of [procs] as [memset] leaves it. *)
Definition zeroed : PInfo :=
  {| pid := 0; uid := 0; comm := ""; ut := 0; st := 0; cpu_pct := Dbl.zero;
     rss_kb := 0; nicev := 0; running := false;
     suspended_by_manager := false |}.

#[global] Instance PInfo_inhabited : Inhabited PInfo := populate zeroed.

Definition set_suspended (b : bool) (p : PInfo) : PInfo :=
  {| pid := pid p; uid := uid p; comm := comm p; ut := ut p; st := st p;
     cpu_pct := cpu_pct p; rss_kb := rss_kb p; nicev := nicev p;
     running := running p; suspended_by_manager := b |}.

Definition set_running (b : bool) (p : PInfo) : PInfo :=
  {| pid := pid p; uid := uid p; comm := comm p; ut := ut p; st := st p;
     cpu_pct := cpu_pct p; rss_kb := rss_kb p; nicev := nicev p;
     running := b; suspended_by_manager := suspended_by_manager p |}.

(** What [read_stat] leaves in its out-parameters when it returns 0.  The
    slot was zeroed by [memset] and [*running] is set to [true] before the
    fields are tokenised, so a field the line does not reach reads 0, or
    [true] for the run state. *)
Record StatFields := {
  sf_ut : Z; sf_st : Z; sf_nicev : Z; sf_running : bool
}.

(** What [read_status] leaves in [*uid] and [*rss_kb] when the file opens;
    both are reset to 0 before the lines are read. *)
Record StatusFields := { sf_uid : Z; sf_rss_kb : Z }.

(** One entry of [/proc] with the three files behind it; [None] is a file
    that cannot be opened or read (the function returns -1). *)
Record DirEntry := {
  d_name : string;
  comm_file : option string;
  stat_file : option StatFields;
  status_file : option StatusFields
}.

Definition isdigit (c : ascii) : bool :=
  let n := N_of_ascii c in ((48 <=? n) && (n <=? 57))%N.

Fixpoint is_pid_dir (s : string) : bool :=
  match s with
  | EmptyString => true
  | String c s' => if isdigit c then is_pid_dir s' else false
  end.

(** [atoi] on the leading digits; the names it is applied to passed
    [is_pid_dir]. *)
Fixpoint atoi_from (acc : Z) (s : string) : Z :=
  match s with
  | EmptyString => acc
  | String c s' =>
      if isdigit c
      then atoi_from (10 * acc + (Z.of_N (N_of_ascii c) - 48)) s'
      else acc
  end.

Definition atoi (s : string) : Z := atoi_from 0 s.

(** [unsigned long dut = (p->ut > prev[i].ut) ? (p->ut - prev[i].ut) : 0] *)
Definition tick_delta (now before : Z) : Z :=
  if before <? now then now - before else 0.

(** The two statements that compute [p->cpu_pct] for a matched PID. *)
Definition cpu_time_ms (ticks_per_sec dut dst : Z) : double :=
  Dbl.div (Dbl.mul (Dbl.of_int (wrap64 (dut + dst))) Dbl.thousand)
          (Dbl.of_int ticks_per_sec).

Definition cpu_percent (ticks_per_sec time_diff_ms dut dst : Z) : double :=
  if 0 <? time_diff_ms
  then Dbl.div (Dbl.mul (cpu_time_ms ticks_per_sec dut dst) Dbl.hundred)
               (Dbl.of_int time_diff_ms)
  else Dbl.zero.

(** [for (i = 0; i < prevn; i++) if (prev[i].pid == pid) { ...; break; }] *)
Definition lookup_prev (prev : list PInfo) (p : Z) : option PInfo :=
  List.find (fun q => pid q =? p) prev.

(** The record built for one entry whose three reads succeeded. *)
Definition make_record (ticks_per_sec time_diff_ms : Z) (prev : list PInfo)
    (p : Z) (c : string) (sf : StatFields) (status : option StatusFields)
  : PInfo :=
  let u := match status with Some x => sf_uid x | None => 0 end in
  let rss := match status with Some x => sf_rss_kb x | None => 0 end in
  match lookup_prev prev p with
  | Some q =>
      {| pid := p; uid := u; comm := c; ut := sf_ut sf; st := sf_st sf;
         cpu_pct := cpu_percent ticks_per_sec time_diff_ms
                      (tick_delta (sf_ut sf) (ut q))
                      (tick_delta (sf_st sf) (st q));
         rss_kb := rss; nicev := sf_nicev sf; running := sf_running sf;
         suspended_by_manager := suspended_by_manager q |}
  | None =>
      {| pid := p; uid := u; comm := c; ut := sf_ut sf; st := sf_st sf;
         cpu_pct := Dbl.zero;
         rss_kb := rss; nicev := sf_nicev sf; running := sf_running sf;
         suspended_by_manager := false |}
  end.

(** [while ((e = readdir(d)) && nprocs < MAX_PROCS)]; [procs] is the table
    filled so far, [nprocs] its length. *)
Fixpoint scan_loop (ticks_per_sec time_diff_ms : Z) (prev : list PInfo)
    (entries : list DirEntry) (procs : list PInfo) : list PInfo :=
  match entries with
  | [] => procs
  | e :: rest =>
      if Z.of_nat (length procs) <? MAX_PROCS then
        if is_pid_dir (d_name e) then
          match comm_file e, stat_file e with
          | Some c, Some sf =>
              scan_loop ticks_per_sec time_diff_ms prev rest
                (procs ++ [make_record ticks_per_sec time_diff_ms prev
                             (atoi (d_name e)) c sf (status_file e)])
          | _, _ => scan_loop ticks_per_sec time_diff_ms prev rest procs
          end
        else scan_loop ticks_per_sec time_diff_ms prev rest procs
      else procs
  end.

(** The table and the statics of [scan_processes]. *)
Record Tables := {
  procs : list PInfo;
  prev : list PInfo;
  prev_time_ms : Z
}.

Definition init : Tables := {| procs := []; prev := []; prev_time_ms := 0 |}.

Definition time_diff (curr_time_ms prev_time : Z) : Z :=
  if 0 <? prev_time then curr_time_ms - prev_time else 1500.

(** [scan_processes]; [dir = None] is a failed [opendir], which leaves the
    table empty and the statics as they were. *)
Definition scan_processes (ticks_per_sec curr_time_ms : Z)
    (dir : option (list DirEntry)) (t : Tables) : Tables :=
  match dir with
  | None => {| procs := []; prev := prev t; prev_time_ms := prev_time_ms t |}
  | Some entries =>
      let table :=
        scan_loop ticks_per_sec (time_diff curr_time_ms (prev_time_ms t))
                  (prev t) entries [] in
      {| procs := table; prev := table; prev_time_ms := curr_time_ms |}
  end.

(** Number of records that carry the policy flag, as [draw_resource_mgr]
    counts them. *)
Definition suspended_count (l : list PInfo) : nat :=
  length (List.filter suspended_by_manager l).

End Proc.

(* ================================================================== *)
(** ** Resource policy *)

Module Policy.
Import Proc.

(** [strstr(haystack, needle) != NULL] *)
Fixpoint strstr (haystack needle : string) : bool :=
  if String.prefix needle haystack then true
  else match haystack with
       | EmptyString => false
       | String _ rest => strstr rest needle
       end.

(** [priority_procs[0 .. num_priority_procs - 1]] is the list [pl]. *)
Definition is_priority_proc (pl : list string) (c : string) : bool :=
  existsb (fun name => strstr c name) pl.

Definition critical : list string :=
  [ "systemd"; "init"; "kernel"; "kthread"; "ksoftirq"; "kworker"; "Xorg";
    "X"; "wayland"; "sway"; "gnome-shell"; "kwin"; "mutter"; "plasmashell";
    "xfwm4"; "openbox"; "i3"; "dwm"; "awesome"; "gdm"; "sddm"; "lightdm";
    "login"; "getty"; "pulseaudio"; "pipewire"; "wireplumber"; "alsa";
    "NetworkManager"; "wpa_supplicant"; "dhclient"; "dhcpcd"; "dbus";
    "dbus-daemon"; "systemd-"; "udevd"; "upowerd"; "polkitd"; "rtkit";
    "accounts-daemon"; "udisksd"; "bluetoothd"; "cupsd"; "avahi"; "ssh";
    "sshd"; "cron"; "crond"; "atd"; "rsyslogd"; "syslog"; "journald";
    "dockerd"; "containerd"; "kubelet"; "libvirtd"; "virtlogd"; "qemu";
    "xfce4-session"; "mate-session"; "cinnamon-session"; "lxsession";
    "lxqt-session"; "gnome-session"; "kde-session" ]%string.

Definition is_system_critical (c : string) : bool :=
  existsb (fun name => strstr c name) critical.

(** [procs[i].cpu_pct > 10.0 || procs[i].rss_kb > 500000] *)
Definition over_threshold (p : PInfo) : bool :=
  Dbl.gt (cpu_pct p) Dbl.ten || (500000 <? rss_kb p).

(** The processes that the specification says the policy stops: not on the
    priority list, not system-critical, not owned by root, running, not
    already suspended by the policy, and above a threshold (more than 10
    percent CPU or more than 500000 kB resident). *)
Definition should_stop (pl : list string) (p : PInfo) : bool :=
  negb (is_priority_proc pl (comm p))
  && negb (is_system_critical (comm p))
  && negb (uid p =? 0)
  && running p
  && negb (suspended_by_manager p)
  && (Dbl.gt (cpu_pct p) Dbl.ten || (500000 <? rss_kb p)).

(** The body of the second loop of [manage_resources]. *)
Definition manage_one (pl : list string) (p : PInfo) : Os.M PInfo :=
  if is_priority_proc pl (comm p) then Os.ret p
  else if is_system_critical (comm p) then Os.ret p
  else if uid p =? 0 then Os.ret p
  else if over_threshold p && running p && negb (suspended_by_manager p)
  then do r <- Os.kill (pid p) Os.SIGSTOP;
       if r =? 0 then Os.ret (set_suspended true p) else Os.ret p
  else Os.ret p.

(** A loop that runs a body over the table in index order and stores the
    result in place. *)
Fixpoint for_each (body : PInfo -> Os.M PInfo) (l : list PInfo)
  : Os.M (list PInfo) :=
  match l with
  | [] => Os.ret []
  | p :: rest =>
      do p' <- body p;
      do rest' <- for_each body rest;
      Os.ret (p' :: rest')
  end.

(** The first loop of [manage_resources]. *)
Definition priority_running (pl : list string) (l : list PInfo) : bool :=
  existsb (fun p => is_priority_proc pl (comm p) && running p) l.

Definition manage_resources (auto_manage_enabled : bool) (pl : list string)
    (l : list PInfo) : Os.M (list PInfo) :=
  if negb auto_manage_enabled then Os.ret l
  else if negb (priority_running pl l) then Os.ret l
  else for_each (manage_one pl) l.

Definition resume_one (p : PInfo) : Os.M PInfo :=
  if suspended_by_manager p
  then do _r <- Os.kill (pid p) Os.SIGCONT; Os.ret (set_suspended false p)
  else Os.ret p.

Definition resume_suspended (l : list PInfo) : Os.M (list PInfo) :=
  for_each resume_one l.

(** The answer of [kill] for the entry of index [i], when the pass starts in
    the world [w]: one call was made for each earlier entry that is to be
    stopped. *)
Definition answer_for (pl : list string) (w : Os.world) (l : list PInfo)
    (i : nat) : Z :=
  Os.answers w (Os.calls w + length (List.filter (should_stop pl) (take i l))).

(** The events of a pass over [l] whose first call of [kill] is the [k]-th,
    and the table it leaves, written without the monad. *)
Fixpoint stop_events (pl : list string) (ans : nat -> Z) (k : nat)
    (l : list PInfo) : list Os.event :=
  match l with
  | [] => []
  | p :: rest =>
      if should_stop pl p
      then Os.Kill (pid p) Os.SIGSTOP (ans k) :: stop_events pl ans (S k) rest
      else stop_events pl ans k rest
  end.

Fixpoint stop_results (pl : list string) (ans : nat -> Z) (k : nat)
    (l : list PInfo) : list PInfo :=
  match l with
  | [] => []
  | p :: rest =>
      if should_stop pl p
      then (if ans k =? 0 then set_suspended true p else p)
           :: stop_results pl ans (S k) rest
      else p :: stop_results pl ans k rest
  end.

(** The events of a resume pass. *)
Fixpoint cont_events (ans : nat -> Z) (k : nat) (l : list PInfo)
  : list Os.event :=
  match l with
  | [] => []
  | p :: rest =>
      if suspended_by_manager p
      then Os.Kill (pid p) Os.SIGCONT (ans k) :: cont_events ans (S k) rest
      else cont_events ans k rest
  end.

End Policy.

(* ================================================================== *)
(** ** Actions *)

Module Act.
Import Proc.

Definition act_kill (p : Z) : Os.M unit :=
  do r <- Os.kill p Os.SIGTERM;
  if r =? 0 then Os.ret tt
  else do _u <- Os.usleep 200000;
       do _r <- Os.kill p Os.SIGKILL;
       Os.ret tt.

Definition act_stopcont (p : PInfo) : Os.M PInfo :=
  if running p
  then do _r <- Os.kill (pid p) Os.SIGSTOP; Os.ret (set_running false p)
  else do _r <- Os.kill (pid p) Os.SIGCONT; Os.ret (set_running true p).

End Act.

(* ================================================================== *)
(** ** The main loop *)

Module Main.
Import Proc.

(** The variables of the program that the scanner, the policy and the key
    handlers share. *)
Record Sys := {
  tables : Tables;
  priority_procs : list string;
  auto_manage_enabled : bool;
  os : Os.world
}.

Definition init (ans : nat -> Z) : Sys :=
  {| tables := Proc.init; priority_procs := [];
     auto_manage_enabled := false; os := Os.start ans |}.

Definition with_procs (s : Sys) (l : list PInfo) (w : Os.world) : Sys :=
  {| tables := {| procs := l; prev := prev (tables s);
                  prev_time_ms := prev_time_ms (tables s) |};
     priority_procs := priority_procs s;
     auto_manage_enabled := auto_manage_enabled s;
     os := w |}.

(** The scan that [main] runs before the loop and when the process page is
    opened from the menu: [scan_processes()] alone. *)
Definition plain_scan (tps now : Z) (dir : option (list DirEntry)) (s : Sys)
  : Sys :=
  {| tables := scan_processes tps now dir (tables s);
     priority_procs := priority_procs s;
     auto_manage_enabled := auto_manage_enabled s;
     os := os s |}.

(** The periodic refresh:
    [scan_processes(); if (auto_manage_enabled) manage_resources();] *)
Definition timer_scan (tps now : Z) (dir : option (list DirEntry)) (s : Sys)
  : Sys :=
  let s1 := plain_scan tps now dir s in
  if auto_manage_enabled s1 then
    let '(l, w) := Policy.manage_resources (auto_manage_enabled s1)
                     (priority_procs s1) (procs (tables s1)) (os s1) in
    with_procs s1 l w
  else s1.

(** Key [T]: [auto_manage_enabled = !auto_manage_enabled;
    if (!auto_manage_enabled) resume_suspended();] *)
Definition key_T (s : Sys) : Sys :=
  let enabled := negb (auto_manage_enabled s) in
  let s1 := {| tables := tables s; priority_procs := priority_procs s;
               auto_manage_enabled := enabled; os := os s |} in
  if negb enabled then
    let '(l, w) := Policy.resume_suspended (procs (tables s1)) (os s1) in
    with_procs s1 l w
  else s1.

(** Key [R]: [resume_suspended();] *)
Definition key_R (s : Sys) : Sys :=
  let '(l, w) := Policy.resume_suspended (procs (tables s)) (os s) in
  with_procs s l w.

(** Key [D]: [if (num_priority_procs > 0) num_priority_procs--;] *)
Definition key_D (s : Sys) : Sys :=
  {| tables := tables s; priority_procs := removelast (priority_procs s);
     auto_manage_enabled := auto_manage_enabled s; os := os s |}.

(** Key [A] on the selected row: append [procs[proc_sel].comm] unless the
    list is full or holds the same string. *)
Definition key_A (proc_sel : Z) (s : Sys) : Sys :=
  let l := procs (tables s) in
  if (0 <=? proc_sel) && (proc_sel <? Z.of_nat (length l))
     && (Z.of_nat (length (priority_procs s)) <? MAX_PRIORITY_PROCS)
  then
    match l !! Z.to_nat proc_sel with
    | Some p =>
        if existsb (String.eqb (comm p)) (priority_procs s) then s
        else {| tables := tables s;
                priority_procs := priority_procs s ++ [comm p];
                auto_manage_enabled := auto_manage_enabled s; os := os s |}
    | None => s
    end
  else s.

(** Key [K] on the selected row. *)
Definition key_K (proc_sel : Z) (s : Sys) : Sys :=
  let l := procs (tables s) in
  if (0 <=? proc_sel) && (proc_sel <? Z.of_nat (length l)) then
    match l !! Z.to_nat proc_sel with
    | Some p => with_procs s l (snd (Act.act_kill (pid p) (os s)))
    | None => s
    end
  else s.

(** Key [S] on the selected row. *)
Definition key_S (proc_sel : Z) (s : Sys) : Sys :=
  let l := procs (tables s) in
  if (0 <=? proc_sel) && (proc_sel <? Z.of_nat (length l)) then
    match l !! Z.to_nat proc_sel with
    | Some p =>
        let '(p', w) := Act.act_stopcont p (os s) in
        with_procs s (<[Z.to_nat proc_sel := p']> l) w
    | None => s
    end
  else s.

(** One event of the loop.  [qsort] in [draw_procs] reorders the table in
    place; all that is used of it is that the result is a permutation.
    Drawing, page changes and [act_renice] touch none of the variables of
    [Sys] and have no event. *)
Inductive step (tps : Z) : Sys -> Sys -> Prop :=
| step_timer now dir s : step tps s (timer_scan tps now dir s)
| step_scan now dir s : step tps s (plain_scan tps now dir s)
| step_sort s l :
    Permutation (procs (tables s)) l -> step tps s (with_procs s l (os s))
| step_T s : step tps s (key_T s)
| step_R s : step tps s (key_R s)
| step_D s : step tps s (key_D s)
| step_A sel s : step tps s (key_A sel s)
| step_K sel s : step tps s (key_K sel s)
| step_S sel s : step tps s (key_S sel s).

Inductive reachable (tps : Z) (ans : nat -> Z) : Sys -> Prop :=
| reach_init : reachable tps ans (init ans)
| reach_step s s' :
    reachable tps ans s -> step tps s s' -> reachable tps ans s'.

End Main.

(* ================================================================== *)
(** ** Statements used by the properties *)

Module Claims.
Import Proc.

(** The snapshot holds no policy flag, and a flagged entry of the table is
    neither owned by root nor protected by name. *)
Definition flags_ok (s : Main.Sys) : Prop :=
  (forall q, In q (prev (Main.tables s)) -> suspended_by_manager q = false)
  /\ (forall p, In p (procs (Main.tables s)) ->
                suspended_by_manager p = true ->
                uid p <> 0 /\ Policy.is_system_critical (comm p) = false).

(** Terminate as the specification words it: when the graceful signal cannot
    be sent the operation returns at once; when it is sent, a fixed delay
    and the forceful signal follow. *)
Definition terminate_as_specified (p : Z) (w : Os.world) : Prop :=
  let r := Os.answers w (Os.calls w) in
  exists delay r2,
    Os.trace (snd (Act.act_kill p w)) =
    Os.trace w ++
      (if r =? 0
       then [Os.Kill p Os.SIGTERM r; Os.Sleep delay; Os.Kill p Os.SIGKILL r2]
       else [Os.Kill p Os.SIGTERM r]).

(** The scan that follows a resume-all pass brings the flags back: every
    record of a PID that was flagged before the pass is flagged again, and
    the count of flagged records is not zero. *)
Definition rescan_restores_flags (tps now : Z) (dir : option (list DirEntry))
    (s : Main.Sys) : Prop :=
  let s' := Main.plain_scan tps now dir (Main.key_R s) in
  forall p, In p (procs (Main.tables s)) -> suspended_by_manager p = true ->
  forall p', In p' (procs (Main.tables s')) -> pid p' = pid p ->
  suspended_by_manager p' = true
  /\ suspended_count (procs (Main.tables s')) <> 0%nat.

End Claims.

(* ================================================================== *)
(** ** A run of the program *)

Module Scenario.
Import Proc.

Definition entry (name c : string) (u s : Z) (r : bool) (owner rss : Z)
  : DirEntry :=
  {| d_name := name; comm_file := Some c;
     stat_file := Some {| sf_ut := u; sf_st := s; sf_nicev := 0;
                          sf_running := r |};
     status_file := Some {| sf_uid := owner; sf_rss_kb := rss |} |}.

(** [/proc] at three successive scans: an encoder and a browser of user
    1000, a shell of root; the browser burns 80 ticks between the first two
    scans and none while it is stopped. *)
Definition dir1 : list DirEntry :=
  [ entry "." "" 0 0 true 0 0;
    entry "1" "systemd" 500 500 true 0 12000;
    entry "777" "ffmpeg" 10 10 true 1000 90000;
    entry "4242" "chrome" 1000 200 true 1000 300000 ]%string.

Definition dir2 : list DirEntry :=
  [ entry "1" "systemd" 600 600 true 0 12000;
    entry "777" "ffmpeg" 100 20 true 1000 90000;
    entry "4242" "chrome" 1050 230 true 1000 300000 ]%string.

Definition dir3 : list DirEntry :=
  [ entry "1" "systemd" 700 700 true 0 12000;
    entry "777" "ffmpeg" 200 30 true 1000 90000;
    entry "4242" "chrome" 1050 230 true 1000 300000 ]%string.

Definition always_ok : nat -> Z := fun _ => 0.
Definition always_fails : nat -> Z := fun _ => -1.

(** First scan, [A] on the encoder's row, [T] to enable the policy, the
    periodic scan that stops the browser. *)
Definition s1 : Main.Sys := Main.plain_scan 100 5000 (Some dir1) (Main.init always_ok).
Definition s2 : Main.Sys := Main.key_T (Main.key_A 1 s1).
Definition s3 : Main.Sys := Main.timer_scan 100 6500 (Some dir2) s2.

(** [R], then the next periodic scan. *)
Definition s4 : Main.Sys := Main.key_R s3.
Definition s5 : Main.Sys := Main.timer_scan 100 8000 (Some dir3) s4.

(** [T] again in [s3] disables the policy. *)
Definition s3_off : Main.Sys := Main.key_T s3.

(** The table after the second scan, before the policy pass, and some of
    the records. *)
Definition table2 : list PInfo :=
  procs (scan_processes 100 6500 (Some dir2) (Main.tables s1)).

Definition systemd2 : PInfo := table2 !!! 0%nat.
Definition ffmpeg2 : PInfo := table2 !!! 1%nat.
Definition chrome2 : PInfo := table2 !!! 2%nat.
Definition chrome1 : PInfo := procs (Main.tables s1) !!! 2%nat.
Definition chrome3 : PInfo := procs (Main.tables s3) !!! 2%nat.
Definition chrome4 : PInfo :=
  procs (Main.tables (Main.plain_scan 100 8000 (Some dir3) s4)) !!! 2%nat.

Definition stat1 : list Cpu.StatLine :=
  [ Cpu.mk_line "cpu" 100 0 100 800 0 0 0 0;
    Cpu.mk_line "cpu0" 60 0 50 400 0 0 0 0;
    Cpu.mk_line "cpu1" 40 0 50 400 0 0 0 0;
    Cpu.mk_line "intr" 1 2 3 4 5 6 7 8 ]%string.

Definition stat2 : list Cpu.StatLine :=
  [ Cpu.mk_line "cpu" 150 0 120 850 0 0 0 0;
    Cpu.mk_line "cpu0" 90 0 60 420 0 0 0 0;
    Cpu.mk_line "cpu1" 60 0 60 430 0 0 0 0;
    Cpu.mk_line "intr" 1 2 3 4 5 6 7 8 ]%string.

End Scenario.

(* ================================================================== *)
(** ** Counting lines and samples *)

Module CpuCount.
Import Cpu.


(** Number of calls of [cpu_sample] in a run that opened the file. *)
Fixpoint successes (files : list (option (list StatLine))) : Z :=
  match files with
  | [] => 0
  | Some _ :: rest => 1 + successes rest
  | None :: rest => successes rest
  end.

End CpuCount.

(* ================================================================== *)
(** ** What one directory entry gives to the table *)

Module Table.
Import Proc.

(** The record that [scan_processes] stores for one entry of the directory:
    none when the name is not a PID or when [read_comm] or [read_stat]
    fails. *)
Definition entry_record (ticks_per_sec time_diff_ms : Z) (prev : list PInfo)
    (e : DirEntry) : option PInfo :=
  if is_pid_dir (d_name e) then
    match comm_file e, stat_file e with
    | Some c, Some sf =>
        Some (make_record ticks_per_sec time_diff_ms prev
                (atoi (d_name e)) c sf (status_file e))
    | _, _ => None
    end
  else None.

End Table.

(* ================================================================== *)
(** ** Screen layout, cursor keys and the process page *)

Module Ui.

Definition CONTENT_WIDTH : Z := 100.

(** [COLS] and [LINES] of curses are parameters.  The quantities of this
    module are [int]s of the program; for a screen and a table of the sizes
    that occur (fewer than [2^30] lines, at most 2048 rows) no operation
    below leaves the range of [int]. *)
Definition get_start_x (COLS width : Z) : Z :=
  if width <? COLS then Z.quot (COLS - width) 2 else 1.

Definition get_content_width (COLS : Z) : Z :=
  if CONTENT_WIDTH <? COLS then CONTENT_WIDTH else COLS - 2.

(** The cursor keys of the main menu. *)
Definition menu_up (menu_sel : Z) : Z := Z.rem (menu_sel + 6) 7.
Definition menu_down (menu_sel : Z) : Z := Z.rem (menu_sel + 1) 7.

(** The cursor keys of the process page. *)
Inductive nav := KeyUp | KeyDown | KeyPPage | KeyNPage.

Definition floor0 (proc_sel : Z) : Z := if proc_sel <? 0 then 0 else proc_sel.

Definition cap (nprocs proc_sel : Z) : Z :=
  if (0 <? nprocs) && (nprocs <=? proc_sel) then nprocs - 1 else proc_sel.

Definition key_nav (nprocs : Z) (proc_sel : Z) (k : nav) : Z :=
  match k with
  | KeyUp => floor0 (proc_sel - 1)
  | KeyDown => cap nprocs (proc_sel + 1)
  | KeyPPage => floor0 (proc_sel - 10)
  | KeyNPage => cap nprocs (proc_sel + 10)
  end.

(** The row loop of [draw_procs]: the pairs of a table index and the
    screen line it is printed on.  [i] grows by one in each iteration and
    the loop ends at [end_], so [end_ - start] iterations are all it can
    make. *)
Fixpoint rows_loop (n : nat) (H nprocs end_ i y : Z) : list (Z * Z) :=
  match n with
  | O => []
  | S n' =>
      if (i <? end_) && (i <? nprocs) then
        if H - 1 <=? y then []
        else (i, y) :: rows_loop n' H nprocs end_ (i + 1) (y + 1)
      else []
  end.

(** What [draw_procs] does with the selection: the value it leaves in
    [proc_sel] and the rows it prints. *)
Definition draw_procs (W H nprocs proc_sel : Z) : Z * list (Z * Z) :=
  if (W <? 40) || (H <? 10) then (proc_sel, [])
  else
    let proc_sel := if proc_sel <? 0 then 0 else proc_sel in
    let proc_sel :=
      if (nprocs <=? proc_sel) && (0 <? nprocs) then nprocs - 1
      else proc_sel in
    let rows := H - 8 in
    let rows := if rows <? 1 then 1 else rows in
    let start := proc_sel - Z.quot rows 2 in
    let start := if start <? 0 then 0 else start in
    let end_ := start + rows in
    let end_ := if nprocs <? end_ then nprocs else end_ in
    let start :=
      if (end_ - rows <? start) && (rows <=? end_) then end_ - rows
      else start in
    let start := if start <? 0 then 0 else start in
    (proc_sel, rows_loop (Z.to_nat (end_ - start)) H nprocs end_ start 6).

(** The rows [first .. first + n - 1] on the lines [6 .. 6 + n - 1]. *)
Definition block (first : Z) (n : nat) : list (Z * Z) :=
  map (fun k => (first + Z.of_nat k, 6 + Z.of_nat k)) (seq 0 n).

End Ui.

(* ================================================================== *)
(** ** Integer conversions *)

Module Cint.

(** Conversion to [int]: the value modulo [2^32], taken in
    [-2^31 .. 2^31 - 1]. *)
Definition to_int (z : Z) : Z := (z + 2 ^ 31) mod 2 ^ 32 - 2 ^ 31.

Definition ULONG_MAX : Z := 2 ^ 64 - 1.
Definition LONG_MAX : Z := 2 ^ 63 - 1.
Definition LONG_MIN : Z := - 2 ^ 63.

End Cint.

(* ================================================================== *)
(** ** Order of the process page *)

Module Sort.
Import Proc.

Definition cmp_cpu (x y : PInfo) : Z :=
  if Dbl.gt (cpu_pct y) (cpu_pct x) then 1
  else if Dbl.lt (cpu_pct y) (cpu_pct x) then -1
  else Cint.to_int (pid x - pid y).

Definition cmp_mem (x y : PInfo) : Z :=
  if rss_kb x <? rss_kb y then 1
  else if rss_kb y <? rss_kb x then -1
  else Cint.to_int (pid x - pid y).

(** A table as [qsort] leaves it for a comparison function. *)
Definition sorted_by (cmp : PInfo -> PInfo -> Z) (l : list PInfo) : Prop :=
  forall (i : nat) (a b : PInfo),
    l !! i = Some a -> l !! S i = Some b -> cmp a b <= 0.

(** PIDs as the kernel gives them. *)
Definition pids_ok (l : list PInfo) : Prop :=
  Forall (fun p => 0 <= pid p < 2 ^ 31) l.

Definition no_nan (l : list PInfo) : Prop :=
  Forall (fun p => cpu_pct p <> S754_nan) l.

(** A key that orders the doubles other than NaN as the comparison of the
    machine does: the class, then exponent and mantissa, reversed for the
    negative numbers. *)
Definition rank (x : double) : Z * Z * Z :=
  match x with
  | S754_infinity true => (-2, 0, 0)
  | S754_finite true m e => (-1, - e, - Z.pos m)
  | S754_finite false m e => (1, e, Z.pos m)
  | S754_infinity false => (2, 0, 0)
  | _ => (0, 0, 0)
  end.

Definition lex3 (a b : Z * Z * Z) : comparison :=
  let '(a1, a2, a3) := a in
  let '(b1, b2, b3) := b in
  match a1 ?= b1 with
  | Eq => match a2 ?= b2 with Eq => a3 ?= b3 | c => c end
  | c => c
  end.

End Sort.

(* ================================================================== *)
(** ** Text buffers *)

Module CStr.

Definition NUL : ascii := "000"%char.
Definition LF : ascii := "010"%char.
Definition SP : ascii := " "%char.
Definition QUOTE : ascii := "034"%char.
Definition RPAR : ascii := ")"%char.

(** The string that the functions of [string.h] see in a buffer: the
    bytes before the first NUL. *)
Fixpoint c_str (s : list ascii) : list ascii :=
  match s with
  | [] => []
  | c :: s' => if Ascii.eqb c NUL then [] else c :: c_str s'
  end.

(** The bytes before the first occurrence of [d]. *)
Fixpoint until (d : ascii) (s : list ascii) : list ascii :=
  match s with
  | [] => []
  | c :: s' => if Ascii.eqb c d then [] else c :: until d s'
  end.

(** What successive calls of [fgets(line, cap + 1, f)] store, for a stream
    that holds [s]: each call takes bytes up to and including a newline,
    at most [cap] of them.  [room] is the free space of the call in
    progress. *)
Fixpoint fgets_all (cap room : nat) (s : list ascii) : list (list ascii) :=
  match s with
  | [] => []
  | c :: s' =>
      if Ascii.eqb c LF then [c] :: fgets_all cap cap s'
      else if (room <=? 1)%nat then [c] :: fgets_all cap cap s'
      else match fgets_all cap (room - 1) s' with
           | t :: ts => (c :: t) :: ts
           | [] => [[c]]
           end
  end.

(** [strrchr(s, c) + 1]: what follows the last occurrence of [c]. *)
Fixpoint after_last (c : ascii) (s : list ascii) : option (list ascii) :=
  match s with
  | [] => None
  | d :: s' =>
      match after_last c s' with
      | Some r => Some r
      | None => if Ascii.eqb d c then Some s' else None
      end
  end.

(** The tokens that successive calls of [strsep(&save, " ")] return until
    [save] is null; two spaces in a row give an empty token. *)
Fixpoint strsep_all (s : list ascii) : list (list ascii) :=
  match s with
  | [] => [[]]
  | c :: s' =>
      if Ascii.eqb c SP then [] :: strsep_all s'
      else match strsep_all s' with
           | t :: ts => (c :: t) :: ts
           | [] => [[c]]
           end
  end.

Definition isspace (c : ascii) : bool :=
  let n := N_of_ascii c in ((n =? 32) || ((9 <=? n) && (n <=? 13)))%N.

Definition isdigit (c : ascii) : bool :=
  let n := N_of_ascii c in ((48 <=? n) && (n <=? 57))%N.

Fixpoint skip_space (s : list ascii) : list ascii :=
  match s with
  | c :: s' => if isspace c then skip_space s' else s
  | [] => []
  end.

(** The value of the leading decimal digits. *)
Fixpoint digits (acc : Z) (s : list ascii) : Z :=
  match s with
  | c :: s' =>
      if isdigit c then digits (10 * acc + (Z.of_N (N_of_ascii c) - 48)) s'
      else acc
  | [] => acc
  end.

(** The sign that [strtol] and [strtoul] accept, and what follows it. *)
Definition sign (s : list ascii) : bool * list ascii :=
  match s with
  | c :: s' =>
      if Ascii.eqb c "-" then (true, s')
      else if Ascii.eqb c "+" then (false, s')
      else (false, s)
  | [] => (false, [])
  end.

(** [strtoul(s, NULL, 10)]: white space, an optional sign, the digits;
    [ULONG_MAX] when the digits do not fit, the negated value modulo
    [2^64] after a minus sign. *)
Definition strtoul (s : list ascii) : Z :=
  let '(neg, d) := sign (skip_space s) in
  let v := digits 0 d in
  if Cint.ULONG_MAX <? v then Cint.ULONG_MAX
  else if neg then wrap64 (- v) else v.

(** [strtol(s, NULL, 10)]: the same, held between [LONG_MIN] and
    [LONG_MAX]. *)
Definition strtol (s : list ascii) : Z :=
  let '(neg, d) := sign (skip_space s) in
  let v := digits 0 d in
  if neg then (if - v <? Cint.LONG_MIN then Cint.LONG_MIN else - v)
  else (if Cint.LONG_MAX <? v then Cint.LONG_MAX else v).

(** [strncmp(s, p, strlen(p)) == 0] *)
Fixpoint starts_with (p s : list ascii) : bool :=
  match p, s with
  | [], _ => true
  | a :: p', b :: s' => Ascii.eqb a b && starts_with p' s'
  | _ :: _, [] => false
  end.

(** Tokens joined by single spaces. *)
Fixpoint join_sp (toks : list (list ascii)) : list ascii :=
  match toks with
  | [] => []
  | [t] => t
  | t :: rest => t ++ SP :: join_sp rest
  end.

(** A byte of a field of [/proc/<pid>/stat] after the command name. *)
Definition field_byte (c : ascii) : bool :=
  negb (Ascii.eqb c SP) && negb (Ascii.eqb c RPAR)
  && negb (Ascii.eqb c LF) && negb (Ascii.eqb c NUL).

Definition field_ok (t : list ascii) : bool :=
  negb (Nat.eqb (length t) 0) && forallb field_byte t.

(** A byte that neither ends a line nor a string. *)
Definition line_byte (c : ascii) : bool :=
  negb (Ascii.eqb c LF) && negb (Ascii.eqb c NUL).

End CStr.

(* ================================================================== *)
(** ** [read_stat] *)

Module Stat.
Import Proc CStr.

(** The three ways [read_stat] ends: it returns -1; the closing
    parenthesis is the last byte of the line, so that [rp + 2] is past the
    terminator and the scan reads what the buffer held before; or the
    fields are scanned. *)
Inductive outcome :=
| Failed
| Beyond
| Parsed (sf : StatFields).

(** [st != 'T' && st != 'Z'] *)
Definition runs (st : ascii) : bool :=
  negb (Ascii.eqb st "T") && negb (Ascii.eqb st "Z").

(** The [while ((tok = strsep(&save, " ")))] loop over the tokens. *)
Fixpoint fields_loop (toks : list (list ascii)) (field : Z) (sf : StatFields)
  : StatFields :=
  match toks with
  | [] => sf
  | [] :: rest => fields_loop rest field sf
  | (c :: _) as tok :: rest =>
      if field =? 3 then
        fields_loop rest (field + 1)
          {| sf_ut := sf_ut sf; sf_st := sf_st sf; sf_nicev := sf_nicev sf;
             sf_running := runs c |}
      else if field =? 14 then
        fields_loop rest (field + 1)
          {| sf_ut := strtoul tok; sf_st := sf_st sf;
             sf_nicev := sf_nicev sf; sf_running := sf_running sf |}
      else if field =? 15 then
        fields_loop rest (field + 1)
          {| sf_ut := sf_ut sf; sf_st := strtoul tok;
             sf_nicev := sf_nicev sf; sf_running := sf_running sf |}
      else if field =? 19 then
        {| sf_ut := sf_ut sf; sf_st := sf_st sf;
           sf_nicev := Cint.to_int (strtol tok);
           sf_running := sf_running sf |}
      else fields_loop rest (field + 1) sf
  end.

(** The out-parameters as the caller passes them: the slot was cleared by
    [memset], and [*running] is set before the loop. *)
Definition cleared : StatFields :=
  {| sf_ut := 0; sf_st := 0; sf_nicev := 0; sf_running := true |}.

(** [read_stat] on the bytes of the file; [None] is a failed [fopen]. *)
Definition read_stat (file : option (list ascii)) : outcome :=
  match file with
  | None => Failed
  | Some content =>
      match fgets_all 1023 1023 content with
      | [] => Failed
      | chunk :: _ =>
          match after_last RPAR (c_str chunk) with
          | None => Failed
          | Some [] => Beyond
          | Some (_ :: rest) =>
              Parsed (fields_loop (strsep_all rest) 3 cleared)
          end
      end
  end.

(** The line of a process: PID, command name in parentheses, fields. *)
Definition stat_line (pid_text comm : list ascii)
    (fields : list (list ascii)) : list ascii :=
  pid_text ++ [SP; "("%char] ++ comm ++ [RPAR; SP] ++ join_sp fields ++ [LF].

End Stat.

(* ================================================================== *)
(** ** [read_comm] *)

Module Comm.
Import CStr.

(** [MAX_COMM], the size of [PInfo.comm] and of a slot of
    [priority_procs]. *)
Definition MAX_COMM : nat := 64.

(** [read_comm] on the bytes of the file; [None] is the return value -1
    (the file cannot be opened, or is empty). *)
Definition read_comm (file : option (list ascii)) : option (list ascii) :=
  match file with
  | None => None
  | Some content =>
      match fgets_all (MAX_COMM - 1) (MAX_COMM - 1) content with
      | [] => None
      | chunk :: _ => Some (until LF (c_str chunk))
      end
  end.

(** [strncpy(priority_procs[n], comm, MAX_COMM - 1);
    priority_procs[n][MAX_COMM - 1] = 0]: the string left in the slot. *)
Definition stored_name (comm : list ascii) : list ascii :=
  take (MAX_COMM - 1) comm.

End Comm.

(* ================================================================== *)
(** ** [read_os_release] *)

Module OsRelease.
Import CStr.

Definition PRETTY_NAME : list ascii :=
  list_ascii_of_string "PRETTY_NAME=".

(** The statements under [if (!strncmp(line, "PRETTY_NAME=", 12))]: the
    new content of [distro]. *)
Definition pretty_value (line : list ascii) : list ascii :=
  let v := drop 12 line in
  let n := Z.of_nat (length v) in
  let '(v, n) :=
    match v with
    | c :: v' => if Ascii.eqb c QUOTE then (v', wrap64 (n - 2)) else (v, n)
    | [] => (v, n)
    end in
  let precision := Cint.to_int n in
  let printed := if precision <? 0 then v else take (Z.to_nat precision) v in
  until LF (take 127 printed).

Fixpoint lines_loop (lines : list (list ascii)) (distro : list ascii)
  : list ascii :=
  match lines with
  | [] => distro
  | chunk :: rest =>
      let line := c_str chunk in
      if starts_with PRETTY_NAME line then pretty_value line
      else lines_loop rest distro
  end.

(** [read_os_release]; [None] is a failed [fopen]; the result is the
    content of [distro]. *)
Definition read_os_release (file : option (list ascii))
    (distro : list ascii) : list ascii :=
  match file with
  | None => distro
  | Some content => lines_loop (fgets_all 255 255 content) distro
  end.

(** A line of the file that comes before the one looked for. *)
Definition other_line (l : list ascii) : bool :=
  forallb line_byte l && (length l <? 255)%nat
  && negb (starts_with PRETTY_NAME l).

Definition text (ls : list (list ascii)) : list ascii :=
  concat (map (fun l => l ++ [LF]) ls).

End OsRelease.

(* ================================================================== *)
(** ** [read_uptime] *)

Module Uptime.

(** Conversion of a [double] to [int]: the fraction is dropped; there is
    no result for a NaN, an infinity or a value outside of [int]. *)
Definition to_int (x : double) : option Z :=
  match x with
  | S754_zero _ => Some 0
  | S754_finite s m e =>
      let a := if 0 <=? e then Z.pos m * 2 ^ e else Z.pos m / 2 ^ (- e) in
      let v := if s then - a else a in
      if (- 2 ^ 31 <=? v) && (v <? 2 ^ 31) then Some v else None
  | _ => None
  end.

(** [read_uptime]; [file] is the number that [fscanf] converts, [None]
    when the file cannot be opened or holds no number. *)
Definition read_uptime (file : option double) : option (Z * Z * Z) :=
  let up := match file with Some x => x | None => Dbl.zero end in
  match to_int up with
  | Some secs =>
      Some (Z.quot secs 3600, Z.quot (Z.rem secs 3600) 60, Z.rem secs 60)
  | None => None
  end.

End Uptime.

(* ================================================================== *)
(** ** [run_neofetch_stdout] *)

Module Neofetch.
Import CStr.

(** [sizeof(neofetch_info)] *)
Definition INFO_SIZE : nat := 4096.

(** The copy loop; [info] is [neofetch_info[0 .. pos - 1]]. *)
Fixpoint copy_loop (chunks : list (list ascii)) (info : list ascii)
  : list ascii :=
  match chunks with
  | [] => info
  | chunk :: rest =>
      if (length info <? INFO_SIZE - 256)%nat
      then copy_loop rest (info ++ c_str chunk)
      else info
  end.

(** The string left in [neofetch_info]; [None] is a failed [popen]. *)
Definition run_neofetch_stdout (out : option (list ascii)) : list ascii :=
  match out with
  | None => []
  | Some content => copy_loop (fgets_all 255 255 content) []
  end.

End Neofetch.

(* ================================================================== *)
(** ** Sample inputs *)

Module Samples.
Import Proc CStr Scenario.

(** The state after the first sample of [Scenario], and a run that follows
    the second one. *)
Definition sampled : Cpu.State := Cpu.cpu_sample 2 (Some stat1) Cpu.init.

Definition later : list (option (list Cpu.StatLine)) :=
  [None; Some stat1; Some stat2].

(** The browser at the third scan, and its record of the snapshot. *)
Definition table3 : list PInfo :=
  procs (scan_processes 100 8000 (Some dir3) (Main.tables s3)).

Definition chrome_now : PInfo := table3 !!! 2%nat.
Definition chrome_before : PInfo := prev (Main.tables s3) !!! 2%nat.

(** The second table in the two orders of the process page. *)
Definition by_cpu : list PInfo := [systemd2; ffmpeg2; chrome2].
Definition by_mem : list PInfo := [chrome2; ffmpeg2; systemd2].

(** The encoder's record at the first scan. *)
Definition ffmpeg1 : PInfo := procs (Main.tables s1) !!! 1%nat.

Definition txt (s : string) : list ascii := list_ascii_of_string s.

(** A line of [/proc/4242/stat] for a command name with a space and
    parentheses. *)
Definition stat_pid : list ascii := txt "4242".
Definition stat_comm : list ascii := txt "Web Content) (x".
Definition stat_4_13 : list (list ascii) :=
  map txt ["1"; "4242"; "4242"; "0"; "-1"; "4194304"; "180"; "0"; "2"; "0"]%string.
Definition stat_16_18 : list (list ascii) := map txt ["0"; "0"; "20"]%string.
Definition stat_tail : list (list ascii) := map txt ["1"; "0"; "12345"]%string.

(** The lines of [/etc/os-release] before the name. *)
Definition release_head : list (list ascii) :=
  map txt ["NAME=Ubuntu"; "VERSION_ID=22.04"]%string.
Definition release_name : list ascii := txt "Ubuntu 22.04.3 LTS".
Definition release_rest : list ascii := txt "ID=ubuntu".

(** 3725.5 seconds. *)
Definition up_sample : double := S754_finite false 7451 (-1).

End Samples.

(* ================================================================== *)
(** * Properties *)

(** ** Machine integers *)

Lemma wrap64_range (z : Z) : 0 <= wrap64 z < 2 ^ 64.
Proof. unfold wrap64. apply Z.mod_pos_bound. lia. Qed.

Lemma wrap64_small (z : Z) : 0 <= z < 2 ^ 64 -> wrap64 z = z.
Proof. intros H. unfold wrap64. apply Z.mod_small. exact H. Qed.

(** ** Facts about binary64 arithmetic *)

Module DblFacts.
Import Dbl.

Lemma digits2_size (p : positive) : digits2_pos p = Pos.size p.
Proof. induction p as [p IH|p IH|]; simpl; congruence. Qed.

Lemma Zdigits2_log2 (m : Z) : 0 < m -> Zdigits2 m = Z.log2 m + 1.
Proof.
  destruct m as [|p|p]; try lia. intros _. simpl.
  rewrite digits2_size. destruct p; simpl; lia.
Qed.

Lemma Zdigits2_nonneg (m : Z) : 0 <= Zdigits2 m.
Proof. destruct m; simpl; lia. Qed.

Lemma Zdigits2_upper (m : Z) : 0 <= m -> m < 2 ^ Zdigits2 m.
Proof.
  intros Hm. destruct (Z.eq_dec m 0) as [->|Hne]; [reflexivity|].
  rewrite Zdigits2_log2 by lia.
  apply Z.log2_spec. lia.
Qed.

Lemma Zdigits2_lower (m : Z) : 0 < m -> 2 ^ (Zdigits2 m - 1) <= m.
Proof.
  intros Hm. rewrite Zdigits2_log2 by lia.
  replace (Z.log2 m + 1 - 1) with (Z.log2 m) by lia.
  apply Z.log2_spec. lia.
Qed.

Lemma Zdigits2_le (m k : Z) : 0 <= m -> 0 <= k -> m < 2 ^ k -> Zdigits2 m <= k.
Proof.
  intros Hm Hk Hlt. destruct (Z.eq_dec m 0) as [->|Hne]; [simpl; lia|].
  rewrite Zdigits2_log2 by lia.
  assert (Z.log2 m < k) by (apply Z.log2_lt_pow2; lia). lia.
Qed.

Lemma shr_record_of_loc_m (m : Z) (l : location) :
  shr_m (shr_record_of_loc m l) = m.
Proof. destruct l as [|[]]; reflexivity. Qed.

Lemma shr_1_m (r : shr_record) : 0 <= shr_m r -> shr_m (shr_1 r) = shr_m r / 2.
Proof.
  destruct r as [m b s]; simpl. intros Hm.
  destruct m as [|[p|p|]|p]; simpl; try reflexivity; try lia.
  - apply Z.div_unique with (r := 1); lia.
  - apply Z.div_unique with (r := 0); lia.
Qed.

Lemma pow2_xO (p : positive) : 2 ^ Z.pos p~0 = 2 ^ Z.pos p * 2 ^ Z.pos p.
Proof. rewrite <- Z.pow_add_r by lia. f_equal. lia. Qed.

Lemma pow2_xI (p : positive) : 2 ^ Z.pos p~1 = 2 * (2 ^ Z.pos p * 2 ^ Z.pos p).
Proof.
  rewrite <- Z.pow_add_r by lia. rewrite <- Z.pow_succ_r by lia. f_equal. lia.
Qed.

Lemma iter_shr_m (p : positive) : forall r : shr_record,
  0 <= shr_m r -> shr_m (SpecFloat.iter_pos shr_1 p r) = shr_m r / 2 ^ Zpos p.
Proof.
  induction p as [p IH|p IH|]; intros r Hr; simpl SpecFloat.iter_pos.
  - assert (H1 : 0 <= shr_m (shr_1 r)).
    { rewrite shr_1_m by assumption. apply Z.div_pos; lia. }
    assert (H2 : 0 <= shr_m (SpecFloat.iter_pos shr_1 p (shr_1 r))).
    { rewrite IH by assumption. apply Z.div_pos; lia. }
    rewrite IH by assumption. rewrite IH by assumption.
    rewrite shr_1_m by assumption.
    rewrite !Z.div_div by lia. rewrite pow2_xI. reflexivity.
  - assert (H2 : 0 <= shr_m (SpecFloat.iter_pos shr_1 p r)).
    { rewrite IH by assumption. apply Z.div_pos; lia. }
    rewrite IH by assumption. rewrite IH by assumption.
    rewrite !Z.div_div by lia. rewrite pow2_xO. reflexivity.
  - rewrite shr_1_m by assumption. reflexivity.
Qed.

Lemma fexp_eq (x : Z) : fexp prec emax x = Z.max (x - 53) emin.
Proof. reflexivity. Qed.

(** What [shr_fexp] does to a mantissa that is not negative. *)
Lemma shr_fexp_spec (m e : Z) (l : location) :
  0 <= m ->
  let r := fst (shr_fexp prec emax m e l) in
  let e' := snd (shr_fexp prec emax m e l) in
  0 <= shr_m r /\ shr_m r < 2 ^ 53 /\ shr_m r <= m
  /\ e' = Z.max e (fexp prec emax (Zdigits2 m + e)).
Proof.
  intros Hm. unfold shr_fexp, shr.
  pose proof (Zdigits2_upper m Hm) as Hup.
  pose proof (Zdigits2_nonneg m) as Hd.
  rewrite fexp_eq. set (d := Zdigits2 m) in *.
  destruct (Z.max (d + e - 53) emin - e) as [|p|p] eqn:En; simpl.
  - rewrite shr_record_of_loc_m.
    assert (d <= 53) by (unfold emin in *; lia).
    assert (2 ^ d <= 2 ^ 53) by (apply Z.pow_le_mono_r; lia).
    repeat split; try lia.
  - rewrite iter_shr_m by (rewrite shr_record_of_loc_m; lia).
    rewrite shr_record_of_loc_m.
    assert (Hp : d <= Z.pos p + 53) by lia.
    assert (2 ^ d <= 2 ^ (Z.pos p + 53)) by (apply Z.pow_le_mono_r; lia).
    rewrite Z.pow_add_r in * by lia.
    assert (0 < 2 ^ Z.pos p) by (apply Z.pow_pos_nonneg; lia).
    repeat split.
    + apply Z.div_pos; lia.
    + apply Z.div_lt_upper_bound; lia.
    + apply Z.div_le_upper_bound; nia.
    + lia.
  - rewrite shr_record_of_loc_m.
    assert (d <= 53) by (unfold emin in *; lia).
    assert (2 ^ d <= 2 ^ 53) by (apply Z.pow_le_mono_r; lia).
    repeat split; try lia.
Qed.

Lemma shr_fexp_pos (m e : Z) (l : location) :
  0 < m ->
  fexp prec emax (Zdigits2 m + e) <= e \/ emin <= Zdigits2 m + e - 53 ->
  0 < shr_m (fst (shr_fexp prec emax m e l)).
Proof.
  intros Hm Hc. unfold shr_fexp, shr.
  pose proof (Zdigits2_lower m Hm) as Hlow.
  pose proof (Zdigits2_log2 m Hm) as Hd.
  pose proof (Z.log2_nonneg m) as Hlog.
  rewrite fexp_eq in *. set (d := Zdigits2 m) in *.
  destruct (Z.max (d + e - 53) emin - e) as [|p|p] eqn:En; simpl;
    try (rewrite shr_record_of_loc_m; lia).
  rewrite iter_shr_m by (rewrite shr_record_of_loc_m; lia).
  rewrite shr_record_of_loc_m.
  assert (Hp : Z.pos p <= d - 1) by lia.
  assert (2 ^ Z.pos p <= 2 ^ (d - 1)) by (apply Z.pow_le_mono_r; lia).
  assert (0 < 2 ^ Z.pos p) by (apply Z.pow_pos_nonneg; lia).
  apply Z.div_str_pos. lia.
Qed.

Lemma round_nearest_even_bounds (m : Z) (l : location) :
  m <= round_nearest_even m l <= m + 1.
Proof.
  unfold round_nearest_even. destruct l as [|[]]; try lia.
  destruct (Z.even m); lia.
Qed.

(** The three possible results of rounding a mantissa that is not negative,
    with the exponent of the result. *)
Lemma round_aux_spec (sx : bool) (mx ex : Z) (lx : location) :
  0 <= mx ->
  let E := Z.max ex (fexp prec emax (Zdigits2 mx + ex)) in
  let r := binary_round_aux prec emax sx mx ex lx in
  r = S754_zero sx
  \/ (exists m e, r = S754_finite sx m e /\ Z.pos m < 2 ^ 53 /\ E <= e <= E + 1)
  \/ (r = S754_infinity sx /\ 971 <= E).
Proof.
  intros Hm E r. subst r. unfold binary_round_aux.
  pose proof (shr_fexp_spec mx ex lx Hm) as H1.
  destruct (shr_fexp prec emax mx ex lx) as [r1 e1]. simpl in H1.
  destruct H1 as (H1a & H1b & _ & H1e). fold E in H1e. subst e1.
  pose proof (round_nearest_even_bounds (shr_m r1) (loc_of_shr_record r1)) as Hr.
  set (m2 := round_nearest_even (shr_m r1) (loc_of_shr_record r1)) in *.
  assert (Hm2 : 0 <= m2) by lia.
  pose proof (shr_fexp_spec m2 E loc_Exact Hm2) as H2.
  destruct (shr_fexp prec emax m2 E loc_Exact) as [r2 e2]. simpl in H2.
  destruct H2 as (H2a & H2b & _ & H2e).
  assert (Hd2 : Zdigits2 m2 <= 54).
  { apply Zdigits2_le; lia. }
  assert (HE : emin <= E).
  { unfold E. rewrite fexp_eq. lia. }
  rewrite fexp_eq in H2e.
  assert (He2 : E <= e2 <= E + 1) by lia.
  destruct (shr_m r2) as [|m|m] eqn:Em; [left; reflexivity| |lia].
  right. change (emax - prec) with 971.
  destruct (e2 <=? 971) eqn:Ele.
  - left. exists m, e2. repeat split; lia.
  - right. apply Z.leb_gt in Ele. split; [reflexivity|lia].
Qed.

(** A positive mantissa in the normal range does not round to zero. *)
Lemma round_aux_nonzero (sx : bool) (mx ex : Z) (lx : location) :
  0 < mx -> emin <= Zdigits2 mx + ex - 53 ->
  binary_round_aux prec emax sx mx ex lx <> S754_zero sx.
Proof.
  intros Hm Hn. unfold binary_round_aux.
  pose proof (shr_fexp_spec mx ex lx (Z.lt_le_incl _ _ Hm)) as H1.
  pose proof (shr_fexp_pos mx ex lx Hm (or_intror Hn)) as P1.
  destruct (shr_fexp prec emax mx ex lx) as [r1 e1]. simpl in H1, P1.
  destruct H1 as (_ & _ & _ & H1e).
  pose proof (round_nearest_even_bounds (shr_m r1) (loc_of_shr_record r1)) as Hr.
  set (m2 := round_nearest_even (shr_m r1) (loc_of_shr_record r1)) in *.
  assert (Hm2 : 0 < m2) by lia.
  assert (HE : emin <= e1) by (rewrite fexp_eq in H1e; lia).
  assert (P2 : 0 < shr_m (fst (shr_fexp prec emax m2 e1 loc_Exact))).
  { apply shr_fexp_pos; [assumption|]. rewrite fexp_eq. lia. }
  destruct (shr_fexp prec emax m2 e1 loc_Exact) as [r2 e2]. simpl in P2.
  destruct (shr_m r2) as [|m|m]; try lia.
  destruct (e2 <=? emax - prec); discriminate.
Qed.

Lemma iter_xO_pow2 (p d : positive) :
  Z.pos (Pos.iter xO p d) = Z.pos p * 2 ^ Z.pos d.
Proof.
  induction d as [|d IH] using Pos.peano_ind.
  - simpl. lia.
  - rewrite Pos.iter_succ, Pos2Z.inj_xO, IH, Pos2Z.inj_succ.
    rewrite Z.pow_succ_r by lia. lia.
Qed.

Lemma shl_align_spec (p : positive) (ex ex' : Z) :
  let mz := fst (shl_align p ex ex') in
  let ez := snd (shl_align p ex ex') in
  ez = Z.min ex ex' /\ Z.pos mz = Z.pos p * 2 ^ (ex - ez).
Proof.
  unfold shl_align. destruct (ex' - ex) as [|d|d] eqn:Ed; simpl.
  - split; [lia|]. rewrite Z.sub_diag. simpl. lia.
  - split; [lia|]. rewrite Z.sub_diag. simpl. lia.
  - split; [lia|]. rewrite iter_xO_pow2. do 2 f_equal. lia.
Qed.

Lemma binary_round_regular (sx : bool) (p : positive) (e : Z) :
  regular (binary_round prec emax sx p e).
Proof.
  unfold binary_round.
  destruct (shl_align p e _) as [mz ez].
  destruct (round_aux_spec sx (Z.pos mz) ez loc_Exact)
    as [H|[(m & e' & H & Hm & _)|[H _]]]; [lia|..]; rewrite H; simpl; auto.
Qed.

Lemma binary_normalize_regular (m e : Z) (sz : bool) :
  regular (binary_normalize prec emax m e sz).
Proof.
  destruct m; simpl binary_normalize; [exact I|apply binary_round_regular..].
Qed.

Lemma bnd_finite_nonneg (E : Z) (x : double) : bnd E x -> finite_nonneg x.
Proof.
  intros [->|(m & e & -> & _)]; [left; reflexivity|right; eauto].
Qed.

(** A positive integer below [2^64] converts to a positive finite double. *)
Lemma of_int_pos (z : Z) :
  0 < z < 2 ^ 64 ->
  exists m e, of_int z = S754_finite false m e /\ Z.pos m < 2 ^ 53
              /\ -52 <= e <= 12.
Proof.
  intros [Hz Hlt]. destruct z as [|p|p]; try lia.
  unfold of_int. simpl binary_normalize. unfold binary_round.
  pose proof (shl_align_spec p 0 (fexp prec emax (Z.pos (digits2_pos p) + 0))) as Hs.
  destruct (shl_align p 0 _) as [mz ez]. simpl in Hs. destruct Hs as [Hez Hmz].
  change (Z.pos (digits2_pos p)) with (Zdigits2 (Z.pos p)) in Hez.
  rewrite fexp_eq in Hez.
  assert (Hd : 1 <= Zdigits2 (Z.pos p) <= 64).
  { split; [simpl; lia|]. apply Zdigits2_le; lia. }
  pose proof (Zdigits2_upper (Z.pos p) ltac:(lia)) as Hup.
  set (d := Zdigits2 (Z.pos p)) in *.
  assert (Hez' : -52 <= ez <= 0) by (unfold emin in *; lia).
  assert (Hdz : 1 <= Zdigits2 (Z.pos mz) <= d - ez).
  { split; [simpl; lia|]. apply Zdigits2_le; try lia.
    rewrite Hmz. replace (d - ez) with (d + (0 - ez)) by lia.
    rewrite Z.pow_add_r by lia.
    assert (0 < 2 ^ (0 - ez)) by (apply Z.pow_pos_nonneg; lia). nia. }
  pose proof (round_aux_nonzero false (Z.pos mz) ez loc_Exact ltac:(lia)) as Hnz.
  destruct (round_aux_spec false (Z.pos mz) ez loc_Exact) as [H|[(m & e' & H & Hm & He)|[_ H]]];
    [lia| | |].
  - exfalso. apply Hnz; [unfold emin; lia|exact H].
  - rewrite H. exists m, e'. rewrite fexp_eq in He.
    repeat split; unfold emin in *; lia.
  - exfalso. rewrite fexp_eq in H. unfold emin in *. lia.
Qed.

Lemma of_int_bnd (z : Z) : 0 <= z < 2 ^ 64 -> bnd 12 (of_int z).
Proof.
  intros Hz. destruct (Z.eq_dec z 0) as [->|Hne]; [left; reflexivity|].
  destruct (of_int_pos z) as (m & e & H & Hm & He); [lia|].
  right. exists m, e. repeat split; [exact H|lia|lia].
Qed.

Lemma mul_bnd (E1 E2 : Z) (x y : double) :
  bnd E1 x -> bnd E2 y -> emin <= E1 + E2 + 53 -> E1 + E2 + 53 < 971 ->
  bnd (E1 + E2 + 54) (mul x y).
Proof.
  intros [->|(mx & ex & -> & Hmx & Hex)] [->|(my & ey & -> & Hmy & Hey)] Hlo Hhi;
    try (left; reflexivity).
  unfold mul. simpl SFmul.
  assert (Hprod : Z.pos (mx * my) < 2 ^ 106).
  { rewrite Pos2Z.inj_mul. change (2 ^ 106) with (2 ^ 53 * 2 ^ 53). nia. }
  assert (Hd : Zdigits2 (Z.pos (mx * my)) <= 106) by (apply Zdigits2_le; lia).
  destruct (round_aux_spec false (Z.pos (mx * my)) (ex + ey) loc_Exact)
    as [H|[(m & e & H & Hm & He)|[_ H]]]; [lia| | |].
  - left. exact H.
  - right. exists m, e. rewrite fexp_eq in He. repeat split; [exact H|lia|lia].
  - exfalso. rewrite fexp_eq in H. lia.
Qed.

Lemma div_bnd (E1 L : Z) (x : double) (my : positive) (ey : Z) :
  bnd E1 x -> - L <= ey -> emin <= E1 + L -> E1 + L < 971 ->
  bnd (E1 + L + 1) (div x (S754_finite false my ey)).
Proof.
  intros [->|(mx & ex & -> & Hmx & Hex)] Hey Hlo Hhi; [left; reflexivity|].
  unfold div. simpl SFdiv. unfold SFdiv_core_binary.
  set (e' := Z.min _ _).
  assert (He' : e' <= ex - ey) by (subst e'; lia).
  set (s := ex - ey - e').
  set (m' := match s with 0 => Z.pos mx | Z.pos _ => Z.shiftl (Z.pos mx) s
                      | Z.neg _ => 0 end).
  assert (Hm' : 0 <= m' < 2 ^ (53 + s)).
  { subst m'. assert (0 <= s) by (subst s; lia).
    destruct s as [|p|p] eqn:Es; try lia.
    rewrite Z.shiftl_mul_pow2 by lia. rewrite Z.pow_add_r by lia.
    assert (0 < 2 ^ Z.pos p) by (apply Z.pow_pos_nonneg; lia). nia. }
  pose proof (Z.div_eucl_eq m' (Z.pos my) ltac:(lia)) as Hq.
  pose proof (Z.mod_pos_bound m' (Z.pos my) ltac:(lia)) as Hr.
  unfold Z.modulo in Hr.
  destruct (Z.div_eucl m' (Z.pos my)) as [q r].
  assert (Hq0 : 0 <= q <= m') by nia.
  assert (Hdq : Zdigits2 q <= 53 + s) by (apply Zdigits2_le; subst s; lia).
  destruct (round_aux_spec false q e' (new_location (Z.pos my) r))
    as [H|[(m & e & H & Hm & He)|[_ H]]]; [lia| | |].
  - left. exact H.
  - right. exists m, e. rewrite fexp_eq in He. subst s.
    repeat split; [exact H|lia|lia].
  - exfalso. rewrite fexp_eq in H. subst s. lia.
Qed.

(** Comparison of doubles is antisymmetric. *)
Lemma SFcompare_antisym (x y : double) (c : comparison) :
  SFcompare x y = Some c -> SFcompare y x = Some (CompOpp c).
Proof.
  destruct x as [sx|sx| |sx mx ex], y as [sy|sy| |sy my ey]; simpl;
    try discriminate;
    try (destruct sx; intros [= <-]; reflexivity);
    try (destruct sy; intros [= <-]; reflexivity);
    try (destruct sx, sy; intros [= <-]; reflexivity).
  pose proof (Pos.compare_cont_antisym mx my Eq) as Ha. simpl in Ha.
  destruct sx, sy; intros [= <-]; try reflexivity;
    rewrite (Z.compare_antisym ex ey);
    destruct (ex ?= ey); simpl; try reflexivity;
    rewrite Ha; reflexivity.
Qed.

Lemma SFcompare_finite (m1 m2 : positive) (e1 e2 : Z) :
  SFcompare (S754_finite false m1 e1) (S754_finite false m2 e2)
  = Some match e1 ?= e2 with
         | Lt => Lt
         | Gt => Gt
         | Eq => Z.pos m1 ?= Z.pos m2
         end.
Proof. reflexivity. Qed.

Lemma zero_in_unit : in_unit zero.
Proof. repeat split. Qed.

Lemma one_in_unit : in_unit one.
Proof.
  unfold in_unit, unit_value, one.
  split; [reflexivity|]. split; [reflexivity|]. split; [lia|].
  change (2 ^ (- -52)) with 4503599627370496. lia.
Qed.

(** The clamp of [push_hist] puts every regular double into the unit
    interval. *)
Lemma clamp_in_unit (x : double) : regular x -> in_unit (Cpu.clamp x).
Proof.
  intros Hr. unfold Cpu.clamp, lt, gt.
  destruct (SFltb x zero) eqn:H0; [exact zero_in_unit|].
  destruct (SFltb one x) eqn:H1; [exact one_in_unit|].
  destruct x as [s|s| |s m e]; try contradiction.
  - destruct s; repeat split.
  - destruct s; discriminate.
  - destruct s; [discriminate|]. simpl in Hr.
    unfold SFltb, one in H1. rewrite SFcompare_finite in H1.
    unfold in_unit, le, SFleb, one, unit_value.
    rewrite SFcompare_finite, (Z.compare_antisym (-52) e).
    destruct (Z.compare_spec (-52) e) as [<-|Hlt|Hgt]; cbn [CompOpp].
    + rewrite (Z.compare_antisym (Z.pos 4503599627370496) (Z.pos m)).
      destruct (Z.compare_spec (Z.pos 4503599627370496) (Z.pos m)) as [E|Hm|Hm];
        try discriminate; cbn [CompOpp];
        (split; [reflexivity|]); (split; [reflexivity|]);
        change (- (-52)) with 52; lia.
    + discriminate.
    + split; [reflexivity|]. split; [reflexivity|]. split; [lia|].
      assert (2 ^ 53 <= 2 ^ (- e)) by (apply Z.pow_le_mono_r; lia). lia.
Qed.

End DblFacts.

(* ================================================================== *)
(** ** The CPU sampler *)

Module CpuFacts.
Import Cpu.

(** The usage of a line is a regular double, never a NaN. *)
Lemma usage_of_regular (dt di : Z) :
  0 <= dt < 2 ^ 64 -> 0 <= di < 2 ^ 64 -> Dbl.regular (usage_of dt di).
Proof.
  intros Hdt Hdi. unfold usage_of.
  destruct (0 <? dt) eqn:Hpos; [|exact I].
  apply Z.ltb_lt in Hpos.
  destruct (DblFacts.of_int_pos dt) as (m2 & e2 & -> & _ & He2); [lia|].
  pose proof (DblFacts.of_int_bnd di Hdi) as Hb.
  pose proof (DblFacts.div_bnd 12 52 (Dbl.of_int di) m2 e2 Hb) as Hq.
  destruct Hq as [->|(m & e & -> & _)]; try (unfold Dbl.emin; lia).
  - simpl. lia.
  - unfold Dbl.sub, Dbl.one. simpl SFsub.
    apply DblFacts.binary_normalize_regular.
Qed.

Lemma emitted_emit_same (c : CpuSnap) (idx : Z) (v : double) :
  0 <= idx <= MAX_CORES -> length (core c) = 128%nat ->
  emitted (emit c idx v) idx = v.
Proof.
  intros Hi Hl. unfold emitted, emit, MAX_CORES in *.
  destruct (idx =? 0) eqn:E0; [reflexivity|].
  apply Z.eqb_neq in E0.
  destruct (idx - 1 <? 128) eqn:E1; [|apply Z.ltb_ge in E1; lia].
  simpl. apply list_lookup_total_insert_eq. lia.
Qed.

Lemma emitted_emit_other (c : CpuSnap) (idx j : Z) (v : double) :
  0 <= idx -> 0 <= j -> j <> idx ->
  emitted (emit c idx v) j = emitted c j.
Proof.
  intros Hi Hj Hne. unfold emitted, emit.
  destruct (idx =? 0) eqn:E0.
  - apply Z.eqb_eq in E0. subst idx.
    destruct (j =? 0) eqn:Ej; [apply Z.eqb_eq in Ej; lia|reflexivity].
  - apply Z.eqb_neq in E0.
    destruct (idx - 1 <? MAX_CORES); [|reflexivity].
    destruct (j =? 0) eqn:Ej; [reflexivity|]. apply Z.eqb_neq in Ej. simpl.
    apply list_lookup_total_insert_ne. lia.
Qed.

Lemma emit_length (c : CpuSnap) (idx : Z) (v : double) :
  length (core (emit c idx v)) = length (core c).
Proof.
  unfold emit. destruct (idx =? 0); [reflexivity|].
  destruct (idx - 1 <? MAX_CORES); [|reflexivity].
  simpl. apply length_insert.
Qed.

Lemma emit_ncores (c : CpuSnap) (idx : Z) (v : double) :
  ncores (emit c idx v) = ncores c.
Proof.
  unfold emit. destruct (idx =? 0); [reflexivity|].
  destruct (idx - 1 <? MAX_CORES); reflexivity.
Qed.

Lemma line_step_wf (s : State) (idx : Z) (l : StatLine) :
  wf s -> wf (line_step s idx l).
Proof.
  intros (Ha & Hc & Hh & Hr). unfold wf, line_step. simpl.
  repeat split; try assumption.
  - repeat (apply Forall_cons_1 in Ha; destruct Ha as [? Ha]).
    repeat constructor; rewrite length_insert; assumption.
  - rewrite emit_length. assumption.
Qed.

Lemma remembered_line_step_same (s : State) (idx : Z) (l : StatLine) :
  wf s -> 0 <= idx <= MAX_CORES ->
  remembered (line_step s idx l) (Z.to_nat idx) = counters l.
Proof.
  intros (Ha & _) Hi. unfold remembered, counters, line_step, MAX_CORES in *.
  simpl.
  repeat (apply Forall_cons_1 in Ha; destruct Ha as [? Ha]).
  rewrite !list_lookup_total_insert_eq by lia. reflexivity.
Qed.

Lemma remembered_line_step_other (s : State) (idx : Z) (l : StatLine) (j : nat) :
  j <> Z.to_nat idx ->
  remembered (line_step s idx l) j = remembered s j.
Proof.
  intros Hne. unfold remembered, line_step. simpl.
  rewrite !list_lookup_total_insert_ne by congruence. reflexivity.
Qed.

Lemma line_dt_remembered (s s' : State) (i : nat) (l : StatLine) :
  remembered s i = remembered s' i ->
  line_dt s i l = line_dt s' i l /\ line_di s i l = line_di s' i l.
Proof.
  unfold remembered, line_dt, line_di, prev_tot. intros H.
  injection H as -> -> -> -> -> -> -> ->. split; reflexivity.
Qed.

Local Ltac loop_stops :=
  split; [assumption|];
  repeat split; try reflexivity; try lia; intros; lia.

(** What the loop of [cpu_sample] leaves behind: the lines of index
    [idx .. n - 1] were read, their usage was stored and their counters
    remembered; nothing else changed. *)
Lemma sample_loop_spec (lines : list StatLine) : forall (idx : Z) (s : State),
  wf s -> 0 <= idx ->
  let s1 := fst (sample_loop lines idx s) in
  let n := snd (sample_loop lines idx s) in
  wf s1 /\ idx <= n /\ (n <= MAX_CORES + 1 \/ n = idx)
  /\ initialized s1 = initialized s /\ hist_cpu s1 = hist_cpu s
  /\ hpos s1 = hpos s /\ ncores (cpu s1) = ncores (cpu s)
  /\ (forall j, idx <= j < n ->
        exists l, lines !! Z.to_nat (j - idx) = Some l
          /\ emitted (cpu s1) j =
               (if initialized s
                then usage_of (line_dt s (Z.to_nat j) l) (line_di s (Z.to_nat j) l)
                else Dbl.zero)
          /\ remembered s1 (Z.to_nat j) = counters l)
  /\ (forall j, 0 <= j -> ~ (idx <= j < n) ->
        emitted (cpu s1) j = emitted (cpu s) j
        /\ remembered s1 (Z.to_nat j) = remembered s (Z.to_nat j)).
Proof.
  induction lines as [|l rest IH]; intros idx s Hwf Hidx; simpl.
  - destruct (idx <=? MAX_CORES); simpl; loop_stops.
  - destruct (idx <=? MAX_CORES) eqn:Hle; simpl; [|loop_stops].
    apply Z.leb_le in Hle.
    destruct (String.prefix "cpu" (id l)) eqn:Hpre; simpl; [|loop_stops].
    specialize (IH (idx + 1) (line_step s idx l) (line_step_wf s idx l Hwf)
                   ltac:(lia)).
    destruct (sample_loop rest (idx + 1) (line_step s idx l)) as [s1 n].
    simpl in IH |- *.
    destruct IH as (W & Hn & Hcap & Hinit & Hh & Hp & Hnc & Hin & Hout).
    assert (Hlen : length (core (cpu s)) = 128%nat) by apply Hwf.
    split; [assumption|].
    repeat split; try assumption; try lia.
    + rewrite Hnc. simpl. apply emit_ncores.
    + intros j Hj. destruct (Z.eq_dec j idx) as [->|Hne].
      * exists l. rewrite Z.sub_diag. split; [reflexivity|].
        destruct (Hout idx ltac:(lia) ltac:(lia)) as [He Hr].
        rewrite He, Hr. split.
        -- simpl. apply emitted_emit_same; [lia|assumption].
        -- apply remembered_line_step_same; [assumption|lia].
      * destruct (Hin j ltac:(lia)) as (l' & Hl' & He & Hr).
        exists l'. split.
        -- replace (Z.to_nat (j - idx)) with (S (Z.to_nat (j - (idx + 1))))
             by lia. exact Hl'.
        -- split; [|exact Hr]. rewrite He. simpl.
           destruct (line_dt_remembered (line_step s idx l) s (Z.to_nat j) l')
             as [-> ->]; [|reflexivity].
           apply remembered_line_step_other. lia.
    + destruct (Hout j ltac:(lia) ltac:(lia)) as [He _]. rewrite He. simpl.
      apply emitted_emit_other; lia.
    + destruct (Hout j ltac:(lia) ltac:(lia)) as [_ Hr]. rewrite Hr.
      apply remembered_line_step_other. lia.
Qed.

Lemma emit_regular (c : CpuSnap) (idx : Z) (v : double) :
  Dbl.regular v -> all_regular (core c) -> all_regular (core (emit c idx v)).
Proof.
  intros Hv Hc. unfold emit. destruct (idx =? 0); [assumption|].
  destruct (idx - 1 <? MAX_CORES); [|assumption].
  simpl. apply Forall_insert; assumption.
Qed.

Lemma sample_loop_regular (lines : list StatLine) : forall (idx : Z) (s : State),
  all_regular (core (cpu s)) ->
  all_regular (core (cpu (fst (sample_loop lines idx s)))).
Proof.
  induction lines as [|l rest IH]; intros idx s Hc; simpl.
  - destruct (idx <=? MAX_CORES); assumption.
  - destruct (idx <=? MAX_CORES); [|assumption].
    destruct (String.prefix "cpu" (id l)); [|assumption].
    apply IH. simpl. apply emit_regular; [|assumption].
    destruct (initialized s); [|exact I].
    apply usage_of_regular; apply wrap64_range.
Qed.

Lemma all_regular_lookup (l : list double) (i : nat) :
  all_regular l -> Dbl.regular (l !!! i).
Proof.
  intros Hl. destruct (l !! i) as [v|] eqn:E.
  - rewrite (list_lookup_total_correct _ _ _ E).
    exact (proj1 (Forall_lookup _ l) Hl i v E).
  - rewrite list_lookup_total_alt, E. exact I.
Qed.

Lemma push_core_ok (c : CpuSnap) (pos : Z) (h : list (list double)) (i : nat) :
  all_regular (core c) ->
  Forall (fun row : list double => length row = 120%nat) h ->
  Forall (Forall Dbl.in_unit) h ->
  Forall (fun row : list double => length row = 120%nat) (push_core c pos h i)
  /\ Forall (Forall Dbl.in_unit) (push_core c pos h i)
  /\ length (push_core c pos h i) = length h.
Proof.
  intros Hc Hl Hu. unfold push_core. repeat split.
  - apply Forall_alter; [assumption|]. intros row _ Hr.
    rewrite length_insert. exact Hr.
  - apply Forall_alter; [assumption|]. intros row _ Hr.
    apply Forall_insert; [assumption|].
    apply DblFacts.clamp_in_unit, all_regular_lookup, Hc.
  - apply length_alter.
Qed.

Lemma push_rows_ok (c : CpuSnap) (pos : Z) (h : list (list double)) :
  all_regular (core c) ->
  Forall (fun row : list double => length row = 120%nat) h ->
  Forall (Forall Dbl.in_unit) h ->
  Forall (fun row : list double => length row = 120%nat) (push_rows c pos h)
  /\ Forall (Forall Dbl.in_unit) (push_rows c pos h)
  /\ length (push_rows c pos h) = length h.
Proof.
  intros Hc. unfold push_rows.
  generalize (seq 0 (Z.to_nat (Z.min (ncores c) MAX_CORES))) as idxs.
  intros idxs. revert h.
  induction idxs as [|i idxs IH]; intros h Hl Hu; simpl; [auto|].
  destruct (push_core_ok c pos h i Hc Hl Hu) as (H1 & H2 & H3).
  destruct (IH _ H1 H2) as (H4 & H5 & H6). repeat split; congruence.
Qed.

Lemma rem_HIST_W (z : Z) : 0 <= z -> Z.rem (z + 1) HIST_W = (z + 1) mod HIST_W.
Proof. intros Hz. apply Z.rem_mod_nonneg; unfold HIST_W; lia. Qed.

Lemma init_hist_ok : hist_ok init.
Proof.
  unfold hist_ok, wf.
  change (hist_cpu init) with (replicate 128 (replicate 120 Dbl.zero)).
  change (core (cpu init)) with (replicate 128 Dbl.zero).
  change (hpos init) with 0. unfold HIST_W.
  split; [|split; [|split]].
  - split; [|split; [|split]].
    + repeat (constructor; [reflexivity|]). constructor.
    + apply length_replicate.
    + apply length_replicate.
    + apply Forall_replicate, length_replicate.
  - apply Forall_replicate, Forall_replicate. exact DblFacts.zero_in_unit.
  - lia.
  - apply Forall_replicate. exact I.
Qed.

Lemma cpu_sample_hist_ok (NCPU : Z) (file : option (list StatLine)) (s : State) :
  hist_ok s -> hist_ok (cpu_sample NCPU file s).
Proof.
  intros (Hwf & Hu & Hp & Hc). destruct file as [lines|]; simpl;
    [|exact (conj Hwf (conj Hu (conj Hp Hc)))].
  pose proof (sample_loop_spec lines 0 s Hwf ltac:(lia)) as Hs.
  pose proof (sample_loop_regular lines 0 s Hc) as Hn.
  destruct (sample_loop lines 0 s) as [s1 n]. simpl in Hs, Hn.
  destruct Hs as ((Ha & Hlc & Hlh & Hlr) & _ & _ & _ & Hh & Hpos & _).
  rewrite Hh in *. rewrite Hpos in *.
  destruct (push_rows_ok (set_ncores (cpu s1) n NCPU) (hpos s) (hist_cpu s))
    as (H1 & H2 & H3); [exact Hn|exact Hlr|exact Hu|].
  unfold hist_ok, wf, push_hist; simpl. repeat split; try assumption.
  - congruence.
  - rewrite rem_HIST_W by lia. apply Z.mod_pos_bound. unfold HIST_W. lia.
  - rewrite rem_HIST_W by lia. apply Z.mod_pos_bound. unfold HIST_W. lia.
Qed.

Lemma run_hist_ok (NCPU : Z) (files : list (option (list StatLine))) :
  forall s, hist_ok s -> hist_ok (run NCPU files s).
Proof.
  unfold run. induction files as [|f files IH]; intros s Hs; simpl; [exact Hs|].
  apply IH, cpu_sample_hist_ok, Hs.
Qed.

Lemma push_core_dims (c : CpuSnap) (pos : Z) (h : list (list double)) (i : nat) :
  dims h -> dims (push_core c pos h i).
Proof.
  intros [Hl Hr]. unfold push_core. split.
  - rewrite length_alter. exact Hl.
  - apply Forall_alter; [assumption|]. intros row _ Hrow.
    rewrite length_insert. exact Hrow.
Qed.

Lemma fold_push_dims (c : CpuSnap) (pos : Z) (idxs : list nat) :
  forall h, dims h -> dims (fold_left (push_core c pos) idxs h).
Proof.
  induction idxs as [|i idxs IH]; intros h Hh; simpl; [exact Hh|].
  apply IH, push_core_dims, Hh.
Qed.

Lemma dims_row (h : list (list double)) (a : nat) :
  dims h -> (a < 128)%nat -> length (h !!! a) = 120%nat.
Proof.
  intros [Hl Hr] Ha.
  destruct (lookup_lt_is_Some_2 h a ltac:(lia)) as [row E].
  rewrite (list_lookup_total_correct _ _ _ E).
  exact (proj1 (Forall_lookup _ h) Hr a row E).
Qed.

Lemma push_core_cell (c : CpuSnap) (pos : Z) (h : list (list double))
    (i a b : nat) :
  dims h -> (i < 128)%nat -> (a < 128)%nat -> (b < 120)%nat ->
  (push_core c pos h i !!! a) !!! b =
  if (a =? i)%nat && (b =? Z.to_nat pos)%nat
  then clamp (core c !!! i) else (h !!! a) !!! b.
Proof.
  intros Hd Hi Ha Hb. unfold push_core.
  pose proof (dims_row h i Hd Hi) as Hrow. destruct Hd as [Hl _].
  rewrite list_lookup_total_alter.
  destruct (Nat.eqb_spec a i) as [->|Hne]; simpl.
  - destruct (decide (i = i /\ (i < length h)%nat)) as [_|Hn]; [|lia].
    rewrite list_lookup_total_insert.
    destruct (Nat.eqb_spec b (Z.to_nat pos)) as [->|Hnb].
    + destruct (decide _) as [_|Hn]; [reflexivity|lia].
    + destruct (decide _) as [[Heq _]|_]; [congruence|reflexivity].
  - destruct (decide (i = a /\ (i < length h)%nat)) as [[Heq _]|_];
      [congruence|reflexivity].
Qed.

Lemma fold_push_cell (c : CpuSnap) (pos : Z) (h : list (list double)) (k : nat) :
  dims h -> (k <= 128)%nat -> forall a b, (a < 128)%nat -> (b < 120)%nat ->
  (fold_left (push_core c pos) (seq 0 k) h !!! a) !!! b =
  if (a <? k)%nat && (b =? Z.to_nat pos)%nat
  then clamp (core c !!! a) else (h !!! a) !!! b.
Proof.
  intros Hd. induction k as [|k IH]; intros Hk a b Ha Hb; [reflexivity|].
  rewrite seq_S, fold_left_app. simpl fold_left.
  rewrite push_core_cell; try lia; [|apply fold_push_dims, Hd].
  rewrite IH by lia.
  destruct (Nat.eqb_spec a k) as [->|Hne]; simpl.
  - destruct (Nat.eqb_spec b (Z.to_nat pos)); simpl.
    + rewrite (proj2 (Nat.ltb_lt k (S k))) by lia. reflexivity.
    + rewrite andb_false_r. destruct (k <? S k)%nat; reflexivity.
  - destruct (Nat.ltb_spec a k), (Nat.ltb_spec a (S k)); try lia; reflexivity.
Qed.

(** What a successful call of [cpu_sample] stores, in terms of its loop. *)
Lemma cpu_sample_fields (NCPU : Z) (lines : list StatLine) (s : State) :
  let s1 := fst (sample_loop lines 0 s) in
  let s' := cpu_sample NCPU (Some lines) s in
  (forall j, emitted (cpu s') j = emitted (cpu s1) j)
  /\ (forall i, remembered s' i = remembered s1 i)
  /\ initialized s' = true
  /\ ncores (cpu s') = ncores (set_ncores (cpu s1) (read_count lines s) NCPU)
  /\ core (cpu s') = core (cpu s1).
Proof.
  unfold cpu_sample, read_count.
  destruct (sample_loop lines 0 s) as [s1 n]. simpl.
  repeat split; reflexivity.
Qed.

Lemma replicate_zero_lookup (n i : nat) :
  replicate n Dbl.zero !!! i = Dbl.zero.
Proof.
  rewrite list_lookup_total_alt.
  destruct (replicate n Dbl.zero !! i) as [v|] eqn:E; [|reflexivity].
  apply lookup_replicate in E. simpl. apply E.
Qed.

Lemma emitted_init (j : Z) : emitted (cpu init) j = Dbl.zero.
Proof.
  unfold emitted. destruct (j =? 0); [reflexivity|].
  apply replicate_zero_lookup.
Qed.

Lemma wf_init : wf init.
Proof. apply init_hist_ok. Qed.

Lemma run_app (NCPU : Z) (f1 f2 : list (option (list StatLine))) (s : State) :
  run NCPU (f1 ++ f2) s = run NCPU f2 (run NCPU f1 s).
Proof. unfold run. apply fold_left_app. Qed.

Lemma run_failed (NCPU : Z) (k : nat) (s : State) :
  run NCPU (replicate k None) s = s.
Proof. induction k as [|k IH]; [reflexivity|exact IH]. Qed.

(** C7.  On the first sample there is no previous tick tuple
    ([initialized] is still 0): the value stored for every line that is
    read, the aggregate line (index 0) and each core line, is 0.  From the
    start of the program, whatever the number of failed [fopen]s before the
    first sample that succeeds, the aggregate and every core value are 0
    after that sample. *)
Theorem first_sample_emits_zero :
  (forall (NCPU : Z) (lines : list StatLine) (s : State) (j : Z),
      wf s -> initialized s = false -> 0 <= j < read_count lines s ->
      emitted (cpu (cpu_sample NCPU (Some lines) s)) j = Dbl.zero)
  /\ (forall (NCPU : Z) (failed : nat) (lines : list StatLine) (j : Z),
        let s := run NCPU (replicate failed None ++ [Some lines]) init in
        0 <= j -> emitted (cpu s) j = Dbl.zero).
Proof.
  assert (A : forall (NCPU : Z) (lines : list StatLine) (s : State) (j : Z),
      wf s -> initialized s = false -> 0 <= j ->
      emitted (cpu (cpu_sample NCPU (Some lines) s)) j =
      if j <? read_count lines s then Dbl.zero else emitted (cpu s) j).
  { intros NCPU lines s j Hwf Hi Hj.
    destruct (cpu_sample_fields NCPU lines s) as (He & _). rewrite He.
    pose proof (sample_loop_spec lines 0 s Hwf ltac:(lia)) as Hs.
    unfold read_count.
    destruct Hs as (_ & _ & _ & _ & _ & _ & _ & Hin & Hout).
    destruct (Z.ltb_spec j (snd (sample_loop lines 0 s))) as [Hlt|Hge].
    - destruct (Hin j ltac:(lia)) as (l & _ & E & _).
      rewrite E, Hi. reflexivity.
    - apply Hout; lia. }
  split.
  - intros NCPU lines s j Hwf Hi Hj. rewrite A by (assumption || lia).
    destruct (Z.ltb_spec j (read_count lines s)); [reflexivity|lia].
  - intros NCPU failed lines j s Hj. subst s.
    rewrite run_app, run_failed.
    change (run NCPU [Some lines] init) with (cpu_sample NCPU (Some lines) init).
    rewrite A; [|apply wf_init|reflexivity|assumption].
    destruct (j <? read_count lines init); [reflexivity|apply emitted_init].
Qed.

Lemma line_dt_counters (s : State) (i : nat) (l1 l2 : StatLine) :
  remembered s i = counters l1 ->
  line_dt s i l2 = wrap64 (line_tot l2 - line_tot l1)
  /\ line_di s i l2 = wrap64 (l_idle l2 - l_idle l1).
Proof.
  unfold remembered, counters, line_dt, line_di, prev_tot, line_tot.
  intros H. injection H as -> -> -> -> -> -> -> ->. split; reflexivity.
Qed.

(** With counters that only grow and sums that fit 64 bits, the unsigned
    differences are the differences. *)
Lemma deltas_exact (l1 l2 : StatLine) :
  monotone l1 l2 -> in_range l1 -> in_range l2 ->
  wrap64 (line_tot l2 - line_tot l1) = sum8 l2 - sum8 l1
  /\ wrap64 (l_idle l2 - l_idle l1) = l_idle l2 - l_idle l1.
Proof.
  unfold monotone, in_range, counters, line_tot. fold (sum8 l1) (sum8 l2).
  intros Hm [Hp1 Hs1] [Hp2 Hs2].
  repeat (apply Forall2_cons_1 in Hm; destruct Hm as [? Hm]).
  repeat (apply Forall_cons_1 in Hp1; destruct Hp1 as [? Hp1]).
  repeat (apply Forall_cons_1 in Hp2; destruct Hp2 as [? Hp2]).
  assert (0 <= sum8 l1 /\ sum8 l1 <= sum8 l2) as [? ?]
    by (unfold sum8 in *; lia).
  rewrite (wrap64_small (sum8 l1)), (wrap64_small (sum8 l2)) by lia.
  split; apply wrap64_small; unfold sum8 in *; lia.
Qed.

Lemma cpu_sample_wf (NCPU : Z) (file : option (list StatLine)) (s : State) :
  wf s -> wf (cpu_sample NCPU file s).
Proof.
  intros Hwf. destruct file as [lines|]; simpl; [|exact Hwf].
  pose proof (sample_loop_spec lines 0 s Hwf ltac:(lia)) as Hs.
  destruct (sample_loop lines 0 s) as [s1 n]. simpl in Hs.
  destruct Hs as ((Ha & Hlc & Hlh & Hlr) & _).
  destruct (fold_push_dims (set_ncores (cpu s1) n NCPU) (hpos s1)
              (seq 0 (Z.to_nat (Z.min (ncores (set_ncores (cpu s1) n NCPU))
                                      MAX_CORES)))
              (hist_cpu s1) (conj Hlh Hlr)) as [D1 D2].
  unfold wf, push_hist; simpl. repeat split; assumption.
Qed.

(** C1.  For a line of index [j] (0 is the aggregate line, [j > 0] the core
    [j - 1]) read by two successive samples, the second sample stores
    [1 - idleDelta / totalDelta] when [totalDelta > 0] and 0 otherwise.
    [totalDelta] is the difference of the sums of the eight counters and
    [idleDelta] the difference of the idle counters, both taken in
    [unsigned long long]; with counters that do not decrease and sums that
    fit 64 bits they are the plain differences.  For the lines
    [cpu 100 0 100 800 0 0 0 0] and [cpu 150 0 120 850 0 0 0 0] the deltas
    are 120 and 50 and the value is the double [1 - 50/120], within [2^-53]
    of 7/12. *)
Theorem usage_between_samples (NCPU : Z) (s0 : State)
    (lines1 lines2 : list StatLine) (j : Z) (l1 l2 : StatLine) :
  wf s0 ->
  let s1 := cpu_sample NCPU (Some lines1) s0 in
  let s2 := cpu_sample NCPU (Some lines2) s1 in
  0 <= j < read_count lines1 s0 -> j < read_count lines2 s1 ->
  lines1 !! Z.to_nat j = Some l1 -> lines2 !! Z.to_nat j = Some l2 ->
  let totalDelta := wrap64 (line_tot l2 - line_tot l1) in
  let idleDelta := wrap64 (l_idle l2 - l_idle l1) in
  emitted (cpu s2) j =
    (if 0 <? totalDelta
     then Dbl.sub Dbl.one (Dbl.div (Dbl.of_int idleDelta) (Dbl.of_int totalDelta))
     else Dbl.zero)
  /\ (monotone l1 l2 -> in_range l1 -> in_range l2 ->
      totalDelta = sum8 l2 - sum8 l1 /\ idleDelta = l_idle l2 - l_idle l1)
  /\ (l1 = mk_line "cpu" 100 0 100 800 0 0 0 0 ->
      l2 = mk_line "cpu" 150 0 120 850 0 0 0 0 ->
      totalDelta = 120 /\ idleDelta = 50
      /\ emitted (cpu s2) j
         = Dbl.sub Dbl.one (Dbl.div (Dbl.of_int 50) (Dbl.of_int 120))
      /\ Dbl.near_ratio 53 (emitted (cpu s2) j) 7 12).
Proof.
  intros Hwf s1 s2 Hj1 Hj2 Hl1 Hl2 totalDelta idleDelta.
  assert (Hwf1 : wf s1) by (apply cpu_sample_wf, Hwf).
  assert (Hrem : remembered s1 (Z.to_nat j) = counters l1).
  { destruct (cpu_sample_fields NCPU lines1 s0) as (_ & Hr & _).
    fold s1 in Hr. rewrite Hr.
    destruct (sample_loop_spec lines1 0 s0 Hwf ltac:(lia))
      as (_ & _ & _ & _ & _ & _ & _ & Hin & _).
    destruct (Hin j Hj1) as (l & Hl & _ & Hc).
    rewrite Z.sub_0_r in Hl. congruence. }
  assert (Hinit : initialized s1 = true)
    by apply (cpu_sample_fields NCPU lines1 s0).
  assert (Hemit : emitted (cpu s2) j =
                  usage_of totalDelta idleDelta).
  { destruct (cpu_sample_fields NCPU lines2 s1) as (He & _).
    fold s2 in He. rewrite He.
    destruct (sample_loop_spec lines2 0 s1 Hwf1 ltac:(lia))
      as (_ & _ & _ & _ & _ & _ & _ & Hin & _).
    destruct (Hin j ltac:(unfold read_count in Hj2; lia)) as (l & Hl & E & _).
    rewrite Z.sub_0_r in Hl. assert (l = l2) by congruence. subst l.
    rewrite E, Hinit.
    destruct (line_dt_counters s1 (Z.to_nat j) l1 l2 Hrem) as [-> ->].
    reflexivity. }
  split; [exact Hemit|]. split; [apply deltas_exact|].
  intros -> ->. rewrite Hemit.
  subst totalDelta idleDelta. vm_compute. repeat split; discriminate.
Qed.

Lemma cpu_sample_hpos (NCPU : Z) (lines : list StatLine) (s : State) :
  hist_ok s -> hpos (cpu_sample NCPU (Some lines) s) = (hpos s + 1) mod HIST_W.
Proof.
  intros (Hwf & _ & Hp & _). simpl.
  pose proof (sample_loop_spec lines 0 s Hwf ltac:(lia)) as Hs.
  destruct (sample_loop lines 0 s) as [s1 n]. simpl in Hs |- *.
  destruct Hs as (_ & _ & _ & _ & _ & -> & _).
  apply rem_HIST_W. lia.
Qed.

Lemma cpu_sample_cell (NCPU : Z) (lines : list StatLine) (s : State)
    (i j : nat) :
  hist_ok s -> (i < 128)%nat -> (j < 120)%nat ->
  let s' := cpu_sample NCPU (Some lines) s in
  cell s' i j =
  if (Z.of_nat i <? Z.min (ncores (cpu s')) MAX_CORES) && (Z.of_nat j =? hpos s)
  then clamp (core (cpu s') !!! i) else cell s i j.
Proof.
  intros (Hwf & _ & Hp & _) Hi Hj. unfold cell. simpl.
  pose proof (sample_loop_spec lines 0 s Hwf ltac:(lia)) as Hs.
  destruct (sample_loop lines 0 s) as [s1 n]. simpl in Hs |- *.
  destruct Hs as ((_ & _ & Hlh & Hlr) & _ & _ & _ & Hh & Hpos & _).
  rewrite Hh, Hpos in *. unfold push_rows.
  set (c := set_ncores (cpu s1) n NCPU).
  rewrite fold_push_cell; try assumption;
    [|split; assumption|unfold MAX_CORES; lia].
  replace (i <? Z.to_nat (Z.min (ncores c) MAX_CORES))%nat
    with (Z.of_nat i <? Z.min (ncores c) MAX_CORES)
    by (destruct (Z.ltb_spec (Z.of_nat i) (Z.min (ncores c) MAX_CORES)),
          (Nat.ltb_spec i (Z.to_nat (Z.min (ncores c) MAX_CORES)));
        try reflexivity; lia).
  replace (j =? Z.to_nat (hpos s))%nat with (Z.of_nat j =? hpos s)
    by (destruct (Z.eqb_spec (Z.of_nat j) (hpos s)),
          (Nat.eqb_spec j (Z.to_nat (hpos s))); try reflexivity; lia).
  reflexivity.
Qed.

Lemma run_hpos (NCPU : Z) (liness : list (list StatLine)) : forall s,
  hist_ok s ->
  hpos (run NCPU (map Some liness) s)
  = (hpos s + Z.of_nat (length liness)) mod HIST_W.
Proof.
  induction liness as [|lines liness IH]; intros s Hs.
  - simpl. rewrite Z.add_0_r. symmetry. apply Z.mod_small. apply Hs.
  - change (run NCPU (map Some (lines :: liness)) s)
      with (run NCPU (map Some liness) (cpu_sample NCPU (Some lines) s)).
    rewrite IH by (apply cpu_sample_hist_ok, Hs).
    rewrite cpu_sample_hpos by assumption.
    rewrite Zplus_mod_idemp_l. f_equal. simpl length. lia.
Qed.

(** C8.  After any sequence of calls of [cpu_sample] from the start of the
    program: every value in the history rings is in the unit interval, for
    the comparisons of the machine and by its exact value; the cursor is in
    [0, HIST_W); a call that cannot open the file changes
    nothing; a call that samples moves the cursor by one modulo [HIST_W] and
    writes, for each core below [min ncores MAX_CORES], the clamped core
    value into the cell under the old cursor and no other cell; after
    [HIST_W] samples the cursor is back where it was, so the next write
    replaces the oldest sample of the ring. *)
Theorem history_ring (NCPU : Z) (files : list (option (list StatLine))) :
  let s := run NCPU files init in
  Forall (Forall Dbl.in_unit) (hist_cpu s)
  /\ 0 <= hpos s < HIST_W
  /\ cpu_sample NCPU None s = s
  /\ (forall lines : list StatLine,
        let s' := cpu_sample NCPU (Some lines) s in
        hpos s' = (hpos s + 1) mod HIST_W
        /\ forall i j : nat, (i < 128)%nat -> (j < 120)%nat ->
             cell s' i j =
             if (Z.of_nat i <? Z.min (ncores (cpu s')) MAX_CORES)
                && (Z.of_nat j =? hpos s)
             then clamp (core (cpu s') !!! i) else cell s i j)
  /\ (forall liness : list (list StatLine),
        let s' := run NCPU (map Some liness) s in
        hpos s' = (hpos s + Z.of_nat (length liness)) mod HIST_W
        /\ (Z.of_nat (length liness) = HIST_W -> hpos s' = hpos s)).
Proof.
  intros s. pose proof (run_hist_ok NCPU files init init_hist_ok) as Hok.
  fold s in Hok. pose proof Hok as (Hwf & Hu & Hp & Hc).
  split; [exact Hu|]. split; [exact Hp|]. split; [reflexivity|]. split.
  - intros lines s'. split; [apply cpu_sample_hpos, Hok|].
    intros i j Hi Hj. apply cpu_sample_cell; assumption.
  - intros liness s'. subst s'. rewrite run_hpos by assumption.
    split; [reflexivity|]. intros ->.
    rewrite <- (Z.mul_1_l HIST_W) at 1. rewrite Z_mod_plus_full.
    apply Z.mod_small, Hp.
Qed.

End CpuFacts.

(* ================================================================== *)
(** ** The process scanner *)

Module ProcFacts.
Import Proc.

(** Every record of the table was built by [make_record] from an entry
    whose name is a PID and whose [comm] and [stat] files were read. *)
Lemma scan_loop_In (tps td : Z) (prev : list PInfo) (entries : list DirEntry) :
  forall (acc : list PInfo) (p : PInfo),
  In p (scan_loop tps td prev entries acc) ->
  In p acc \/
  exists e c sf, In e entries /\ is_pid_dir (d_name e) = true
    /\ comm_file e = Some c /\ stat_file e = Some sf
    /\ p = make_record tps td prev (atoi (d_name e)) c sf (status_file e).
Proof.
  induction entries as [|e rest IH]; intros acc p Hp; simpl in Hp;
    [left; exact Hp|].
  destruct (Z.of_nat (length acc) <? MAX_PROCS); [|left; exact Hp].
  assert (Hrest : forall acc', In p (scan_loop tps td prev rest acc') ->
            In p acc' \/ exists e' c sf, In e' (e :: rest)
              /\ is_pid_dir (d_name e') = true /\ comm_file e' = Some c
              /\ stat_file e' = Some sf
              /\ p = make_record tps td prev (atoi (d_name e')) c sf
                       (status_file e')).
  { intros acc' H. destruct (IH acc' p H) as [?|(e' & c & sf & Hin & ?)];
      [left; assumption|].
    right. exists e', c, sf. split; [right; exact Hin|assumption]. }
  destruct (is_pid_dir (d_name e)) eqn:Hpid; [|apply Hrest, Hp].
  destruct (comm_file e) as [c|] eqn:Hc; [|apply Hrest, Hp].
  destruct (stat_file e) as [sf|] eqn:Hs; [|apply Hrest, Hp].
  destruct (Hrest _ Hp) as [Hin|?]; [|right; assumption].
  apply in_app_or in Hin. destruct Hin as [?|[<-|[]]]; [left; assumption|].
  right. exists e, c, sf. repeat split; try assumption. left. reflexivity.
Qed.

Lemma make_record_pid (tps td : Z) (prev : list PInfo) (p : Z) (c : string)
    (sf : StatFields) (status : option StatusFields) :
  pid (make_record tps td prev p c sf status) = p.
Proof. unfold make_record. destruct (lookup_prev prev p); reflexivity. Qed.

Lemma lookup_prev_None (prev : list PInfo) (p : Z) :
  (forall q, In q prev -> pid q <> p) -> lookup_prev prev p = None.
Proof.
  intros H. unfold lookup_prev.
  destruct (List.find (fun q => pid q =? p) prev) as [q|] eqn:E; [|reflexivity].
  apply List.find_some in E. destruct E as [Hin Heq].
  apply Z.eqb_eq in Heq. exfalso. exact (H q Hin Heq).
Qed.

Lemma lookup_prev_Some (prev : list PInfo) (p : Z) (q : PInfo) :
  lookup_prev prev p = Some q -> In q prev /\ pid q = p.
Proof.
  unfold lookup_prev. intros E. apply List.find_some in E.
  destruct E as [Hin Heq]. apply Z.eqb_eq in Heq. split; assumption.
Qed.

(** C6.  A record of a scan whose PID is not in the snapshot of the previous
    scan has [cpu_pct] 0; a record with another [cpu_pct] has its PID in
    that snapshot; and the snapshot that a scan leaves is its own table. *)
Theorem new_pid_has_zero_cpu (tps now : Z) (dir : option (list DirEntry))
    (t : Tables) :
  (forall p, In p (procs (scan_processes tps now dir t)) ->
             (forall q, In q (prev t) -> pid q <> pid p) ->
             cpu_pct p = Dbl.zero)
  /\ (forall p, In p (procs (scan_processes tps now dir t)) ->
               cpu_pct p <> Dbl.zero ->
               exists q, In q (prev t) /\ pid q = pid p)
  /\ (forall entries, dir = Some entries ->
        prev (scan_processes tps now dir t)
        = procs (scan_processes tps now dir t)).
Proof.
  assert (A : forall p, In p (procs (scan_processes tps now dir t)) ->
            lookup_prev (prev t) (pid p) = None -> cpu_pct p = Dbl.zero).
  { intros p Hp Hnone. destruct dir as [entries|]; simpl in Hp; [|contradiction].
    apply scan_loop_In in Hp.
    destruct Hp as [[]|(e & c & sf & _ & _ & _ & _ & ->)].
    rewrite make_record_pid in Hnone. unfold make_record.
    rewrite Hnone. reflexivity. }
  split; [|split].
  - intros p Hp Hnew. apply A; [exact Hp|]. apply lookup_prev_None, Hnew.
  - intros p Hp Hnz.
    destruct (lookup_prev (prev t) (pid p)) as [q|] eqn:E.
    + exists q. apply lookup_prev_Some, E.
    + exfalso. apply Hnz, A; assumption.
  - intros entries ->. reflexivity.
Qed.

Lemma tick_delta_max (now before : Z) :
  tick_delta now before = Z.max 0 (now - before).
Proof. unfold tick_delta. destruct (Z.ltb_spec before now); lia. Qed.

Lemma thousand_bnd : Dbl.bnd (-43) Dbl.thousand.
Proof. right. eexists _, _. split; [reflexivity|]. split; lia. Qed.

Lemma hundred_bnd : Dbl.bnd (-46) Dbl.hundred.
Proof. right. eexists _, _. split; [reflexivity|]. split; lia. Qed.

(** With a positive tick rate and a positive interval the percentage is a
    finite double that is not negative. *)
Lemma cpu_percent_finite (tps td dut dst : Z) :
  0 < tps < 2 ^ 63 -> 0 < td < 2 ^ 63 ->
  Dbl.finite_nonneg (cpu_percent tps td dut dst).
Proof.
  intros Htps Htd. unfold cpu_percent, cpu_time_ms.
  destruct (Z.ltb_spec 0 td); [|lia].
  destruct (DblFacts.of_int_pos tps) as (m1 & e1 & -> & _ & He1); [lia|].
  destruct (DblFacts.of_int_pos td) as (m2 & e2 & -> & _ & He2); [lia|].
  pose proof (DblFacts.of_int_bnd _ (wrap64_range (dut + dst))) as B0.
  pose proof (DblFacts.mul_bnd 12 (-43) _ _ B0 thousand_bnd) as B1.
  specialize (B1 ltac:(unfold Dbl.emin; lia) ltac:(lia)).
  pose proof (DblFacts.div_bnd _ 52 _ m1 e1 B1 ltac:(lia)) as B2.
  specialize (B2 ltac:(unfold Dbl.emin; lia) ltac:(lia)).
  pose proof (DblFacts.mul_bnd _ (-46) _ _ B2 hundred_bnd) as B3.
  specialize (B3 ltac:(unfold Dbl.emin; lia) ltac:(lia)).
  pose proof (DblFacts.div_bnd _ 52 _ m2 e2 B3 ltac:(lia)) as B4.
  specialize (B4 ltac:(unfold Dbl.emin; lia) ltac:(lia)).
  exact (DblFacts.bnd_finite_nonneg _ _ B4).
Qed.

(** C2.  A record of a scan whose PID is in the previous snapshot, when the
    elapsed time is positive: the user and system tick deltas are floored at
    0, their sum is multiplied by 1000 and divided by the ticks per second,
    and [cpu_pct] is that value times 100 divided by the elapsed
    milliseconds.  With a positive tick rate the result is finite and not
    negative.  With ticks 1000/200 then 1050/230, 1500 ms and 100 ticks per
    second the delta is 80 and [cpu_pct] is the double [80000 / 1500],
    within [2^-47] of 800*100/1500. *)
Theorem cpu_percent_of_rescanned (tps now : Z) (entries : list DirEntry)
    (t : Tables) (p q : PInfo) :
  In p (procs (scan_processes tps now (Some entries) t)) ->
  lookup_prev (prev t) (pid p) = Some q ->
  let elapsedMs := time_diff now (prev_time_ms t) in
  0 < elapsedMs ->
  let dut := Z.max 0 (ut p - ut q) in
  let dst := Z.max 0 (st p - st q) in
  cpu_pct p =
    Dbl.div (Dbl.mul (Dbl.div (Dbl.mul (Dbl.of_int (wrap64 (dut + dst)))
                                       Dbl.thousand)
                              (Dbl.of_int tps))
                     Dbl.hundred)
            (Dbl.of_int elapsedMs)
  /\ (0 < tps < 2 ^ 63 -> elapsedMs < 2 ^ 63 -> Dbl.finite_nonneg (cpu_pct p))
  /\ (ut q = 1000 -> st q = 200 -> ut p = 1050 -> st p = 230 ->
      elapsedMs = 1500 -> tps = 100 ->
      wrap64 (dut + dst) = 80
      /\ cpu_pct p = Dbl.div (Dbl.of_int (800 * 100)) (Dbl.of_int 1500)
      /\ Dbl.near_ratio 47 (cpu_pct p) (800 * 100) 1500).
Proof.
  intros Hp Hq elapsedMs Hpos dut dst. simpl in Hp.
  apply scan_loop_In in Hp.
  destruct Hp as [[]|(e & c & sf & _ & _ & _ & _ & Ep)].
  assert (Hpct : cpu_pct p = cpu_percent tps elapsedMs
                               (tick_delta (ut p) (ut q))
                               (tick_delta (st p) (st q))).
  { subst p. rewrite make_record_pid in Hq. unfold make_record.
    rewrite Hq. reflexivity. }
  split; [|split].
  - rewrite Hpct. unfold cpu_percent, cpu_time_ms.
    destruct (Z.ltb_spec 0 elapsedMs); [|lia].
    rewrite !tick_delta_max. reflexivity.
  - intros Htps Hlt. rewrite Hpct. apply cpu_percent_finite; lia.
  - intros U S U' S' E T. rewrite Hpct. subst dut dst.
    rewrite U, S, U', S', E, T. vm_compute. repeat split; discriminate.
Qed.

End ProcFacts.

(* ================================================================== *)
(** ** The resource policy *)

Module PolicyFacts.
Import Proc Policy.

Section Pass.

(** The priority list of the pass. *)
Variable pl : list string.

(** The body of the second loop sends a signal exactly to the processes
    that are to be stopped, and marks them when the call returns 0. *)
Lemma manage_one_should_stop (p : PInfo) (w : Os.world) :
  manage_one pl p w =
  if should_stop pl p
  then (if Os.answers w (Os.calls w) =? 0 then set_suspended true p else p,
        snd (Os.kill (pid p) Os.SIGSTOP w))
  else (p, w).
Proof.
  unfold manage_one, should_stop, over_threshold.
  destruct (is_priority_proc pl (comm p)); [reflexivity|].
  destruct (is_system_critical (comm p)); [reflexivity|].
  destruct (uid p =? 0); [reflexivity|]. simpl.
  destruct (running p), (suspended_by_manager p),
    (Dbl.gt (cpu_pct p) Dbl.ten || (500000 <? rss_kb p)); try reflexivity.
  unfold Os.bind, Os.kill, Os.ret. simpl.
  destruct (Os.answers w (Os.calls w) =? 0); reflexivity.
Qed.

Lemma manage_loop_spec (l : list PInfo) : forall w,
  let r := for_each (manage_one pl) l w in
  fst r = stop_results pl (Os.answers w) (Os.calls w) l
  /\ Os.trace (snd r)
     = Os.trace w ++ stop_events pl (Os.answers w) (Os.calls w) l
  /\ Os.answers (snd r) = Os.answers w
  /\ Os.calls (snd r)
     = (Os.calls w + length (List.filter (should_stop pl) l))%nat.
Proof.
  induction l as [|p rest IH]; intros w; simpl.
  - rewrite app_nil_r. repeat split; lia.
  - unfold Os.bind, Os.ret. rewrite manage_one_should_stop.
    destruct (should_stop pl p) eqn:Hs.
    + specialize (IH (snd (Os.kill (pid p) Os.SIGSTOP w))).
      destruct (for_each (manage_one pl) rest _) as [l' w'].
      simpl in IH |- *. destruct IH as (-> & -> & -> & ->).
      rewrite <- app_assoc. simpl. repeat split; lia.
    + specialize (IH w). destruct (for_each (manage_one pl) rest w) as [l' w'].
      simpl in IH |- *. destruct IH as (-> & -> & -> & ->).
      repeat split; lia.
Qed.

Lemma stop_results_lookup (ans : nat -> Z) (l : list PInfo) :
  forall (k i : nat) (p : PInfo),
  l !! i = Some p ->
  stop_results pl ans k l !! i =
  Some (if should_stop pl p
           && (ans (k + length (List.filter (should_stop pl) (take i l)))%nat =? 0)
        then set_suspended true p else p).
Proof.
  induction l as [|a rest IH]; intros k i p Hl; [discriminate|].
  destruct i as [|i]; simpl in Hl |- *.
  - injection Hl as ->. rewrite Nat.add_0_r.
    destruct (should_stop pl p); reflexivity.
  - destruct (should_stop pl a) eqn:Ha; simpl.
    + etrans; [exact (IH (S k) i p Hl)|].
      rewrite Nat.add_succ_r. reflexivity.
    + exact (IH k i p Hl).
Qed.

Lemma stop_events_signals (ans : nat -> Z) (l : list PInfo) :
  forall k,
  Os.signals (stop_events pl ans k l)
  = map (fun p => (pid p, Os.SIGSTOP)) (List.filter (should_stop pl) l).
Proof.
  induction l as [|p rest IH]; intros k; simpl; [reflexivity|].
  destruct (should_stop pl p); simpl; [f_equal|]; apply IH.
Qed.

Lemma priority_running_iff (l : list PInfo) :
  priority_running pl l = true <->
  exists p, In p l /\ is_priority_proc pl (comm p) = true /\ running p = true.
Proof.
  unfold priority_running. rewrite existsb_exists.
  split; intros (p & Hin & H); exists p; split; try assumption.
  - apply andb_true_iff, H.
  - apply andb_true_iff, H.
Qed.

Lemma manage_resources_on (l : list PInfo) (w : Os.world) :
  priority_running pl l = true ->
  manage_resources true pl l w = for_each (manage_one pl) l w.
Proof. intros H. unfold manage_resources. rewrite H. reflexivity. Qed.

Lemma manage_resources_off (l : list PInfo) (w : Os.world) :
  priority_running pl l = false -> manage_resources true pl l w = (l, w).
Proof. intros H. unfold manage_resources. rewrite H. reflexivity. Qed.

(** C5.  A policy pass with auto-management enabled.  When some running
    process matches the priority list, the signals of the pass are one
    [SIGSTOP] for each entry that [should_stop] selects, in table order, and
    for no other entry; an entry gets the policy flag exactly when it is
    selected and its [kill] returns 0, and is otherwise left as it was.
    When no running process matches the priority list, the table and the
    world are unchanged. *)
Theorem policy_pass (l : list PInfo) (w : Os.world) :
  let r := manage_resources true pl l w in
  ((exists p, In p l /\ is_priority_proc pl (comm p) = true
              /\ running p = true) ->
   (exists events,
       Os.trace (snd r) = Os.trace w ++ events
       /\ Os.signals events
          = map (fun p => (pid p, Os.SIGSTOP)) (List.filter (should_stop pl) l))
   /\ length (fst r) = length l
   /\ (forall i p, l !! i = Some p ->
         fst r !! i =
         Some (if should_stop pl p && (answer_for pl w l i =? 0)
               then set_suspended true p else p)))
  /\ (~ (exists p, In p l /\ is_priority_proc pl (comm p) = true
                   /\ running p = true) ->
      r = (l, w)).
Proof.
  intros r. subst r. split.
  - intros Hex. apply priority_running_iff in Hex.
    rewrite (manage_resources_on l w Hex).
    destruct (manage_loop_spec l w) as (Hl & Ht & _ & _).
    split; [|split].
    + exists (stop_events pl (Os.answers w) (Os.calls w) l).
      split; [exact Ht|apply stop_events_signals].
    + rewrite Hl. clear. generalize (Os.calls w) as k.
      induction l as [|p rest IH]; intros k; simpl; [reflexivity|].
      destruct (should_stop pl p); simpl; f_equal; apply IH.
    + intros i p Hi. rewrite Hl. unfold answer_for.
      apply stop_results_lookup, Hi.
  - intros Hno. apply manage_resources_off.
    destruct (priority_running pl l) eqn:E; [|reflexivity].
    exfalso. apply Hno, priority_running_iff, E.
Qed.

(** A process of root or with a protected name is never one to be stopped. *)
Lemma protected_not_stopped (p : PInfo) :
  uid p = 0 \/ is_system_critical (comm p) = true -> should_stop pl p = false.
Proof.
  unfold should_stop. intros [H|H]; rewrite H; simpl;
    rewrite ?andb_false_r; reflexivity.
Qed.

Lemma should_stop_unprotected (p : PInfo) :
  should_stop pl p = true -> uid p <> 0 /\ is_system_critical (comm p) = false.
Proof.
  intros H. split.
  - intros Hu. rewrite protected_not_stopped in H by (left; exact Hu).
    discriminate.
  - destruct (is_system_critical (comm p)) eqn:E; [|reflexivity].
    rewrite protected_not_stopped in H by (right; exact E). discriminate.
Qed.

End Pass.

(** What a pass does to one entry, whatever the setting and the world. *)
Lemma manage_resources_lookup (enabled : bool) (pl : list string)
    (l : list PInfo) (w : Os.world) (i : nat) (p : PInfo) :
  l !! i = Some p ->
  fst (manage_resources enabled pl l w) !! i = Some p
  \/ (should_stop pl p = true
      /\ fst (manage_resources enabled pl l w) !! i
         = Some (set_suspended true p)).
Proof.
  intros Hi. unfold manage_resources.
  destruct enabled; simpl; [|left; exact Hi].
  destruct (priority_running pl l); simpl; [|left; exact Hi].
  destruct (manage_loop_spec pl l w) as (-> & _).
  rewrite (stop_results_lookup pl _ l _ i p Hi).
  destruct (should_stop pl p); simpl; [|left; reflexivity].
  destruct (_ =? 0); [right; split; reflexivity|left; reflexivity].
Qed.

Lemma manage_resources_length (enabled : bool) (pl : list string)
    (l : list PInfo) (w : Os.world) :
  length (fst (manage_resources enabled pl l w)) = length l.
Proof.
  unfold manage_resources.
  destruct enabled; simpl; [|reflexivity].
  destruct (priority_running pl l); simpl; [|reflexivity].
  destruct (manage_loop_spec pl l w) as (-> & _).
  generalize (Os.calls w) as k.
  induction l as [|p rest IH]; intros k; simpl; [reflexivity|].
  destruct (should_stop pl p); simpl; f_equal; apply IH.
Qed.

(** The signals of a pass go to entries that are to be stopped. *)
Lemma manage_resources_events (enabled : bool) (pl : list string)
    (l : list PInfo) (w : Os.world) :
  exists events,
    Os.trace (snd (manage_resources enabled pl l w)) = Os.trace w ++ events
    /\ Forall (fun sg => exists p, In p l /\ should_stop pl p = true
                                  /\ sg = (pid p, Os.SIGSTOP))
              (Os.signals events).
Proof.
  assert (Hnil : exists events : list Os.event,
             Os.trace w = Os.trace w ++ events
             /\ Forall (fun sg => exists p, In p l /\ should_stop pl p = true
                                           /\ sg = (pid p, Os.SIGSTOP))
                       (Os.signals events)).
  { exists []. rewrite app_nil_r. split; [reflexivity|constructor]. }
  unfold manage_resources.
  destruct enabled; simpl; [|exact Hnil].
  destruct (priority_running pl l); simpl; [|exact Hnil].
  destruct (manage_loop_spec pl l w) as (_ & Ht & _).
  exists (stop_events pl (Os.answers w) (Os.calls w) l).
  split; [exact Ht|]. rewrite stop_events_signals.
  apply List.Forall_forall. intros sg Hsg. apply in_map_iff in Hsg.
  destruct Hsg as (p & <- & Hp). apply filter_In in Hp.
  exists p. destruct Hp. repeat split; assumption.
Qed.

End PolicyFacts.

Module ResumeFacts.
Import Proc Policy.

Lemma set_suspended_false_id (p : PInfo) :
  suspended_by_manager p = false -> set_suspended false p = p.
Proof. destruct p; simpl; intros ->; reflexivity. Qed.

Lemma resume_one_eq (p : PInfo) (w : Os.world) :
  resume_one p w =
  (set_suspended false p,
   if suspended_by_manager p then snd (Os.kill (pid p) Os.SIGCONT w) else w).
Proof.
  unfold resume_one. destruct (suspended_by_manager p) eqn:E.
  - reflexivity.
  - rewrite set_suspended_false_id by exact E. reflexivity.
Qed.

Lemma resume_loop_spec (l : list PInfo) : forall w,
  let r := resume_suspended l w in
  fst r = map (set_suspended false) l
  /\ Os.trace (snd r) = Os.trace w ++ cont_events (Os.answers w) (Os.calls w) l
  /\ Os.answers (snd r) = Os.answers w.
Proof.
  unfold resume_suspended.
  induction l as [|p rest IH]; intros w; simpl.
  - rewrite app_nil_r. repeat split.
  - unfold Os.bind, Os.ret. rewrite resume_one_eq.
    destruct (suspended_by_manager p) eqn:Hs.
    + specialize (IH (snd (Os.kill (pid p) Os.SIGCONT w))).
      destruct (for_each resume_one rest _) as [l' w'].
      simpl in IH |- *. destruct IH as (-> & -> & ->).
      rewrite <- app_assoc. repeat split.
    + specialize (IH w). destruct (for_each resume_one rest w) as [l' w'].
      simpl in IH |- *. destruct IH as (-> & -> & ->). repeat split.
Qed.

Lemma cont_events_signals (ans : nat -> Z) (l : list PInfo) : forall k,
  Os.signals (cont_events ans k l)
  = map (fun p => (pid p, Os.SIGCONT)) (List.filter suspended_by_manager l).
Proof.
  induction l as [|p rest IH]; intros k; simpl; [reflexivity|].
  destruct (suspended_by_manager p); simpl; [f_equal|]; apply IH.
Qed.

Lemma resumed_flags (l : list PInfo) (p : PInfo) :
  In p (map (set_suspended false) l) -> suspended_by_manager p = false.
Proof.
  intros H. apply in_map_iff in H. destruct H as (q & <- & _). reflexivity.
Qed.

Lemma suspended_count_zero (l : list PInfo) :
  (forall p, In p l -> suspended_by_manager p = false) ->
  suspended_count l = 0%nat.
Proof.
  unfold suspended_count. induction l as [|p rest IH]; intros H; [reflexivity|].
  simpl. rewrite (H p) by (left; reflexivity).
  apply IH. intros q Hq. apply H. right. exact Hq.
Qed.

Lemma signals_app (a b : list Os.event) :
  Os.signals (a ++ b) = Os.signals a ++ Os.signals b.
Proof. unfold Os.signals. apply flat_map_app. Qed.

End ResumeFacts.

(* ================================================================== *)
(** ** The main loop *)

Module MainFacts.
Import Proc Policy Main Claims.

Lemma In_lookup (l : list PInfo) (p : PInfo) :
  In p l -> exists i, l !! i = Some p.
Proof.
  induction l as [|a rest IH]; intros H; [contradiction|].
  destruct H as [->|H]; [exists 0%nat; reflexivity|].
  destruct (IH H) as [i Hi]. exists (S i). exact Hi.
Qed.

Lemma In_insert (l : list PInfo) (i : nat) (x y : PInfo) :
  In y (<[i := x]> l) -> y = x \/ In y l.
Proof.
  revert i. induction l as [|a rest IH]; intros i H; [contradiction|].
  destruct i as [|i]; simpl in H.
  - destruct H as [<-|H]; [left; reflexivity|right; right; exact H].
  - destruct H as [<-|H]; [right; left; reflexivity|].
    destruct (IH i H) as [?|?]; [left; assumption|right; right; assumption].
Qed.

Lemma lookup_In (l : list PInfo) (i : nat) (p : PInfo) :
  l !! i = Some p -> In p l.
Proof.
  revert i. induction l as [|a rest IH]; intros i H; [discriminate|].
  destruct i as [|i]; simpl in H.
  - injection H as ->. left. reflexivity.
  - right. exact (IH i H).
Qed.

(** The flag of a scanned record is the flag of the snapshot's record for
    the same PID, or unset when there is none. *)
Lemma scan_flag_source (tps now : Z) (dir : option (list DirEntry))
    (t : Tables) (p : PInfo) :
  In p (procs (scan_processes tps now dir t)) ->
  suspended_by_manager p =
  match lookup_prev (prev t) (pid p) with
  | Some q => suspended_by_manager q
  | None => false
  end.
Proof.
  intros Hp. destruct dir as [entries|]; simpl in Hp; [|contradiction].
  apply ProcFacts.scan_loop_In in Hp.
  destruct Hp as [[]|(e & c & sf & _ & _ & _ & _ & ->)].
  rewrite ProcFacts.make_record_pid. unfold make_record.
  destruct (lookup_prev (prev t) (atoi (d_name e))); reflexivity.
Qed.

Lemma scan_flags_false (tps now : Z) (dir : option (list DirEntry))
    (t : Tables) :
  (forall q, In q (prev t) -> suspended_by_manager q = false) ->
  forall p, In p (procs (scan_processes tps now dir t)) ->
            suspended_by_manager p = false.
Proof.
  intros Hprev p Hp. rewrite (scan_flag_source tps now dir t p Hp).
  destruct (lookup_prev (prev t) (pid p)) as [q|] eqn:E; [|reflexivity].
  apply Hprev. apply (ProcFacts.lookup_prev_Some _ _ _ E).
Qed.

Lemma scan_prev_flags (tps now : Z) (dir : option (list DirEntry))
    (t : Tables) :
  (forall q, In q (prev t) -> suspended_by_manager q = false) ->
  forall q, In q (prev (scan_processes tps now dir t)) ->
            suspended_by_manager q = false.
Proof.
  intros Hprev q Hq. destruct dir as [entries|]; [|exact (Hprev q Hq)].
  exact (scan_flags_false tps now (Some entries) t Hprev q Hq).
Qed.

Lemma init_flags_ok (ans : nat -> Z) : flags_ok (init ans).
Proof. split; intros ? []. Qed.

Lemma plain_scan_flags_ok (tps now : Z) (dir : option (list DirEntry))
    (s : Sys) :
  flags_ok s -> flags_ok (plain_scan tps now dir s).
Proof.
  intros [Hprev _]. split; simpl.
  - apply scan_prev_flags, Hprev.
  - intros p Hp Hf.
    rewrite (scan_flags_false tps now dir (tables s) Hprev p Hp) in Hf.
    discriminate.
Qed.

Lemma manage_flags_ok (s : Sys) (l : list PInfo) (w : Os.world) :
  flags_ok s ->
  manage_resources (auto_manage_enabled s) (priority_procs s)
    (procs (tables s)) (os s) = (l, w) ->
  flags_ok (with_procs s l w).
Proof.
  intros [Hprev Hprocs] Hm. split; simpl; [exact Hprev|].
  intros p' Hin Hf. destruct (In_lookup l p' Hin) as [i Hi].
  pose proof (PolicyFacts.manage_resources_length (auto_manage_enabled s)
                (priority_procs s) (procs (tables s)) (os s)) as Hlen.
  rewrite Hm in Hlen. simpl in Hlen.
  destruct (lookup_lt_is_Some_2 (procs (tables s)) i) as [p Hp].
  { rewrite <- Hlen. apply lookup_lt_is_Some_1. eauto. }
  destruct (PolicyFacts.manage_resources_lookup (auto_manage_enabled s)
              (priority_procs s) (procs (tables s)) (os s) i p Hp)
    as [H|[Hstop H]]; rewrite Hm in H; simpl in H.
  - assert (p' = p) by congruence. subst p'.
    apply Hprocs; [exact (lookup_In _ _ _ Hp)|exact Hf].
  - assert (p' = set_suspended true p) by congruence. subst p'.
    exact (PolicyFacts.should_stop_unprotected _ _ Hstop).
Qed.

Lemma timer_scan_flags_ok (tps now : Z) (dir : option (list DirEntry))
    (s : Sys) :
  flags_ok s -> flags_ok (timer_scan tps now dir s).
Proof.
  intros Hs. unfold timer_scan.
  pose proof (plain_scan_flags_ok tps now dir s Hs) as H1.
  set (s1 := plain_scan tps now dir s) in *.
  destruct (auto_manage_enabled s1) eqn:En; [|exact H1].
  destruct (manage_resources true (priority_procs s1) (procs (tables s1))
              (os s1)) as [l w] eqn:Hm.
  apply manage_flags_ok; [exact H1|]. rewrite En. exact Hm.
Qed.

Lemma resume_flags_ok (s : Sys) (l : list PInfo) (w : Os.world) :
  flags_ok s -> resume_suspended (procs (tables s)) (os s) = (l, w) ->
  flags_ok (with_procs s l w).
Proof.
  intros [Hprev _] Hr. split; simpl; [exact Hprev|].
  intros p Hin Hf.
  destruct (ResumeFacts.resume_loop_spec (procs (tables s)) (os s)) as (Hl & _).
  rewrite Hr in Hl. simpl in Hl. subst l.
  rewrite (ResumeFacts.resumed_flags _ _ Hin) in Hf. discriminate.
Qed.

Lemma step_flags_ok (tps : Z) (s s' : Sys) :
  step tps s s' -> flags_ok s -> flags_ok s'.
Proof.
  intros Hstep Hs. destruct Hstep.
  - apply timer_scan_flags_ok, Hs.
  - apply plain_scan_flags_ok, Hs.
  - destruct Hs as [Hprev Hprocs]. split; simpl; [exact Hprev|].
    intros p Hin. apply Hprocs. eapply Permutation_in; [|exact Hin].
    apply Permutation_sym. assumption.
  - unfold key_T. destruct (auto_manage_enabled s); simpl.
    + destruct (resume_suspended (procs (tables s)) (os s)) as [l w] eqn:Hr.
      apply (resume_flags_ok
               {| tables := tables s; priority_procs := priority_procs s;
                  auto_manage_enabled := false; os := os s |} l w);
        [exact Hs|exact Hr].
    + exact Hs.
  - unfold key_R.
    destruct (resume_suspended (procs (tables s)) (os s)) as [l w] eqn:Hr.
    apply resume_flags_ok; assumption.
  - exact Hs.
  - unfold key_A.
    destruct (_ && _); [|exact Hs].
    destruct (procs (tables s) !! Z.to_nat sel); [|exact Hs].
    destruct (existsb _ _); exact Hs.
  - unfold key_K.
    destruct (_ && _); [|exact Hs].
    destruct (procs (tables s) !! Z.to_nat sel); [|exact Hs].
    destruct Hs as [Hprev Hprocs]. split; simpl; assumption.
  - unfold key_S.
    destruct (_ && _); [|exact Hs].
    destruct (procs (tables s) !! Z.to_nat sel) as [p|] eqn:Hp; [|exact Hs].
    destruct (Act.act_stopcont p (os s)) as [p' w] eqn:Ha.
    assert (Hp' : p' = set_running (negb (running p)) p).
    { unfold Act.act_stopcont, Os.bind, Os.ret, Os.kill in Ha.
      destruct (running p) eqn:Er; simpl in Ha; injection Ha as <- _;
        reflexivity. }
    destruct Hs as [Hprev Hprocs]. split; simpl; [exact Hprev|].
    intros x Hin Hf. apply In_insert in Hin. destruct Hin as [->|Hin].
    + subst p'. simpl in *. apply Hprocs; [exact (lookup_In _ _ _ Hp)|exact Hf].
    + apply Hprocs; assumption.
Qed.

Lemma reachable_flags_ok (tps : Z) (ans : nat -> Z) (s : Sys) :
  reachable tps ans s -> flags_ok s.
Proof.
  induction 1 as [|s s' _ IH Hstep]; [apply init_flags_ok|].
  exact (step_flags_ok tps s s' Hstep IH).
Qed.

(** C3.  A process owned by root or with a protected name is never marked:
    a policy pass, whatever its setting, priority list and the answers of
    [kill], leaves such an entry as it was and sends its signals only to
    entries that are neither; and in every state that the main loop can
    reach, no such entry carries the policy flag. *)
Theorem protected_never_suspended :
  (forall (enabled : bool) (pl : list string) (l : list PInfo) (w : Os.world)
          (i : nat) (p : PInfo),
      l !! i = Some p ->
      uid p = 0 \/ is_system_critical (comm p) = true ->
      should_stop pl p = false
      /\ fst (manage_resources enabled pl l w) !! i = Some p)
  /\ (forall (enabled : bool) (pl : list string) (l : list PInfo)
             (w : Os.world),
        exists events,
          Os.trace (snd (manage_resources enabled pl l w))
          = Os.trace w ++ events
          /\ Forall (fun sg => exists p, In p l /\ uid p <> 0
                        /\ is_system_critical (comm p) = false
                        /\ sg = (pid p, Os.SIGSTOP))
                    (Os.signals events))
  /\ (forall (tps : Z) (ans : nat -> Z) (s : Sys),
        reachable tps ans s ->
        forall p, In p (procs (tables s)) ->
        uid p = 0 \/ is_system_critical (comm p) = true ->
        suspended_by_manager p = false).
Proof.
  split; [|split].
  - intros enabled pl l w i p Hi Hprot.
    pose proof (PolicyFacts.protected_not_stopped pl p Hprot) as Hns.
    split; [exact Hns|].
    destruct (PolicyFacts.manage_resources_lookup enabled pl l w i p Hi)
      as [H|[Hstop _]]; [exact H|congruence].
  - intros enabled pl l w.
    destruct (PolicyFacts.manage_resources_events enabled pl l w)
      as (events & Ht & Hall).
    exists events. split; [exact Ht|].
    eapply Forall_impl; [exact Hall|].
    intros sg (p & Hin & Hstop & ->).
    destruct (PolicyFacts.should_stop_unprotected pl p Hstop).
    exists p. repeat split; assumption.
  - intros tps ans s Hreach p Hin Hprot.
    destruct (reachable_flags_ok tps ans s Hreach) as [_ Hprocs].
    destruct (suspended_by_manager p) eqn:Hf; [|reflexivity].
    destruct (Hprocs p Hin Hf) as [Hu Hc].
    destruct Hprot as [?|?]; congruence.
Qed.

(** C4.  Key [T] with auto-management enabled: in the state that the handler
    returns the setting is off, every entry that carried the policy flag
    was sent [SIGCONT] (in table order, and no other signal was sent), the
    table is the old one with every flag cleared, and the count of flagged
    entries is zero. *)
Theorem disable_resumes_all (s : Sys) :
  auto_manage_enabled s = true ->
  let s' := key_T s in
  auto_manage_enabled s' = false
  /\ procs (tables s') = map (set_suspended false) (procs (tables s))
  /\ (forall p, In p (procs (tables s')) -> suspended_by_manager p = false)
  /\ suspended_count (procs (tables s')) = 0%nat
  /\ Os.signals (Os.trace (os s'))
     = Os.signals (Os.trace (os s))
       ++ map (fun p => (pid p, Os.SIGCONT))
              (List.filter suspended_by_manager (procs (tables s))).
Proof.
  intros Hen s'. subst s'. unfold key_T. rewrite Hen. simpl.
  destruct (ResumeFacts.resume_loop_spec (procs (tables s)) (os s))
    as (Hl & Ht & _).
  destruct (resume_suspended (procs (tables s)) (os s)) as [l w].
  simpl in Hl, Ht |- *. subst l.
  assert (Hall : forall p, In p (map (set_suspended false) (procs (tables s)))
                           -> suspended_by_manager p = false)
    by (intros p; apply ResumeFacts.resumed_flags).
  repeat split; try assumption.
  - apply ResumeFacts.suspended_count_zero, Hall.
  - rewrite Ht, ResumeFacts.signals_app, ResumeFacts.cont_events_signals.
    reflexivity.
Qed.

(** C10, amended.  In a state that the main loop can reach, a resume-all
    pass clears every flag of the table and leaves the snapshot alone; the
    scan that follows gives each record the flag of the snapshot's record
    for its PID (the snapshot being replaced by the new table at the end of
    a scan); that flag is unset, so after the scan no record is flagged and
    the count of flagged records is zero. *)
Theorem rescan_keeps_flags_cleared (tps : Z) (ans : nat -> Z) (s : Sys)
    (now : Z) (dir : option (list DirEntry)) :
  reachable tps ans s ->
  let s1 := key_R s in
  let s2 := plain_scan tps now dir s1 in
  prev (tables s1) = prev (tables s)
  /\ (forall p, In p (procs (tables s1)) -> suspended_by_manager p = false)
  /\ (forall p, In p (procs (tables s2)) ->
        suspended_by_manager p =
        match lookup_prev (prev (tables s1)) (pid p) with
        | Some q => suspended_by_manager q
        | None => false
        end)
  /\ (forall entries, dir = Some entries ->
        prev (tables s2) = procs (tables s2))
  /\ (forall p, In p (procs (tables s2)) -> suspended_by_manager p = false)
  /\ suspended_count (procs (tables s2)) = 0%nat.
Proof.
  intros Hreach s1 s2.
  assert (H1 : reachable tps ans s1) by (eapply reach_step; [exact Hreach|constructor]).
  destruct (reachable_flags_ok tps ans s1 H1) as [Hprev _].
  assert (Hflags : forall p, In p (procs (tables s2)) ->
                             suspended_by_manager p = false)
    by (apply scan_flags_false, Hprev).
  split; [|split; [|split; [|split; [|split]]]].
  - subst s1. unfold key_R.
    destruct (resume_suspended (procs (tables s)) (os s)). reflexivity.
  - subst s1. unfold key_R.
    destruct (ResumeFacts.resume_loop_spec (procs (tables s)) (os s)) as (Hl & _).
    destruct (resume_suspended (procs (tables s)) (os s)) as [l w].
    simpl in Hl |- *. subst l. intros p. apply ResumeFacts.resumed_flags.
  - intros p Hp. apply (scan_flag_source tps now dir (tables s1) p Hp).
  - intros entries ->. reflexivity.
  - exact Hflags.
  - apply ResumeFacts.suspended_count_zero, Hflags.
Qed.

End MainFacts.

(* ================================================================== *)
(** ** Actions *)

Module ActFacts.
Import Proc.

(** C9, amended.  [act_kill] sends [SIGTERM]; when that call returns 0 it
    does nothing more; otherwise it sleeps 200000 microseconds and sends
    [SIGKILL]. *)
Theorem act_kill_escalates_on_failure (p : Z) (w : Os.world) :
  let r := Os.answers w (Os.calls w) in
  Os.trace (snd (Act.act_kill p w)) =
  Os.trace w ++
    (if r =? 0
     then [Os.Kill p Os.SIGTERM r]
     else [Os.Kill p Os.SIGTERM r; Os.Sleep 200000;
           Os.Kill p Os.SIGKILL (Os.answers w (S (Os.calls w)))]).
Proof.
  unfold Act.act_kill, Os.bind, Os.kill, Os.usleep, Os.ret. simpl.
  destruct (Os.answers w (Os.calls w) =? 0); simpl; [reflexivity|].
  rewrite <- !app_assoc. reflexivity.
Qed.

End ActFacts.

(* ================================================================== *)
(** ** The properties on the run of [Scenario] *)

Module Instances.
Import Scenario.

Lemma reach_s3 : Main.reachable 100 always_ok s3.
Proof.
  unfold s3, s2, s1.
  repeat (eapply Main.reach_step; [|constructor]).
  apply Main.reach_init.
Qed.

Lemma first_sample_emits_zero_witness :
  Cpu.emitted (Cpu.cpu (Cpu.cpu_sample 2 (Some stat1) Cpu.init)) 1 = Dbl.zero
  /\ Cpu.emitted
       (Cpu.cpu (Cpu.run 2 (replicate 3 None ++ [Some stat1]) Cpu.init)) 2
     = Dbl.zero.
Proof.
  split.
  - apply (proj1 CpuFacts.first_sample_emits_zero 2 stat1 Cpu.init 1).
    + exact CpuFacts.wf_init.
    + reflexivity.
    + vm_compute. split; [discriminate|reflexivity].
  - apply (proj2 CpuFacts.first_sample_emits_zero 2 3%nat stat1 2). lia.
Defined.

Lemma usage_between_samples_witness :
  let s2 := Cpu.cpu_sample 2 (Some stat2) (Cpu.cpu_sample 2 (Some stat1) Cpu.init) in
  Cpu.emitted (Cpu.cpu s2) 0
  = Dbl.sub Dbl.one (Dbl.div (Dbl.of_int 50) (Dbl.of_int 120))
  /\ Dbl.near_ratio 53 (Cpu.emitted (Cpu.cpu s2) 0) 7 12.
Proof.
  destruct (CpuFacts.usage_between_samples 2 Cpu.init stat1 stat2 0
              (Cpu.mk_line "cpu" 100 0 100 800 0 0 0 0)
              (Cpu.mk_line "cpu" 150 0 120 850 0 0 0 0))
    as (_ & _ & H).
  - exact CpuFacts.wf_init.
  - vm_compute. split; [discriminate|reflexivity].
  - vm_compute. reflexivity.
  - reflexivity.
  - reflexivity.
  - destruct (H eq_refl eq_refl) as (_ & _ & He & Hn). split; assumption.
Defined.

Lemma history_ring_witness :
  let s := Cpu.run 2 [Some stat1] Cpu.init in
  let s' := Cpu.cpu_sample 2 (Some stat2) s in
  Cpu.hpos s' = (Cpu.hpos s + 1) mod HIST_W
  /\ Cpu.cell s' 0 1 = Cpu.clamp (Cpu.core (Cpu.cpu s') !!! 0%nat)
  /\ Cpu.cell s' 0 0 = Cpu.cell s 0 0.
Proof.
  destruct (CpuFacts.history_ring 2 [Some stat1]) as (_ & _ & _ & H & _).
  destruct (H stat2) as [Hp Hc]. split; [exact Hp|]. split.
  - rewrite (Hc 0%nat 1%nat) by lia. reflexivity.
  - rewrite (Hc 0%nat 0%nat) by lia. reflexivity.
Defined.

Lemma new_pid_has_zero_cpu_witness :
  In chrome1 (Proc.procs (Proc.scan_processes 100 5000 (Some dir1) Proc.init))
  /\ Proc.cpu_pct chrome1 = Dbl.zero.
Proof.
  assert (Hin : In chrome1 (Proc.procs (Proc.scan_processes 100 5000
                                          (Some dir1) Proc.init)))
    by (vm_compute; right; right; left; reflexivity).
  split; [exact Hin|].
  apply (proj1 (ProcFacts.new_pid_has_zero_cpu 100 5000 (Some dir1) Proc.init)
           chrome1 Hin).
  intros q [].
Defined.

Lemma cpu_percent_of_rescanned_witness :
  Proc.cpu_pct chrome2 = Dbl.div (Dbl.of_int (800 * 100)) (Dbl.of_int 1500)
  /\ Dbl.near_ratio 47 (Proc.cpu_pct chrome2) (800 * 100) 1500
  /\ Dbl.finite_nonneg (Proc.cpu_pct chrome2).
Proof.
  destruct (ProcFacts.cpu_percent_of_rescanned 100 6500 dir2 (Main.tables s1)
              chrome2 chrome1) as (_ & Hfin & Hex).
  - vm_compute. right; right; left; reflexivity.
  - vm_compute. reflexivity.
  - vm_compute. reflexivity.
  - destruct Hex as (_ & He & Hn); try reflexivity.
    split; [exact He|]. split; [exact Hn|].
    apply Hfin; [lia|vm_compute; reflexivity].
Defined.

Lemma policy_pass_witness :
  let r := Policy.manage_resources true ["ffmpeg"%string] table2
             (Os.start always_ok) in
  (exists events,
      Os.trace (snd r) = events
      /\ Os.signals events = [(4242, Os.SIGSTOP)])
  /\ fst r !! 2%nat = Some (Proc.set_suspended true chrome2)
  /\ fst r !! 0%nat = Some systemd2.
Proof.
  destruct (PolicyFacts.policy_pass ["ffmpeg"%string] table2
              (Os.start always_ok)) as [H _].
  destruct H as ((events & Ht & Hs) & _ & Hl).
  - exists ffmpeg2. vm_compute.
    split; [right; left; reflexivity|split; reflexivity].
  - split; [|split].
    + exists events. split; [exact Ht|]. rewrite Hs. reflexivity.
    + rewrite (Hl 2%nat chrome2) by reflexivity. reflexivity.
    + rewrite (Hl 0%nat systemd2) by reflexivity. reflexivity.
Defined.

Lemma protected_never_suspended_witness :
  Proc.uid systemd2 = 0
  /\ Dbl.gt (Proc.cpu_pct systemd2) Dbl.ten = true
  /\ Policy.should_stop ["ffmpeg"%string] systemd2 = false
  /\ fst (Policy.manage_resources true ["ffmpeg"%string] table2
            (Os.start always_ok)) !! 0%nat = Some systemd2
  /\ (forall p, In p (Proc.procs (Main.tables s3)) -> Proc.uid p = 0 ->
                Proc.suspended_by_manager p = false).
Proof.
  split; [reflexivity|]. split; [reflexivity|].
  destruct MainFacts.protected_never_suspended as (Hpass & _ & Hreach).
  destruct (Hpass true ["ffmpeg"%string] table2 (Os.start always_ok) 0%nat
              systemd2) as [H1 H2];
    [reflexivity|left; reflexivity|].
  split; [exact H1|]. split; [exact H2|].
  intros p Hin Hu. apply (Hreach 100 always_ok s3 reach_s3 p Hin).
  left. exact Hu.
Defined.

Lemma disable_resumes_all_witness :
  Main.auto_manage_enabled s3 = true
  /\ Proc.suspended_count (Proc.procs (Main.tables s3)) = 1%nat
  /\ Main.auto_manage_enabled s3_off = false
  /\ Proc.suspended_count (Proc.procs (Main.tables s3_off)) = 0%nat
  /\ Os.signals (Os.trace (Main.os s3_off))
     = [(4242, Os.SIGSTOP); (4242, Os.SIGCONT)].
Proof.
  split; [reflexivity|]. split; [reflexivity|].
  destruct (MainFacts.disable_resumes_all s3 eq_refl) as (H1 & _ & _ & H2 & H3).
  split; [exact H1|]. split; [exact H2|].
  fold s3_off in H3. rewrite H3. reflexivity.
Defined.

Lemma rescan_keeps_flags_cleared_witness :
  Proc.suspended_count (Proc.procs (Main.tables s3)) = 1%nat
  /\ Proc.suspended_count
       (Proc.procs (Main.tables (Main.plain_scan 100 8000 (Some dir3) s4)))
     = 0%nat.
Proof.
  split; [reflexivity|].
  apply (MainFacts.rescan_keeps_flags_cleared 100 always_ok s3 8000
           (Some dir3) reach_s3).
Defined.

(** The browser is flagged in [s3] and present in the scan that follows the
    resume-all pass, yet that scan leaves it unflagged and the count at
    zero; the policy pass of the same cycle does not change this. *)
Lemma rescan_restores_flags_counterexample :
  Main.reachable 100 always_ok s3
  /\ Os.signals (Os.trace (Main.os s4))
     = [(4242, Os.SIGSTOP); (4242, Os.SIGCONT)]
  /\ map (fun p => (Proc.pid p, Proc.suspended_by_manager p))
         (Proc.procs (Main.tables s3))
     = [(1, false); (777, false); (4242, true)]
  /\ map (fun p => (Proc.pid p, Proc.suspended_by_manager p))
         (Proc.procs (Main.tables (Main.plain_scan 100 8000 (Some dir3) s4)))
     = [(1, false); (777, false); (4242, false)]
  /\ Proc.suspended_count (Proc.procs (Main.tables s5)) = 0%nat
  /\ ~ Claims.rescan_restores_flags 100 8000 (Some dir3) s3.
Proof.
  split; [exact reach_s3|]. repeat (split; [reflexivity|]).
  intros H.
  destruct (H chrome3
              ltac:(vm_compute; right; right; left; reflexivity) eq_refl
              chrome4
              ltac:(vm_compute; right; right; left; reflexivity) eq_refl)
    as [Hf _].
  vm_compute in Hf. discriminate.
Qed.

(** Whether the graceful signal is sent or not, the program does the
    opposite of the wording: one signal when it is sent, the delay and the
    forceful signal when it is not. *)
Lemma terminate_as_specified_counterexample :
  Os.trace (snd (Act.act_kill 4242 (Os.start always_ok)))
  = [Os.Kill 4242 Os.SIGTERM 0]
  /\ Os.trace (snd (Act.act_kill 4242 (Os.start always_fails)))
     = [Os.Kill 4242 Os.SIGTERM (-1); Os.Sleep 200000;
        Os.Kill 4242 Os.SIGKILL (-1)]
  /\ ~ Claims.terminate_as_specified 4242 (Os.start always_ok)
  /\ ~ Claims.terminate_as_specified 4242 (Os.start always_fails).
Proof.
  split; [reflexivity|]. split; [reflexivity|].
  split; intros (delay & r2 & H); vm_compute in H; discriminate.
Qed.

End Instances.

(* ================================================================== *)
(** ** CPU sampling, further *)

Module CpuCountFacts.
Import Cpu CpuCount.




Lemma successes_nonneg (files : list (option (list StatLine))) :
  0 <= successes files.
Proof. induction files as [|[l|] rest IH]; simpl; lia. Qed.

(** A column that the cursor does not reach keeps its cells. *)
Lemma run_keeps_column (NCPU : Z) (i h : nat)
    (files : list (option (list StatLine))) : forall (t : State) (d : Z),
  hist_ok t -> (i < 128)%nat -> (h < 120)%nat ->
  hpos t = (Z.of_nat h + d) mod HIST_W -> 1 <= d ->
  d + successes files <= HIST_W ->
  cell (run NCPU files t) i h = cell t i h.
Proof.
  induction files as [|[lines|] rest IH]; intros t d Hok Hi Hh Hpos Hd Hlim.
  - reflexivity.
  - change (run NCPU (Some lines :: rest) t)
      with (run NCPU rest (cpu_sample NCPU (Some lines) t)).
    pose proof (successes_nonneg rest) as Hs. simpl successes in Hlim.
    rewrite (IH (cpu_sample NCPU (Some lines) t) (d + 1));
      try assumption; try lia.
    + rewrite CpuFacts.cpu_sample_cell by assumption.
      destruct (Z.eqb_spec (Z.of_nat h) (hpos t)) as [E|_];
        [|rewrite andb_false_r; reflexivity].
      exfalso. rewrite Hpos in E. unfold HIST_W in *.
      assert (Z.of_nat h = (Z.of_nat h + d) mod 120 -> False); [|tauto].
      intros E'.
      destruct (Z_lt_le_dec (Z.of_nat h + d) 120).
      * rewrite Z.mod_small in E' by lia. lia.
      * replace (Z.of_nat h + d) with ((Z.of_nat h + d - 120) + 1 * 120) in E'
          by lia.
        rewrite Z_mod_plus_full, Z.mod_small in E' by lia. lia.
    + apply CpuFacts.cpu_sample_hist_ok, Hok.
    + rewrite CpuFacts.cpu_sample_hpos by assumption. rewrite Hpos.
      rewrite Zplus_mod_idemp_l. f_equal. lia.
  - change (run NCPU (None :: rest) t) with (run NCPU rest t).
    apply (IH t d); assumption.
Qed.

(** X2.  The value that a sample stores in the history ring stays in its
    cell as long as fewer than 120 later samples open the file; the calls
    whose [fopen] fails do not count. *)
Theorem sample_retained (NCPU : Z) (s : State) (lines : list StatLine)
    (files : list (option (list StatLine))) (i : nat) :
  hist_ok s ->
  let s0 := cpu_sample NCPU (Some lines) s in
  Z.of_nat i < Z.min (ncores (cpu s0)) MAX_CORES ->
  successes files < HIST_W ->
  cell (run NCPU files s0) i (Z.to_nat (hpos s)) = clamp (core (cpu s0) !!! i).
Proof.
  intros Hok s0 Hi Hlim.
  assert (Hp : 0 <= hpos s < HIST_W) by apply Hok.
  assert (Hi' : (i < 128)%nat) by (unfold MAX_CORES in Hi; lia).
  assert (Hh : (Z.to_nat (hpos s) < 120)%nat) by (unfold HIST_W in Hp; lia).
  rewrite (run_keeps_column NCPU i (Z.to_nat (hpos s)) files s0 1);
    try assumption; try lia.
  - subst s0. rewrite CpuFacts.cpu_sample_cell by assumption.
    rewrite (proj2 (Z.ltb_lt _ _) Hi).
    rewrite Z2Nat.id by lia. rewrite Z.eqb_refl. reflexivity.
  - apply CpuFacts.cpu_sample_hist_ok, Hok.
  - subst s0. rewrite CpuFacts.cpu_sample_hpos by assumption.
    rewrite Z2Nat.id by lia. reflexivity.
Qed.

End CpuCountFacts.

(* ================================================================== *)
(** ** The process table, further *)

Module TableFacts.
Import Proc Table.

Lemma scan_loop_take (tps td : Z) (prev : list PInfo)
    (entries : list DirEntry) : forall acc : list PInfo,
  (length acc <= 2048)%nat ->
  scan_loop tps td prev entries acc
  = take 2048 (acc ++ omap (entry_record tps td prev) entries).
Proof.
  induction entries as [|e rest IH]; intros acc Hacc; simpl.
  - rewrite app_nil_r, take_ge by lia. reflexivity.
  - unfold MAX_PROCS. destruct (Z.ltb_spec (Z.of_nat (length acc)) 2048) as [Hlt|Hge].
    + unfold entry_record at 1.
      destruct (is_pid_dir (d_name e)); [|apply IH, Hacc].
      destruct (comm_file e) as [c|]; [|apply IH, Hacc].
      destruct (stat_file e) as [sf|]; [|apply IH, Hacc].
      rewrite IH by (rewrite length_app; simpl; lia).
      rewrite <- app_assoc. reflexivity.
    + rewrite take_app_le by lia. rewrite take_ge by lia. reflexivity.
Qed.

(** X3.  After a scan that opens [/proc] the table holds, in the order of
    the directory, the records of the entries whose name is all digits and
    whose [comm] and [stat] files were read, cut after 2048 records.  When
    [opendir] fails the table is empty and the snapshot is kept. *)
Theorem scan_table (tps now : Z) (entries : list DirEntry) (t : Tables) :
  let td := time_diff now (prev_time_ms t) in
  procs (scan_processes tps now (Some entries) t)
  = take 2048 (omap (entry_record tps td (prev t)) entries)
  /\ Z.of_nat (length (procs (scan_processes tps now (Some entries) t)))
     <= MAX_PROCS
  /\ procs (scan_processes tps now None t) = []
  /\ prev (scan_processes tps now None t) = prev t.
Proof.
  intros td. simpl. rewrite scan_loop_take by (simpl; lia). simpl.
  repeat split. rewrite length_take. unfold MAX_PROCS. lia.
Qed.

Lemma cpu_percent_idle (tps td : Z) :
  0 < tps < 2 ^ 64 -> td < 2 ^ 64 -> cpu_percent tps td 0 0 = Dbl.zero.
Proof.
  intros Htps Htd. unfold cpu_percent, cpu_time_ms.
  destruct (Z.ltb_spec 0 td); [|reflexivity].
  destruct (DblFacts.of_int_pos tps) as (m1 & e1 & -> & _); [lia|].
  destruct (DblFacts.of_int_pos td) as (m2 & e2 & -> & _); [lia|].
  reflexivity.
Qed.

(** X4.  A rescanned process whose user and system tick counters are not
    above those of the snapshot gets [cpu_pct] [+0.0], whatever the elapsed
    time: a counter that went back counts as no progress. *)
Theorem no_progress_is_zero (tps now : Z) (entries : list DirEntry)
    (t : Tables) (p q : PInfo) :
  In p (procs (scan_processes tps now (Some entries) t)) ->
  lookup_prev (prev t) (pid p) = Some q ->
  ut p <= ut q -> st p <= st q ->
  0 < tps < 2 ^ 63 -> time_diff now (prev_time_ms t) < 2 ^ 63 ->
  cpu_pct p = Dbl.zero.
Proof.
  intros Hp Hq Hut Hst Htps Htd. simpl in Hp.
  apply ProcFacts.scan_loop_In in Hp.
  destruct Hp as [[]|(e & c & sf & _ & _ & _ & _ & Ep)].
  assert (Hpct : cpu_pct p = cpu_percent tps (time_diff now (prev_time_ms t))
                               (tick_delta (ut p) (ut q))
                               (tick_delta (st p) (st q))).
  { subst p. rewrite ProcFacts.make_record_pid in Hq. unfold make_record.
    rewrite Hq. reflexivity. }
  rewrite Hpct. unfold tick_delta.
  destruct (Z.ltb_spec (ut q) (ut p)); [lia|].
  destruct (Z.ltb_spec (st q) (st p)); [lia|].
  apply cpu_percent_idle; lia.
Qed.

End TableFacts.

Module PriorityFacts.
Import Proc Policy Main.

Lemma timer_scan_priority (tps now : Z) (dir : option (list DirEntry)) (s : Sys) :
  priority_procs (timer_scan tps now dir s) = priority_procs s.
Proof.
  unfold timer_scan. destruct (auto_manage_enabled (plain_scan tps now dir s));
    [|reflexivity].
  destruct (manage_resources _ _ _ _). reflexivity.
Qed.

Lemma key_T_priority (s : Sys) : priority_procs (key_T s) = priority_procs s.
Proof.
  unfold key_T. destruct (negb (negb (auto_manage_enabled s))); [|reflexivity].
  simpl. destruct (resume_suspended _ _). reflexivity.
Qed.

Lemma key_R_priority (s : Sys) : priority_procs (key_R s) = priority_procs s.
Proof. unfold key_R. destruct (resume_suspended _ _). reflexivity. Qed.

Lemma key_K_priority (sel : Z) (s : Sys) :
  priority_procs (key_K sel s) = priority_procs s.
Proof.
  unfold key_K. destruct (_ && _); [|reflexivity].
  destruct (_ !! _); reflexivity.
Qed.

Lemma key_S_priority (sel : Z) (s : Sys) :
  priority_procs (key_S sel s) = priority_procs s.
Proof.
  unfold key_S. destruct (_ && _); [|reflexivity].
  destruct (_ !! _); [|reflexivity]. destruct (Act.act_stopcont _ _).
  reflexivity.
Qed.

Lemma removelast_In (l : list string) (x : string) :
  In x (removelast l) -> In x l.
Proof.
  induction l as [|a [|b l'] IH]; simpl; intros H; [exact H|contradiction|].
  destruct H as [H|H]; [left; exact H|right; apply IH, H].
Qed.

Lemma removelast_NoDup (l : list string) :
  List.NoDup l -> List.NoDup (removelast l).
Proof.
  induction l as [|a [|b l'] IH]; intros H; simpl; try constructor.
  - inversion H as [|? ? Ha Hr]; subst. intros Hin. apply Ha.
    apply (removelast_In (b :: l')), Hin.
  - inversion H; subst. apply IH. assumption.
Qed.

Lemma removelast_length (l : list string) :
  (length (removelast l) <= length l)%nat.
Proof.
  induction l as [|a [|b l'] IH]; simpl in *; lia.
Qed.

Lemma existsb_eqb_false (c : string) (l : list string) :
  existsb (String.eqb c) l = false -> ~ In c l.
Proof.
  intros H Hin. assert (existsb (String.eqb c) l = true); [|congruence].
  apply existsb_exists. exists c. split; [exact Hin|apply String.eqb_refl].
Qed.

Lemma NoDup_snoc (l : list string) (c : string) :
  List.NoDup l -> ~ In c l -> List.NoDup (l ++ [c]).
Proof.
  induction l as [|a l IH]; intros Hl Hc; simpl.
  - constructor; [intros []|constructor].
  - inversion Hl as [|? ? Ha Hr]; subst. constructor.
    + intros Hin. apply in_app_or in Hin. destruct Hin as [Hin|[->|[]]].
      * exact (Ha Hin).
      * apply Hc. left. reflexivity.
    + apply IH; [exact Hr|]. intros Hin. apply Hc. right. exact Hin.
Qed.

(** X5.  In every state that the main loop reaches the priority list
    holds at most 10 names, and no name twice. *)
Theorem priority_list_invariant (tps : Z) (ans : nat -> Z) (s : Sys) :
  reachable tps ans s ->
  Z.of_nat (length (priority_procs s)) <= MAX_PRIORITY_PROCS
  /\ List.NoDup (priority_procs s).
Proof.
  induction 1 as [|s s' _ IH Hstep].
  - simpl. split; [unfold MAX_PRIORITY_PROCS; lia|constructor].
  - destruct IH as [Hlen Hnd].
    destruct Hstep as [now dir s|now dir s|s l _|s|s|s|sel s|sel s|sel s].
    + rewrite timer_scan_priority. split; assumption.
    + split; assumption.
    + split; assumption.
    + rewrite key_T_priority. split; assumption.
    + rewrite key_R_priority. split; assumption.
    + simpl. split; [|apply removelast_NoDup, Hnd].
      pose proof (removelast_length (priority_procs s)). lia.
    + unfold key_A.
      destruct (Z.ltb_spec (Z.of_nat (length (priority_procs s)))
                  MAX_PRIORITY_PROCS) as [Hroom|Hfull];
        [|rewrite andb_false_r; split; assumption].
      destruct (_ && _); [|split; assumption].
      simpl. destruct (_ !! _) as [p|]; [|split; assumption].
      destruct (existsb _ _) eqn:Hex; [split; assumption|]. simpl. split.
      * rewrite length_app. simpl. lia.
      * apply NoDup_snoc; [exact Hnd|]. apply existsb_eqb_false, Hex.
    + rewrite key_K_priority. split; assumption.
    + rewrite key_S_priority. split; assumption.
Qed.

End PriorityFacts.

(* ================================================================== *)
(** ** Refresh, matching and toggling *)

Module RefreshFacts.
Import Proc Policy Main Claims.

Lemma stop_results_length (pl : list string) (ans : nat -> Z)
    (l : list PInfo) : forall k,
  length (stop_results pl ans k l) = length l.
Proof.
  induction l as [|p rest IH]; intros k; simpl; [reflexivity|].
  destruct (should_stop pl p); simpl; rewrite IH; reflexivity.
Qed.

(** On a table without flags a pass flags only entries that it has just
    signalled. *)
Lemma pass_flags_signalled (enabled : bool) (pl : list string)
    (l : list PInfo) (w : Os.world) :
  (forall p, In p l -> suspended_by_manager p = false) ->
  exists events,
    Os.trace (snd (manage_resources enabled pl l w)) = Os.trace w ++ events
    /\ forall p', In p' (fst (manage_resources enabled pl l w)) ->
         suspended_by_manager p' = true ->
         In (pid p', Os.SIGSTOP) (Os.signals events).
Proof.
  intros Hclean. unfold manage_resources.
  assert (Hsame : exists events, Os.trace w = Os.trace w ++ events
            /\ forall p', In p' l -> suspended_by_manager p' = true ->
                 In (pid p', Os.SIGSTOP) (Os.signals events)).
  { exists []. split; [rewrite app_nil_r; reflexivity|].
    intros p' Hin Hf. rewrite (Hclean p' Hin) in Hf. discriminate. }
  destruct enabled; simpl; [|exact Hsame].
  destruct (priority_running pl l); simpl; [|exact Hsame].
  destruct (PolicyFacts.manage_loop_spec pl l w) as (Hres & Htr & _).
  exists (stop_events pl (Os.answers w) (Os.calls w) l).
  split; [exact Htr|]. intros p' Hin Hf. rewrite Hres in Hin.
  destruct (MainFacts.In_lookup _ _ Hin) as [i Hi].
  assert (Hlt : (i < length l)%nat).
  { apply lookup_lt_Some in Hi. rewrite stop_results_length in Hi. exact Hi. }
  destruct (lookup_lt_is_Some_2 l i Hlt) as [p Hp].
  rewrite (PolicyFacts.stop_results_lookup pl _ l _ i p Hp) in Hi.
  injection Hi as Hi.
  pose proof (Hclean p (MainFacts.lookup_In _ _ _ Hp)) as Hpf.
  rewrite PolicyFacts.stop_events_signals.
  destruct (should_stop pl p) eqn:Hs.
  - assert (pid p' = pid p) as ->.
    { subst p'. destruct (_ && _); reflexivity. }
    apply (in_map (fun p => (pid p, Os.SIGSTOP))).
    apply filter_In. split; [exact (MainFacts.lookup_In _ _ _ Hp)|exact Hs].
  - simpl in Hi. subst p'. congruence.
Qed.

(** X6.  After a periodic refresh, resume-all sends [SIGCONT] to the
    flagged records of the table and to no other, and each of them was sent
    [SIGSTOP] by the policy pass of that same refresh: a process stopped by
    an earlier pass gets no [SIGCONT].  After a scan without a pass
    resume-all sends nothing. *)
Theorem resume_answers_last_pass (tps : Z) (ans : nat -> Z) (s : Sys)
    (now : Z) (dir : option (list DirEntry)) :
  reachable tps ans s ->
  let s1 := timer_scan tps now dir s in
  let s2 := key_R s1 in
  let conts := map (fun p => (pid p, Os.SIGCONT))
                   (List.filter suspended_by_manager (procs (tables s1))) in
  (exists events,
     Os.trace (os s1) = Os.trace (os s) ++ events
     /\ Os.signals (Os.trace (os s2)) = Os.signals (Os.trace (os s1)) ++ conts
     /\ forall p, In (p, Os.SIGCONT) conts ->
                  In (p, Os.SIGSTOP) (Os.signals events))
  /\ Os.trace (os (key_R (plain_scan tps now dir s))) = Os.trace (os s).
Proof.
  intros Hreach s1 s2 conts.
  pose proof (MainFacts.reachable_flags_ok _ _ _ Hreach) as [Hprev _].
  pose proof (MainFacts.scan_flags_false tps now dir (tables s) Hprev)
    as Hfresh.
  split.
  - assert (Hpass : exists events,
        Os.trace (os s1) = Os.trace (os s) ++ events
        /\ forall p', In p' (procs (tables s1)) ->
             suspended_by_manager p' = true ->
             In (pid p', Os.SIGSTOP) (Os.signals events)).
    { subst s1. unfold timer_scan.
      destruct (auto_manage_enabled (plain_scan tps now dir s)) eqn:Hen.
      - destruct (pass_flags_signalled true
                    (priority_procs (plain_scan tps now dir s))
                    (procs (tables (plain_scan tps now dir s)))
                    (os (plain_scan tps now dir s)) Hfresh)
          as (events & Htr & Hfl).
        destruct (manage_resources _ _ _ _) as [l w]. simpl in *.
        exists events. split; assumption.
      - exists []. split; [rewrite app_nil_r; reflexivity|].
        intros p' Hin Hf. rewrite (Hfresh p' Hin) in Hf. discriminate. }
    destruct Hpass as (events & Htr & Hfl). exists events.
    split; [exact Htr|]. split.
    + subst s2. unfold key_R.
      destruct (ResumeFacts.resume_loop_spec (procs (tables s1)) (os s1))
        as (_ & Ht & _).
      destruct (resume_suspended _ _) as [l w]. simpl in *.
      rewrite Ht, ResumeFacts.signals_app, ResumeFacts.cont_events_signals.
      reflexivity.
    + intros p Hin. subst conts. apply in_map_iff in Hin.
      destruct Hin as (p' & E & Hin). injection E as <-.
      apply filter_In in Hin. destruct Hin as [Hin Hf].
      apply Hfl; assumption.
  - unfold key_R.
    destruct (ResumeFacts.resume_loop_spec
                (procs (tables (plain_scan tps now dir s)))
                (os (plain_scan tps now dir s))) as (_ & Ht & _).
    destruct (resume_suspended _ _) as [l w]. simpl in *. rewrite Ht.
    assert (Hnone : forall k, cont_events (Os.answers (os s)) k
              (procs (scan_processes tps now dir (tables s))) = []).
    { generalize Hfresh.
      generalize (procs (scan_processes tps now dir (tables s))).
      intros tbl. induction tbl as [|p rest IH]; intros Hall k; simpl;
        [reflexivity|].
      rewrite (Hall p (or_introl eq_refl)). apply IH.
      intros q Hq. apply Hall. right. exact Hq. }
    rewrite Hnone, app_nil_r. reflexivity.
Qed.

End RefreshFacts.

Module MatchFacts.
Import Proc Policy.

Lemma prefix_iff (n h : string) :
  String.prefix n h = true <-> exists b, h = String.append n b.
Proof.
  revert h. induction n as [|c n IH]; intros h.
  - split; [intros _; exists h; reflexivity|intros _; destruct h; reflexivity].
  - destruct h as [|d h]; simpl.
    + split; [discriminate|intros [b Hb]; discriminate].
    + destruct (Ascii.ascii_dec c d) as [->|Hne].
      * rewrite IH. split; intros [b Hb]; exists b.
        -- rewrite Hb. reflexivity.
        -- injection Hb as Hb. exact Hb.
      * split; [discriminate|]. intros [b Hb]. injection Hb as Hc _.
        congruence.
Qed.

Lemma strstr_iff (h n : string) :
  strstr h n = true <->
  exists a b, h = String.append a (String.append n b).
Proof.
  induction h as [|c h IH].
  - cbn [strstr]. destruct (String.prefix n EmptyString) eqn:Hp.
    + split; [intros _|reflexivity].
      apply prefix_iff in Hp. destruct Hp as [b Hb].
      exists EmptyString, b. exact Hb.
    + split; [discriminate|]. intros (a & b & Hab).
      assert (String.prefix n EmptyString = true); [|congruence].
      apply prefix_iff. destruct a as [|x a]; [|discriminate].
      exists b. exact Hab.
  - cbn [strstr]. destruct (String.prefix n (String c h)) eqn:Hp.
    + split; [intros _|reflexivity].
      apply prefix_iff in Hp. destruct Hp as [b Hb].
      exists EmptyString, b. exact Hb.
    + rewrite IH. split.
      * intros (a & b & ->). exists (String c a), b. reflexivity.
      * intros (a & b & Hab). destruct a as [|x a].
        -- assert (String.prefix n (String c h) = true); [|congruence].
           apply prefix_iff. exists b. exact Hab.
        -- injection Hab as _ Hab. exists a, b. exact Hab.
Qed.

Lemma existsb_strstr (names : list string) (c : string) :
  existsb (fun name => strstr c name) names = true <->
  exists n a b, In n names /\ c = String.append a (String.append n b).
Proof.
  rewrite existsb_exists. split.
  - intros (n & Hin & Hs). apply strstr_iff in Hs.
    destruct Hs as (a & b & Hab). exists n, a, b. split; assumption.
  - intros (n & a & b & Hin & Hab). exists n. split; [exact Hin|].
    apply strstr_iff. exists a, b. exact Hab.
Qed.

(** X7.  A command name is on the priority list, or system-critical,
    exactly when a listed name occurs in it as a substring.  So an empty
    entry of the priority list covers every process, and every name with a
    capital X is system-critical; the policy stops neither. *)
Theorem protected_by_substring (pl : list string) (c : string) :
  (is_priority_proc pl c = true <->
   exists n a b, In n pl /\ c = String.append a (String.append n b))
  /\ (is_system_critical c = true <->
      exists n a b, In n critical
                    /\ c = String.append a (String.append n b))
  /\ (forall p, (In EmptyString pl \/
                 exists a b, comm p
                   = String.append a (String.append "X" b)) ->
                should_stop pl p = false).
Proof.
  split; [apply existsb_strstr|]. split; [apply existsb_strstr|].
  intros p [Hin|(a & b & Hab)]; unfold should_stop.
  - assert (is_priority_proc pl (comm p) = true) as ->; [|reflexivity].
    apply existsb_strstr. exists EmptyString, EmptyString, (comm p).
    split; [exact Hin|reflexivity].
  - assert (is_system_critical (comm p) = true) as ->;
      [|rewrite andb_false_r; reflexivity].
    apply existsb_strstr. exists "X"%string, a, b. split; [|exact Hab].
    unfold critical. simpl. tauto.
Qed.

End MatchFacts.

Module ToggleFacts.
Import Proc.

(** X8.  The stop/continue key flips [running] whatever [kill] returns
    and leaves the policy flag alone; used twice on a record it sends the
    two opposite signals and gives the record back unchanged. *)
Theorem stopcont_twice (p : PInfo) (w : Os.world) :
  let r1 := Act.act_stopcont p w in
  let r2 := Act.act_stopcont (fst r1) (snd r1) in
  running (fst r1) = negb (running p)
  /\ suspended_by_manager (fst r1) = suspended_by_manager p
  /\ fst r2 = p
  /\ Os.signals (Os.trace (snd r2))
     = Os.signals (Os.trace w)
       ++ (if running p
           then [(pid p, Os.SIGSTOP); (pid p, Os.SIGCONT)]
           else [(pid p, Os.SIGCONT); (pid p, Os.SIGSTOP)]).
Proof.
  destruct p as [pd u c t1 t2 cp r n run fl].
  unfold Act.act_stopcont, Os.bind, Os.ret, Os.kill, set_running.
  destruct run; simpl; repeat split;
    rewrite <- app_assoc, ResumeFacts.signals_app; reflexivity.
Qed.

End ToggleFacts.

(* ================================================================== *)
(** ** Screen and keys *)

Module UiFacts.
Import Ui.

(** X9.  On a screen of at least 2 columns the content area computed by
    [get_content_width] and [get_start_x] is at most 100 columns wide, lies
    inside the screen, and is centred: the right margin is the left one or
    one column more.  Up to 100 columns both margins are 1. *)
Theorem content_centred (COLS : Z) :
  2 <= COLS ->
  let cw := get_content_width COLS in
  let sx := get_start_x COLS cw in
  let right := COLS - (sx + cw) in
  0 <= cw <= CONTENT_WIDTH
  /\ 0 <= sx /\ sx + cw <= COLS
  /\ (sx = right \/ sx + 1 = right)
  /\ (COLS <= CONTENT_WIDTH -> sx = 1 /\ right = 1).
Proof.
  intros HC cw sx right. subst right sx cw.
  unfold get_start_x, get_content_width, CONTENT_WIDTH.
  destruct (Z.ltb_spec 100 COLS) as [Hw|Hn].
  - destruct (Z.ltb_spec 100 COLS); [|lia].
    pose proof (Z.quot_rem' (COLS - 100) 2) as Hq.
    pose proof (Z.rem_bound_pos (COLS - 100) 2 ltac:(lia) ltac:(lia)) as Hr.
    lia.
  - destruct (Z.ltb_spec (COLS - 2) COLS); [|lia].
    replace (COLS - (COLS - 2)) with 2 by lia.
    change (Z.quot 2 2) with 1. lia.
Qed.

Lemma menu_cases (m : Z) :
  0 <= m < 7 -> m = 0 \/ m = 1 \/ m = 2 \/ m = 3 \/ m = 4 \/ m = 5 \/ m = 6.
Proof. lia. Qed.

Lemma key_nav_range (nprocs sel : Z) (k : nav) :
  0 < nprocs -> 0 <= sel < nprocs -> 0 <= key_nav nprocs sel k < nprocs.
Proof.
  intros Hn Hs. destruct k; unfold key_nav, floor0, cap.
  - destruct (Z.ltb_spec (sel - 1) 0); lia.
  - destruct (Z.ltb_spec 0 nprocs); [|lia]. simpl.
    destruct (Z.leb_spec nprocs (sel + 1)); lia.
  - destruct (Z.ltb_spec (sel - 10) 0); lia.
  - destruct (Z.ltb_spec 0 nprocs); [|lia]. simpl.
    destruct (Z.leb_spec nprocs (sel + 10)); lia.
Qed.

(** X10.  With a table that is not empty, the cursor keys of the process
    page keep a selection inside the table; Up followed
    by Down gives the same row back except on the first row, and Up on the
    first row and Down on the last one do nothing. *)
Theorem cursor_keys (nprocs sel : Z) (keys : list nav) :
  0 < nprocs -> 0 <= sel < nprocs ->
  0 <= fold_left (key_nav nprocs) keys sel < nprocs
  /\ (0 < sel -> key_nav nprocs (key_nav nprocs sel KeyUp) KeyDown = sel)
  /\ key_nav nprocs 0 KeyUp = 0
  /\ key_nav nprocs (nprocs - 1) KeyDown = nprocs - 1.
Proof.
  intros Hn Hs. split.
  - revert sel Hs. induction keys as [|k rest IH]; intros sel Hs; simpl;
      [exact Hs|]. apply IH, key_nav_range; assumption.
  - unfold key_nav, floor0, cap. repeat split.
    + intros Hp. destruct (Z.ltb_spec (sel - 1) 0); [lia|].
      destruct (Z.ltb_spec 0 nprocs); [|lia]. simpl.
      destruct (Z.leb_spec nprocs (sel - 1 + 1)); lia.
    + destruct (Z.ltb_spec 0 nprocs); [|lia]. simpl.
      destruct (Z.leb_spec nprocs (nprocs - 1 + 1)); lia.
Qed.

(** X11.  The cursor keys of the main menu keep the selection among the 7
    entries and wrap around: Up and Down undo each other, Up on the first
    entry gives the last, Down on the last gives the first, and seven times
    Down gives the entry back. *)
Theorem menu_wraps (m : Z) :
  0 <= m < 7 ->
  0 <= menu_up m < 7 /\ 0 <= menu_down m < 7
  /\ menu_down (menu_up m) = m /\ menu_up (menu_down m) = m
  /\ menu_up 0 = 6 /\ menu_down 6 = 0
  /\ Nat.iter 7 menu_down m = m.
Proof.
  intros Hm. destruct (menu_cases m Hm) as [->|[->|[->|[->|[->|[->| ->]]]]]];
    vm_compute; repeat split; congruence.
Qed.

Lemma rows_loop_block (n : nat) (H nprocs end_ : Z) : forall i y : Z,
  i + Z.of_nat n <= end_ -> end_ <= nprocs -> y + Z.of_nat n <= H - 1 ->
  rows_loop n H nprocs end_ i y
  = map (fun k => (i + Z.of_nat k, y + Z.of_nat k)) (seq 0 n).
Proof.
  induction n as [|n IH]; intros i y Hi He Hy; [reflexivity|].
  cbn [rows_loop]. destruct (Z.ltb_spec i end_); [|lia].
  destruct (Z.ltb_spec i nprocs); [|lia]. simpl andb. cbv iota.
  destruct (Z.leb_spec (H - 1) y); [lia|].
  rewrite IH by lia. cbn [seq map]. f_equal; [f_equal; lia|].
  rewrite <- seq_shift, map_map. apply map_ext. intros k. f_equal; lia.
Qed.

(** X12.  On a terminal of at least 40 columns and 10 lines, with a table
    that is not empty, [draw_procs] brings the selection into the table and
    prints a block of consecutive rows of the table from line 6 on, at most
    [H - 8] of them and exactly that many when the table has as many; the
    selected row is one of them and is printed above the last line. *)
Theorem selection_visible (W H nprocs proc_sel : Z) :
  40 <= W -> 10 <= H -> 0 < nprocs ->
  let sel := Z.max 0 (Z.min proc_sel (nprocs - 1)) in
  exists (first : Z) (n : nat),
    draw_procs W H nprocs proc_sel = (sel, block first n)
    /\ 0 <= first /\ first + Z.of_nat n <= nprocs
    /\ first <= sel < first + Z.of_nat n
    /\ Z.of_nat n <= H - 8
    /\ (H - 8 <= nprocs -> Z.of_nat n = H - 8)
    /\ In (sel, 6 + (sel - first)) (block first n)
    /\ 6 + (sel - first) < H - 1.
Proof.
  intros HW HH Hn sel. unfold draw_procs.
  destruct (Z.ltb_spec W 40); [lia|]. destruct (Z.ltb_spec H 10); [lia|].
  cbn [orb]. cbv zeta.
  set (s1 := if proc_sel <? 0 then 0 else proc_sel).
  set (s2 := if (nprocs <=? s1) && (0 <? nprocs) then nprocs - 1 else s1).
  assert (Hs2 : s2 = sel).
  { subst s2 s1 sel. destruct (Z.ltb_spec proc_sel 0);
      destruct (Z.ltb_spec 0 nprocs); try lia;
      rewrite ?andb_true_r;
      match goal with |- context [?a <=? ?b] =>
        destruct (Z.leb_spec a b) end; lia. }
  rewrite Hs2.
  assert (Hsel : 0 <= sel < nprocs) by (subst sel; lia).
  clearbody sel. clear s1 s2 Hs2.
  destruct (Z.ltb_spec (H - 8) 1); [lia|].
  pose proof (Z.quot_rem' (H - 8) 2) as Hq.
  pose proof (Z.rem_bound_pos (H - 8) 2 ltac:(lia) ltac:(lia)) as Hr.
  set (q := Z.quot (H - 8) 2) in *.
  set (st0 := if sel - q <? 0 then 0 else sel - q).
  assert (Hst0 : st0 = Z.max 0 (sel - q)).
  { subst st0. destruct (Z.ltb_spec (sel - q) 0); lia. }
  set (en := if nprocs <? st0 + (H - 8) then nprocs else st0 + (H - 8)).
  assert (Hen : en = Z.min nprocs (st0 + (H - 8))).
  { subst en. destruct (Z.ltb_spec nprocs (st0 + (H - 8))); lia. }
  set (st1 := if (en - (H - 8) <? st0) && (H - 8 <=? en)
              then en - (H - 8) else st0).
  assert (Hst1 : (H - 8 <= nprocs -> st1 = en - (H - 8))
                 /\ (nprocs < H - 8 -> st1 = st0)).
  { subst st1. destruct (Z.ltb_spec (en - (H - 8)) st0);
      destruct (Z.leb_spec (H - 8) en); simpl; lia. }
  set (st2 := if st1 <? 0 then 0 else st1).
  assert (Hst2 : st2 = st1).
  { subst st2. destruct (Z.ltb_spec st1 0); lia. }
  rewrite Hst2. clearbody st1 en st0. clear st2 Hst2.
  exists st1, (Z.to_nat (en - st1)).
  assert (Hfit : st1 <= sel < en /\ 0 <= st1 /\ en <= nprocs
                 /\ en - st1 <= H - 8) by lia.
  destruct Hfit as (Hin & Hfirst & Hen' & Hlen).
  rewrite rows_loop_block by lia. unfold block.
  split; [reflexivity|]. repeat split; try lia.
  apply in_map_iff. exists (Z.to_nat (sel - st1)). split.
  - f_equal; lia.
  - apply in_seq. lia.
Qed.

End UiFacts.

(* ================================================================== *)
(** ** Order of the process page *)

Module SortFacts.
Import Proc Sort Cint.

Lemma to_int_small (z : Z) : - 2 ^ 31 <= z < 2 ^ 31 -> to_int z = z.
Proof. intros Hz. unfold to_int. rewrite Z.mod_small; lia. Qed.

Lemma to_int_diff (a b : PInfo) :
  0 <= pid a < 2 ^ 31 -> 0 <= pid b < 2 ^ 31 ->
  to_int (pid a - pid b) = pid a - pid b.
Proof. intros Ha Hb. apply to_int_small. lia. Qed.

Lemma SFcompare_rank (x y : double) :
  x <> S754_nan -> y <> S754_nan ->
  SFcompare x y = Some (lex3 (rank x) (rank y)).
Proof.
  intros Hx Hy.
  destruct x as [sx|sx| |sx mx ex], y as [sy|sy| |sy my ey];
    try congruence; try (destruct sx); try (destruct sy);
    try reflexivity; cbn [SFcompare rank lex3].
  - change (-1 ?= -1) with Eq. cbv iota. rewrite !Z.compare_opp.
    change (Z.pos my ?= Z.pos mx) with (my ?= mx)%positive.
    rewrite (Pos.compare_antisym mx my).
    change (PosDef.Pos.compare_cont Eq mx my) with (mx ?= my)%positive.
    destruct (Z.compare_spec ey ex) as [E|L|G];
      destruct (Z.compare_spec ex ey) as [E'|L'|G']; try lia; reflexivity.
Qed.

Lemma sorted_far (cmp : PInfo -> PInfo -> Z) (P : PInfo -> Prop)
    (l : list PInfo) :
  Forall P l ->
  (forall a b c, P a -> P b -> P c ->
                 cmp a b <= 0 -> cmp b c <= 0 -> cmp a c <= 0) ->
  sorted_by cmp l ->
  forall (k i : nat) (a b : PInfo),
    l !! i = Some a -> l !! (i + S k)%nat = Some b -> cmp a b <= 0.
Proof.
  intros HP Htrans Hs. induction k as [|k IH]; intros i a b Ha Hb.
  - apply (Hs i); [exact Ha|]. rewrite Nat.add_1_r in Hb. exact Hb.
  - assert (Hlt : (i + S k < length l)%nat).
    { apply lookup_lt_Some in Hb. lia. }
    destruct (lookup_lt_is_Some_2 l _ Hlt) as [c Hc].
    rewrite List.Forall_forall in HP.
    apply (Htrans a c b).
    + apply HP. exact (MainFacts.lookup_In _ _ _ Ha).
    + apply HP. exact (MainFacts.lookup_In _ _ _ Hc).
    + apply HP. exact (MainFacts.lookup_In _ _ _ Hb).
    + exact (IH i a c Ha Hc).
    + apply (Hs (i + S k)%nat); [exact Hc|].
      replace (S (i + S k)) with (i + S (S k))%nat by lia. exact Hb.
Qed.

(** X13.  For records with PIDs in [0, 2^31), [cmp_mem] is a consistent
    order: swapping the arguments swaps the sign, 0 is returned only for
    equal memory and PID, and it is transitive.  A table sorted by it goes
    by falling resident memory, and by rising PID among equal ones. *)
Theorem mem_page_order (l : list PInfo) :
  pids_ok l ->
  (forall a b c, In a l -> In b l -> In c l ->
     (cmp_mem a b < 0 <-> 0 < cmp_mem b a)
     /\ (cmp_mem a b = 0 <-> rss_kb a = rss_kb b /\ pid a = pid b)
     /\ (cmp_mem a b <= 0 -> cmp_mem b c <= 0 -> cmp_mem a c <= 0))
  /\ (sorted_by cmp_mem l ->
      forall (i j : nat) (a b : PInfo),
        (i < j)%nat -> l !! i = Some a -> l !! j = Some b ->
        rss_kb b < rss_kb a \/ (rss_kb b = rss_kb a /\ pid a <= pid b)).
Proof.
  intros Hp. pose proof Hp as Hp'. unfold pids_ok in Hp'.
  rewrite List.Forall_forall in Hp'.
  assert (Htrans : forall x y z,
            0 <= pid x < 2 ^ 31 -> 0 <= pid y < 2 ^ 31 ->
            0 <= pid z < 2 ^ 31 ->
            cmp_mem x y <= 0 -> cmp_mem y z <= 0 -> cmp_mem x z <= 0).
  { intros x y z Hx Hy Hz. unfold cmp_mem.
    rewrite !to_int_diff by assumption.
    destruct (Z.ltb_spec (rss_kb x) (rss_kb y));
      destruct (Z.ltb_spec (rss_kb y) (rss_kb x));
      destruct (Z.ltb_spec (rss_kb y) (rss_kb z));
      destruct (Z.ltb_spec (rss_kb z) (rss_kb y));
      destruct (Z.ltb_spec (rss_kb x) (rss_kb z));
      destruct (Z.ltb_spec (rss_kb z) (rss_kb x)); lia. }
  split.
  - intros a b c Ha Hb Hc.
    pose proof (Hp' a Ha) as Ra. pose proof (Hp' b Hb) as Rb.
    pose proof (Hp' c Hc) as Rc. cbv beta in Ra, Rb, Rc.
    split; [|split; [|apply Htrans; assumption]].
    + unfold cmp_mem. rewrite !to_int_diff by assumption.
      destruct (Z.ltb_spec (rss_kb a) (rss_kb b));
        destruct (Z.ltb_spec (rss_kb b) (rss_kb a)); lia.
    + unfold cmp_mem. rewrite !to_int_diff by assumption.
      destruct (Z.ltb_spec (rss_kb a) (rss_kb b));
        destruct (Z.ltb_spec (rss_kb b) (rss_kb a)); lia.
  - intros Hs i j a b Hij Ha Hb.
    assert (Hle : cmp_mem a b <= 0).
    { apply (sorted_far cmp_mem (fun p => 0 <= pid p < 2 ^ 31) l Hp)
        with (k := (j - i - 1)%nat) (i := i); try assumption.
      replace (i + S (j - i - 1))%nat with j by lia. exact Hb. }
    pose proof (Hp' a (MainFacts.lookup_In _ _ _ Ha)) as Ra.
    pose proof (Hp' b (MainFacts.lookup_In _ _ _ Hb)) as Rb.
    cbv beta in Ra, Rb. revert Hle. unfold cmp_mem.
    rewrite !to_int_diff by assumption.
    destruct (Z.ltb_spec (rss_kb a) (rss_kb b));
      destruct (Z.ltb_spec (rss_kb b) (rss_kb a)); lia.
Qed.

Lemma lex3_opp (a b : Z * Z * Z) : lex3 a b = CompOpp (lex3 b a).
Proof.
  destruct a as [[a1 a2] a3], b as [[b1 b2] b3]. unfold lex3.
  rewrite (Z.compare_antisym b1 a1), (Z.compare_antisym b2 a2),
    (Z.compare_antisym b3 a3).
  destruct (b1 ?= a1); try reflexivity.
  destruct (b2 ?= a2); reflexivity.
Qed.

Local Ltac chain_case :=
  try (intros ? ?;
       first [ exfalso; congruence
             | exfalso; lia
             | split; [congruence|];
               intros ?; first [congruence | split; congruence] ]).

Lemma lex3_chain (a b c : Z * Z * Z) :
  lex3 b a <> Gt -> lex3 c b <> Gt ->
  lex3 c a <> Gt /\ (lex3 c a = Eq -> lex3 b a = Eq /\ lex3 c b = Eq).
Proof.
  destruct a as [[a1 a2] a3], b as [[b1 b2] b3], c as [[c1 c2] c3].
  unfold lex3.
  destruct (Z.compare_spec b1 a1), (Z.compare_spec c1 b1),
    (Z.compare_spec c1 a1); chain_case;
  destruct (Z.compare_spec b2 a2), (Z.compare_spec c2 b2),
    (Z.compare_spec c2 a2); chain_case;
  destruct (Z.compare_spec b3 a3), (Z.compare_spec c3 b3),
    (Z.compare_spec c3 a3); chain_case.
Qed.

(** [cmp_cpu] through the key of the two doubles. *)
Lemma cmp_cpu_eq (a b : PInfo) :
  cpu_pct a <> S754_nan -> cpu_pct b <> S754_nan ->
  0 <= pid a < 2 ^ 31 -> 0 <= pid b < 2 ^ 31 ->
  cmp_cpu a b =
  match lex3 (rank (cpu_pct b)) (rank (cpu_pct a)) with
  | Lt => -1
  | Eq => pid a - pid b
  | Gt => 1
  end.
Proof.
  intros Na Nb Ha Hb. unfold cmp_cpu, Dbl.gt, Dbl.lt, SFltb.
  rewrite to_int_diff by assumption.
  rewrite !SFcompare_rank by assumption.
  rewrite (lex3_opp (rank (cpu_pct a)) (rank (cpu_pct b))).
  destruct (lex3 (rank (cpu_pct b)) (rank (cpu_pct a))); reflexivity.
Qed.

Lemma cmp_cpu_trans (x y z : PInfo) :
  (cpu_pct x <> S754_nan /\ 0 <= pid x < 2 ^ 31) ->
  (cpu_pct y <> S754_nan /\ 0 <= pid y < 2 ^ 31) ->
  (cpu_pct z <> S754_nan /\ 0 <= pid z < 2 ^ 31) ->
  cmp_cpu x y <= 0 -> cmp_cpu y z <= 0 -> cmp_cpu x z <= 0.
Proof.
  intros [Nx Hx] [Ny Hy] [Nz Hz].
  rewrite !cmp_cpu_eq by assumption.
  pose proof (lex3_chain (rank (cpu_pct x)) (rank (cpu_pct y))
                (rank (cpu_pct z))) as Hc.
  destruct (lex3 (rank (cpu_pct y)) (rank (cpu_pct x))) eqn:E1;
    destruct (lex3 (rank (cpu_pct z)) (rank (cpu_pct y))) eqn:E2;
    intros H1 H2; try lia;
    destruct Hc as [Hgt Heq]; try congruence;
    destruct (lex3 (rank (cpu_pct z)) (rank (cpu_pct x))) eqn:E3;
    try lia; try congruence;
    destruct (Heq eq_refl); congruence.
Qed.

(** X14.  For records with PIDs in [0, 2^31) whose [cpu_pct] is not a
    NaN, [cmp_cpu] is a consistent order: swapping the arguments swaps the
    sign, and it is transitive.  In a table sorted by it no row has less CPU
    than a later one, and rows that compare equal go by rising PID. *)
Theorem cpu_page_order (l : list PInfo) :
  pids_ok l -> no_nan l ->
  (forall a b c, In a l -> In b l -> In c l ->
     (cmp_cpu a b < 0 <-> 0 < cmp_cpu b a)
     /\ (cmp_cpu a b <= 0 -> cmp_cpu b c <= 0 -> cmp_cpu a c <= 0))
  /\ (sorted_by cmp_cpu l ->
      forall (i j : nat) (a b : PInfo),
        (i < j)%nat -> l !! i = Some a -> l !! j = Some b ->
        Dbl.lt (cpu_pct a) (cpu_pct b) = false
        /\ (Dbl.lt (cpu_pct b) (cpu_pct a) = true \/ pid a <= pid b)).
Proof.
  intros Hp Hn.
  assert (Hall : Forall (fun p => cpu_pct p <> S754_nan
                                  /\ 0 <= pid p < 2 ^ 31) l).
  { unfold pids_ok, no_nan in *. rewrite List.Forall_forall in *.
    intros p Hin. split; [apply Hn, Hin|apply Hp, Hin]. }
  pose proof Hall as Hall'. rewrite List.Forall_forall in Hall'.
  split.
  - intros a b c Ha Hb Hc.
    destruct (Hall' a Ha) as [Na Ra]. destruct (Hall' b Hb) as [Nb Rb].
    split; [|apply cmp_cpu_trans; auto].
    rewrite !cmp_cpu_eq by assumption.
    rewrite (lex3_opp (rank (cpu_pct a)) (rank (cpu_pct b))).
    destruct (lex3 (rank (cpu_pct b)) (rank (cpu_pct a))); simpl; lia.
  - intros Hs i j a b Hij Ha Hb.
    assert (Hle : cmp_cpu a b <= 0).
    { apply (sorted_far cmp_cpu _ l Hall)
        with (k := (j - i - 1)%nat) (i := i); try assumption.
      - intros x y z. apply cmp_cpu_trans.
      - replace (i + S (j - i - 1))%nat with j by lia. exact Hb. }
    destruct (Hall' a (MainFacts.lookup_In _ _ _ Ha)) as [Na Ra].
    destruct (Hall' b (MainFacts.lookup_In _ _ _ Hb)) as [Nb Rb].
    rewrite cmp_cpu_eq in Hle by assumption.
    unfold Dbl.lt, SFltb. rewrite !SFcompare_rank by assumption.
    rewrite (lex3_opp (rank (cpu_pct a)) (rank (cpu_pct b))).
    destruct (lex3 (rank (cpu_pct b)) (rank (cpu_pct a))); simpl;
      split; try reflexivity; try lia; try (left; reflexivity); right; lia.
Qed.

End SortFacts.

(* ================================================================== *)
(** ** Text buffers and the stat line *)

Module CStrFacts.
Import CStr.

Lemma fgets_all_concat (cap : nat) (s : list ascii) : forall room : nat,
  concat (fgets_all cap room s) = s.
Proof.
  induction s as [|c s IH]; intros room; [reflexivity|].
  cbn [fgets_all]. destruct (Ascii.eqb c LF).
  - cbn [concat app]. rewrite IH. reflexivity.
  - destruct (room <=? 1)%nat.
    + cbn [concat app]. rewrite IH. reflexivity.
    + specialize (IH (room - 1)%nat).
      destruct (fgets_all cap (room - 1) s) as [|t ts].
      * simpl in IH. subst s. reflexivity.
      * cbn [concat app] in *. rewrite IH. reflexivity.
Qed.

(** A line that fits in the buffer is read whole, newline included. *)
Lemma fgets_line (cap : nat) (body rest : list ascii) : forall room : nat,
  forallb (fun c => negb (Ascii.eqb c LF)) body = true ->
  (length body < room)%nat ->
  fgets_all cap room (body ++ LF :: rest)
  = (body ++ [LF]) :: fgets_all cap cap rest.
Proof.
  induction body as [|c body IH]; intros room Hb Hr.
  - reflexivity.
  - cbn [forallb] in Hb. apply andb_prop in Hb. destruct Hb as [Hc Hb].
    cbn [app fgets_all]. apply negb_true_iff in Hc. rewrite Hc.
    cbn [length] in Hr.
    destruct (Nat.leb_spec room 1); [lia|].
    rewrite IH by (try assumption; lia). reflexivity.
Qed.

(** The last line of a file that does not end in a newline. *)
Lemma fgets_last (cap : nat) (body : list ascii) : forall room : nat,
  forallb (fun c => negb (Ascii.eqb c LF)) body = true ->
  body <> [] -> (length body <= room)%nat ->
  fgets_all cap room body = [body].
Proof.
  induction body as [|c body IH]; intros room Hb Hne Hr; [congruence|].
  cbn [forallb] in Hb. apply andb_prop in Hb. destruct Hb as [Hc Hb].
  cbn [fgets_all]. apply negb_true_iff in Hc. rewrite Hc.
  destruct body as [|d body].
  - cbn [fgets_all]. destruct (room <=? 1)%nat; reflexivity.
  - cbn [length] in Hr. destruct (Nat.leb_spec room 1); [lia|].
    rewrite IH by (try assumption; try congruence; cbn [length]; lia).
    reflexivity.
Qed.

Lemma c_str_id (s : list ascii) :
  forallb (fun c => negb (Ascii.eqb c NUL)) s = true -> c_str s = s.
Proof.
  induction s as [|c s IH]; intros H; [reflexivity|].
  cbn [forallb] in H. apply andb_prop in H. destruct H as [Hc Hs].
  cbn [c_str]. apply negb_true_iff in Hc. rewrite Hc, IH by assumption.
  reflexivity.
Qed.

Lemma c_str_In (s : list ascii) (x : ascii) : In x (c_str s) -> In x s.
Proof.
  induction s as [|c s IH]; [intros []|]. cbn [c_str].
  destruct (Ascii.eqb c NUL); [intros []|].
  intros [->|H]; [left; reflexivity|right; apply IH, H].
Qed.

Lemma after_last_none (c : ascii) (s : list ascii) :
  ~ In c s -> after_last c s = None.
Proof.
  induction s as [|d s IH]; intros H; [reflexivity|].
  cbn [after_last]. rewrite IH by (intros Hin; apply H; right; exact Hin).
  destruct (Ascii.eqb_spec d c) as [->|_]; [|reflexivity].
  exfalso. apply H. left. reflexivity.
Qed.

Lemma after_last_app (c : ascii) (a b : list ascii) :
  ~ In c b -> after_last c (a ++ c :: b) = Some b.
Proof.
  intros Hb. induction a as [|d a IH].
  - cbn [app after_last]. rewrite after_last_none by assumption.
    rewrite Ascii.eqb_refl. reflexivity.
  - cbn [app after_last]. rewrite IH. reflexivity.
Qed.

Lemma strsep_end (t : list ascii) :
  forallb (fun c => negb (Ascii.eqb c SP)) t = true -> strsep_all t = [t].
Proof.
  induction t as [|c t IH]; intros H; [reflexivity|].
  cbn [forallb] in H. apply andb_prop in H. destruct H as [Hc Ht].
  cbn [strsep_all]. apply negb_true_iff in Hc. rewrite Hc, IH by assumption.
  reflexivity.
Qed.

Lemma strsep_tok (t s : list ascii) :
  forallb (fun c => negb (Ascii.eqb c SP)) t = true ->
  strsep_all (t ++ SP :: s) = t :: strsep_all s.
Proof.
  induction t as [|c t IH]; intros H.
  - reflexivity.
  - cbn [forallb] in H. apply andb_prop in H. destruct H as [Hc Ht].
    cbn [app strsep_all]. apply negb_true_iff in Hc.
    rewrite Hc, IH by assumption. reflexivity.
Qed.

Lemma strsep_join (toks : list (list ascii)) (last : list ascii) :
  Forall (fun t => forallb (fun c => negb (Ascii.eqb c SP)) t = true)
         (toks ++ [last]) ->
  strsep_all (join_sp (toks ++ [last])) = toks ++ [last].
Proof.
  induction toks as [|t toks IH]; intros H.
  - cbn. apply strsep_end. inversion H; assumption.
  - inversion H as [|? ? Ht Hrest]; subst.
    change ((t :: toks) ++ [last]) with (t :: (toks ++ [last])).
    assert (join_sp (t :: toks ++ [last])
            = t ++ SP :: join_sp (toks ++ [last])) as ->.
    { destruct toks; reflexivity. }
    rewrite strsep_tok by assumption. rewrite IH by assumption. reflexivity.
Qed.

Lemma join_sp_suffix (toks : list (list ascii)) (last suf : list ascii) :
  join_sp (toks ++ [last]) ++ suf = join_sp (toks ++ [last ++ suf]).
Proof.
  induction toks as [|t toks IH]; [reflexivity|].
  change ((t :: toks) ++ [last]) with (t :: (toks ++ [last])).
  change ((t :: toks) ++ [last ++ suf]) with (t :: (toks ++ [last ++ suf])).
  assert (forall x, join_sp (t :: toks ++ [x]) = t ++ SP :: join_sp (toks ++ [x]))
    as E by (intros x; destruct toks; reflexivity).
  rewrite !E, <- IH, <- app_assoc. reflexivity.
Qed.

Lemma forallb_join (P : ascii -> bool) (toks : list (list ascii)) :
  P SP = true -> forallb (forallb P) toks = true ->
  forallb P (join_sp toks) = true.
Proof.
  intros HP. induction toks as [|t toks IH]; intros H; [reflexivity|].
  cbn [forallb] in H. apply andb_prop in H. destruct H as [Ht Hrest].
  destruct toks as [|u toks]; [exact Ht|].
  change (join_sp (t :: u :: toks)) with (t ++ SP :: join_sp (u :: toks)).
  rewrite forallb_app. cbn [forallb]. rewrite Ht, HP, IH by assumption.
  reflexivity.
Qed.

Lemma forallb_weaken (P Q : ascii -> bool) (s : list ascii) :
  (forall c, P c = true -> Q c = true) ->
  forallb P s = true -> forallb Q s = true.
Proof.
  intros HPQ H. rewrite forallb_forall in *. intros c Hc. apply HPQ, H, Hc.
Qed.

Lemma forallb_weaken2 (P : list ascii -> bool) (Q : ascii -> bool)
    (l : list (list ascii)) :
  (forall t, P t = true -> forallb Q t = true) ->
  forallb P l = true -> forallb (forallb Q) l = true.
Proof.
  intros HPQ H. rewrite forallb_forall in *. intros c Hc. apply HPQ, H, Hc.
Qed.

Lemma forallb_not_In (c : ascii) (s : list ascii) :
  forallb (fun d => negb (Ascii.eqb d c)) s = true -> ~ In c s.
Proof.
  intros H Hin. rewrite forallb_forall in H. specialize (H c Hin).
  rewrite Ascii.eqb_refl in H. discriminate.
Qed.

End CStrFacts.

Module StatFacts.
Import Proc CStr CStrFacts Stat.

Lemma field_ok_bytes (Q : ascii -> bool) (t : list ascii) :
  (forall c, field_byte c = true -> Q c = true) ->
  field_ok t = true -> forallb Q t = true.
Proof.
  intros HQ H. unfold field_ok in H. apply andb_prop in H.
  destruct H as [_ H]. exact (forallb_weaken _ _ _ HQ H).
Qed.

Lemma field_byte_cases (c : ascii) :
  field_byte c = true ->
  negb (Ascii.eqb c SP) = true /\ negb (Ascii.eqb c RPAR) = true
  /\ negb (Ascii.eqb c LF) = true /\ negb (Ascii.eqb c NUL) = true.
Proof.
  unfold field_byte. intros H.
  apply andb_prop in H. destruct H as [H H4].
  apply andb_prop in H. destruct H as [H H3].
  apply andb_prop in H. destruct H as [H1 H2]. tauto.
Qed.

(** Tokens that carry none of the four fields are counted and passed. *)
Lemma fields_loop_skip (toks rest : list (list ascii)) :
  forall (field : Z) (sf : StatFields),
  forallb field_ok toks = true ->
  (forall k, field <= k < field + Z.of_nat (length toks) ->
             k <> 3 /\ k <> 14 /\ k <> 15 /\ k <> 19) ->
  fields_loop (toks ++ rest) field sf
  = fields_loop rest (field + Z.of_nat (length toks)) sf.
Proof.
  induction toks as [|t toks IH]; intros field sf Hok Hk.
  - cbn [app length]. f_equal. lia.
  - cbn [forallb] in Hok. apply andb_prop in Hok. destruct Hok as [Ht Hok].
    destruct t as [|c t]; [discriminate|].
    cbn [app fields_loop].
    assert (Hf : field <> 3 /\ field <> 14 /\ field <> 15 /\ field <> 19).
    { apply Hk. cbn [length]. lia. }
    destruct Hf as (H3 & H14 & H15 & H19).
    destruct (Z.eqb_spec field 3); [contradiction|].
    destruct (Z.eqb_spec field 14); [contradiction|].
    destruct (Z.eqb_spec field 15); [contradiction|].
    destruct (Z.eqb_spec field 19); [contradiction|].
    rewrite IH; [f_equal; cbn [length]; lia|exact Hok|].
    intros k Hrange. apply Hk. cbn [length]. lia.
Qed.

(** X15.  [read_stat] takes its fields by position after the last closing
    parenthesis of the line: for a line [pid (comm) state f4 .. f13 utime
    stime f16 f17 f18 nice ...] of at most 1023 bytes it returns the run
    state from the first byte of [state] and the numbers of [utime], [stime]
    and [nice], whatever the command name holds, spaces and parentheses
    included. *)
Theorem read_stat_positional (pid_text comm state utime stime nice : list ascii)
    (f4_13 f16_18 tail : list (list ascii)) (more : list ascii) :
  let fields :=
    [state] ++ f4_13 ++ [utime; stime] ++ f16_18 ++ [nice] ++ tail in
  forallb field_ok fields = true ->
  length f4_13 = 10%nat -> length f16_18 = 3%nat -> tail <> [] ->
  forallb line_byte (pid_text ++ comm) = true ->
  (length (stat_line pid_text comm fields) <= 1023)%nat ->
  read_stat (Some (stat_line pid_text comm fields ++ more))
  = Parsed {| sf_ut := strtoul utime; sf_st := strtoul stime;
              sf_nicev := Cint.to_int (strtol nice);
              sf_running := runs (hd NUL state) |}.
Proof.
  intros fields Hok H10 H3 Htail Hclean Hlen.
  destruct (exists_last Htail) as (tail' & last & Etail).
  set (toks := [state] ++ f4_13 ++ [utime; stime] ++ f16_18 ++ [nice] ++ tail').
  assert (Ef : fields = toks ++ [last]).
  { subst fields toks. rewrite Etail.
    repeat (first [rewrite <- app_assoc | progress cbn [app]]).
    reflexivity. }
  set (head := pid_text ++ [SP; "("%char] ++ comm).
  set (body := head ++ RPAR :: SP :: join_sp fields).
  assert (Eline : stat_line pid_text comm fields = body ++ [LF]).
  { subst body head. unfold stat_line.
    repeat (first [rewrite <- app_assoc | progress cbn [app]]).
    reflexivity. }
  assert (Hjoin : forall Q : ascii -> bool,
            Q SP = true -> (forall c, field_byte c = true -> Q c = true) ->
            forallb Q (join_sp fields) = true).
  { intros Q HSP HQ. apply forallb_join; [exact HSP|].
    apply (forallb_weaken2 field_ok); [|exact Hok].
    intros t. apply field_ok_bytes, HQ. }
  assert (Hhead : forall Q : ascii -> bool,
            Q SP = true -> Q "("%char = true ->
            (forall c, line_byte c = true -> Q c = true) ->
            forallb Q head = true).
  { intros Q HSP HLP HQ. subst head.
    rewrite forallb_app in Hclean. apply andb_prop in Hclean.
    destruct Hclean as [Hp Hc].
    rewrite !forallb_app. cbn [forallb].
    rewrite (forallb_weaken _ _ _ HQ Hp), (forallb_weaken _ _ _ HQ Hc).
    rewrite HSP, HLP. reflexivity. }
  assert (Hbody : forall Q : ascii -> bool,
            Q SP = true -> Q "("%char = true -> Q RPAR = true ->
            (forall c, line_byte c = true -> Q c = true) ->
            (forall c, field_byte c = true -> Q c = true) ->
            forallb Q body = true).
  { intros Q HSP HLP HRP HQ1 HQ2. subst body.
    rewrite forallb_app. cbn [forallb].
    rewrite Hhead, Hjoin, HSP, HRP by assumption. reflexivity. }
  unfold read_stat. rewrite Eline, <- app_assoc. cbn [app].
  rewrite fgets_line.
  2:{ apply Hbody; try reflexivity.
      - intros c Hc. unfold line_byte in Hc. apply andb_prop in Hc. tauto.
      - intros c Hc. apply field_byte_cases in Hc. tauto. }
  2:{ rewrite Eline, length_app in Hlen. cbn [length] in Hlen. lia. }
  rewrite c_str_id.
  2:{ rewrite forallb_app. cbn [forallb]. rewrite Hbody; try reflexivity.
      - intros c Hc. unfold line_byte in Hc. apply andb_prop in Hc. tauto.
      - intros c Hc. apply field_byte_cases in Hc. tauto. }
  subst body. rewrite <- app_assoc. cbn [app].
  rewrite after_last_app.
  2:{ apply forallb_not_In. cbn [forallb]. rewrite forallb_app.
      cbn [forallb]. rewrite Hjoin; try reflexivity.
      intros c Hc. apply field_byte_cases in Hc. tauto. }
  f_equal. rewrite Ef, join_sp_suffix.
  rewrite strsep_join.
  2:{ rewrite Ef, forallb_app in Hok. apply andb_prop in Hok.
      destruct Hok as [Htoks Hlast].
      apply Forall_app. split.
      - rewrite forallb_forall in Htoks. apply List.Forall_forall.
        intros t Ht. apply (field_ok_bytes _ t); [|apply Htoks, Ht].
        intros c Hc. apply field_byte_cases in Hc. tauto.
      - constructor; [|constructor]. rewrite forallb_app. cbn [forallb].
        cbn [forallb] in Hlast. rewrite andb_true_r in Hlast.
        rewrite (field_ok_bytes (fun c => negb (Ascii.eqb c SP)) last);
          [reflexivity| |exact Hlast].
        intros c Hc. apply field_byte_cases in Hc. tauto. }
  assert (Hparts : field_ok state = true /\ forallb field_ok f4_13 = true
                   /\ field_ok utime = true /\ field_ok stime = true
                   /\ forallb field_ok f16_18 = true /\ field_ok nice = true).
  { subst fields. cbn [app] in Hok. cbn [forallb] in Hok.
    rewrite !forallb_app in Hok. cbn [forallb] in Hok.
    rewrite !forallb_app in Hok. cbn [forallb] in Hok.
    repeat (apply andb_prop in Hok; destruct Hok as [? Hok]).
    repeat match goal with H : _ && _ = true |- _ =>
      apply andb_prop in H; destruct H end.
    tauto. }
  destruct Hparts as (Hs & H4 & Hu & Hst & H16 & Hn).
  subst toks. cbn [app].
  destruct state as [|cs state']; [discriminate|].
  cbn [fields_loop hd]. change (3 =? 3) with true. cbv iota.
  rewrite <- app_assoc.
  rewrite fields_loop_skip; [|exact H4|rewrite H10; intros k Hk; lia].
  rewrite H10. cbn [app].
  destruct utime as [|cu utime']; [discriminate|].
  destruct stime as [|ct stime']; [discriminate|].
  cbn [fields_loop]. change (3 + 1 + Z.of_nat 10) with 14.
  change (14 =? 3) with false. change (14 =? 14) with true. cbv iota.
  change (14 + 1) with 15.
  change (15 =? 3) with false. change (15 =? 14) with false.
  change (15 =? 15) with true. cbv iota.
  rewrite <- app_assoc.
  rewrite fields_loop_skip; [|exact H16|rewrite H3; intros k Hk; lia].
  rewrite H3. cbn [app].
  destruct nice as [|cn nice']; [discriminate|].
  cbn [fields_loop]. change (15 + 1 + Z.of_nat 3) with 19.
  reflexivity.
Qed.

(** X16.  [read_stat] returns -1 when the file cannot be opened, when it
    is empty and when it holds no closing parenthesis.  When the closing
    parenthesis is the last byte of the line, [rp + 2] is past the
    terminator and the fields are read from beyond the string. *)
Theorem read_stat_malformed (content : list ascii) :
  read_stat None = Failed
  /\ read_stat (Some []) = Failed
  /\ (~ In RPAR content -> read_stat (Some content) = Failed)
  /\ (forallb line_byte content = true -> (length content < 1023)%nat ->
      read_stat (Some (content ++ [RPAR])) = Beyond).
Proof.
  split; [reflexivity|]. split; [reflexivity|]. split.
  - intros Hno. unfold read_stat.
    pose proof (fgets_all_concat 1023 content 1023) as Hcat.
    destruct (fgets_all 1023 1023 content) as [|chunk chunks]; [reflexivity|].
    rewrite after_last_none; [reflexivity|].
    intros Hin. apply Hno. rewrite <- Hcat. cbn [concat].
    apply in_or_app. left. apply c_str_In, Hin.
  - intros Hb Hlen. unfold read_stat.
    assert (HLF : forallb (fun c => negb (Ascii.eqb c LF)) (content ++ [RPAR])
                  = true).
    { rewrite forallb_app. cbn [forallb].
      rewrite (forallb_weaken line_byte _ content); [reflexivity| |exact Hb].
      intros c Hc. unfold line_byte in Hc. apply andb_prop in Hc. tauto. }
    assert (HNUL : forallb (fun c => negb (Ascii.eqb c NUL)) (content ++ [RPAR])
                   = true).
    { rewrite forallb_app. cbn [forallb].
      rewrite (forallb_weaken line_byte _ content); [reflexivity| |exact Hb].
      intros c Hc. unfold line_byte in Hc. apply andb_prop in Hc. tauto. }
    rewrite fgets_last; [|exact HLF|destruct content; discriminate|].
    2:{ rewrite length_app. cbn [length]. lia. }
    rewrite c_str_id by exact HNUL.
    rewrite after_last_app by (intros []). reflexivity.
Qed.

End StatFacts.

(* ================================================================== *)
(** ** Release name and uptime *)

Module OsReleaseFacts.
Import CStr CStrFacts OsRelease.

Lemma starts_with_snoc (p l : list ascii) (x : ascii) :
  ~ In x p -> starts_with p (l ++ [x]) = true -> starts_with p l = true.
Proof.
  revert l. induction p as [|a p IH]; intros l Hx H; [reflexivity|].
  destruct l as [|b l].
  - cbn in H. apply andb_prop in H. destruct H as [H _].
    apply Ascii.eqb_eq in H. subst. exfalso. apply Hx. left. reflexivity.
  - cbn [app starts_with] in *. apply andb_prop in H. destruct H as [H1 H2].
    rewrite H1. apply IH; [|exact H2]. intros Hin. apply Hx. right. exact Hin.
Qed.

Lemma line_byte_cases (c : ascii) :
  line_byte c = true ->
  negb (Ascii.eqb c LF) = true /\ negb (Ascii.eqb c NUL) = true.
Proof. unfold line_byte. intros H. apply andb_prop in H. exact H. Qed.

Lemma line_no_LF (s : list ascii) :
  forallb line_byte s = true ->
  forallb (fun c => negb (Ascii.eqb c LF)) s = true.
Proof. apply forallb_weaken. intros c Hc. apply line_byte_cases in Hc. tauto. Qed.

Lemma line_no_NUL (s : list ascii) :
  forallb line_byte s = true ->
  forallb (fun c => negb (Ascii.eqb c NUL)) s = true.
Proof. apply forallb_weaken. intros c Hc. apply line_byte_cases in Hc. tauto. Qed.

Lemma until_all (d : ascii) (s : list ascii) :
  forallb (fun c => negb (Ascii.eqb c d)) s = true -> until d s = s.
Proof.
  induction s as [|c s IH]; intros H; [reflexivity|].
  cbn [forallb] in H. apply andb_prop in H. destruct H as [Hc Hs].
  cbn [until]. apply negb_true_iff in Hc. rewrite Hc, IH by assumption.
  reflexivity.
Qed.

Lemma until_app (d : ascii) (s r : list ascii) :
  forallb (fun c => negb (Ascii.eqb c d)) s = true ->
  until d (s ++ d :: r) = s.
Proof.
  induction s as [|c s IH]; intros H.
  - cbn. rewrite Ascii.eqb_refl. reflexivity.
  - cbn [forallb] in H. apply andb_prop in H. destruct H as [Hc Hs].
    cbn [app until]. apply negb_true_iff in Hc. rewrite Hc, IH by assumption.
    reflexivity.
Qed.

(** The lines before the one looked for are read and passed. *)
Lemma lines_before (before : list (list ascii)) (rest distro : list ascii) :
  forallb other_line before = true ->
  lines_loop (fgets_all 255 255 (text before ++ rest)) distro
  = lines_loop (fgets_all 255 255 rest) distro.
Proof.
  induction before as [|l ls IH]; intros H; [reflexivity|].
  cbn [forallb] in H. apply andb_prop in H. destruct H as [Hl Hls].
  unfold other_line in Hl. apply andb_prop in Hl. destruct Hl as [Hl Hpre].
  apply andb_prop in Hl. destruct Hl as [Hbytes Hlen].
  apply Nat.ltb_lt in Hlen. apply negb_true_iff in Hpre.
  unfold text. cbn [map concat]. fold (text ls).
  rewrite <- !app_assoc. cbn [app].
  rewrite fgets_line by (try apply line_no_LF; assumption).
  cbn [lines_loop]. rewrite c_str_id.
  2:{ rewrite forallb_app. cbn [forallb]. rewrite line_no_NUL by assumption.
      reflexivity. }
  destruct (starts_with PRETTY_NAME (l ++ [LF])) eqn:Hs.
  - apply starts_with_snoc in Hs; [congruence|].
    unfold PRETTY_NAME. cbn. intros Hin.
    repeat (destruct Hin as [Hin|Hin]; [discriminate|]). exact Hin.
  - apply IH, Hls.
Qed.

Local Ltac len_goal :=
  repeat first [rewrite length_app | progress cbn [length app]];
  change (length PRETTY_NAME) with 12%nat; lia.

Local Ltac bytes_goal H :=
  repeat first [rewrite forallb_app | progress cbn [forallb app]];
  rewrite ?H; reflexivity.

Lemma to_int_len (n : nat) :
  (n <= 1000)%nat -> Cint.to_int (Z.of_nat n) = Z.of_nat n.
Proof.
  intros H. unfold Cint.to_int. rewrite Z.mod_small; lia.
Qed.

(** X17.  [read_os_release] takes the first line that starts with
    [PRETTY_NAME=].  A quoted name that ends its line with a newline is
    stored with the closing quote left on; a quoted name at the end of a
    file without a final newline, and a name that is not quoted, are stored
    as they are.  When the file cannot be opened [distro] is kept. *)
Theorem os_release_name (before : list (list ascii))
    (name rest distro : list ascii) :
  forallb other_line before = true ->
  forallb line_byte name = true -> (length name <= 126)%nat ->
  read_os_release
    (Some (text before ++ PRETTY_NAME ++ [QUOTE] ++ name ++ [QUOTE; LF]
           ++ rest)) distro
  = name ++ [QUOTE]
  /\ read_os_release
       (Some (text before ++ PRETTY_NAME ++ [QUOTE] ++ name ++ [QUOTE]))
       distro
     = name
  /\ (hd NUL name <> QUOTE ->
      read_os_release
        (Some (text before ++ PRETTY_NAME ++ name ++ [LF] ++ rest)) distro
      = name)
  /\ read_os_release None distro = distro.
Proof.
  intros Hbefore Hname Hlen.
  pose proof (line_no_LF _ Hname) as HnoLF.
  pose proof (line_no_NUL _ Hname) as HnoNUL.
  split; [|split; [|split; [|reflexivity]]].
  - unfold read_os_release. rewrite lines_before by assumption.
    replace (PRETTY_NAME ++ [QUOTE] ++ name ++ [QUOTE; LF] ++ rest)
      with ((PRETTY_NAME ++ QUOTE :: name ++ [QUOTE]) ++ LF :: rest)
      by (repeat (first [rewrite <- app_assoc | progress cbn [app]]);
          reflexivity).
    rewrite fgets_line.
    2:{ bytes_goal HnoLF. }
    2:{ len_goal. }
    cbn [lines_loop]. rewrite c_str_id.
    2:{ bytes_goal HnoNUL. }
    unfold PRETTY_NAME. cbn [list_ascii_of_string app starts_with].
    cbn [Ascii.eqb Bool.eqb andb]. unfold pretty_value. cbn [drop].
    rewrite Ascii.eqb_refl.
    replace ((name ++ [QUOTE]) ++ [LF]) with (name ++ [QUOTE; LF])
      by (rewrite <- app_assoc; reflexivity).
    cbn [length]. rewrite length_app. cbn [length].
    replace (Z.of_nat (S (length name + 2)) - 2)
      with (Z.of_nat (length name + 1)) by lia.
    rewrite wrap64_small by lia. rewrite to_int_len by lia.
    destruct (Z.ltb_spec (Z.of_nat (length name + 1)) 0); [lia|].
    rewrite Nat2Z.id.
    replace (name ++ [QUOTE; LF]) with ((name ++ [QUOTE]) ++ [LF])
      by (rewrite <- app_assoc; reflexivity).
    rewrite take_app_length' by (rewrite length_app; reflexivity).
    rewrite take_ge by (rewrite length_app; cbn [length]; lia).
    apply until_all. rewrite forallb_app. cbn [forallb].
    rewrite HnoLF. reflexivity.
  - unfold read_os_release. rewrite lines_before by assumption.
    rewrite fgets_last.
    2:{ bytes_goal HnoLF. }
    2:{ unfold PRETTY_NAME. cbn. discriminate. }
    2:{ len_goal. }
    cbn [lines_loop]. rewrite c_str_id.
    2:{ bytes_goal HnoNUL. }
    unfold PRETTY_NAME. cbn [list_ascii_of_string app starts_with].
    cbn [Ascii.eqb Bool.eqb andb]. unfold pretty_value. cbn [drop].
    rewrite Ascii.eqb_refl.
    cbn [length]. rewrite length_app. cbn [length].
    replace (Z.of_nat (S (length name + 1)) - 2)
      with (Z.of_nat (length name)) by lia.
    rewrite wrap64_small by lia. rewrite to_int_len by lia.
    destruct (Z.ltb_spec (Z.of_nat (length name)) 0); [lia|].
    rewrite Nat2Z.id. rewrite take_app_length.
    rewrite take_ge by lia. apply until_all, HnoLF.
  - intros Hq. unfold read_os_release. rewrite lines_before by assumption.
    replace (PRETTY_NAME ++ name ++ [LF] ++ rest)
      with ((PRETTY_NAME ++ name) ++ LF :: rest)
      by (repeat (first [rewrite <- app_assoc | progress cbn [app]]);
          reflexivity).
    rewrite fgets_line.
    2:{ bytes_goal HnoLF. }
    2:{ len_goal. }
    cbn [lines_loop]. rewrite c_str_id.
    2:{ bytes_goal HnoNUL. }
    unfold PRETTY_NAME. cbn [list_ascii_of_string app starts_with].
    cbn [Ascii.eqb Bool.eqb andb]. unfold pretty_value. cbn [drop].
    assert (Hc : exists c v', name ++ [LF] = c :: v'
                              /\ Ascii.eqb c QUOTE = false).
    { destruct name as [|c name']; cbn [app hd] in *.
      - exists LF, []. split; reflexivity.
      - exists c, (name' ++ [LF]). split; [reflexivity|].
        apply Ascii.eqb_neq, Hq. }
    destruct Hc as (c & v' & Ev & Hc).
    assert (Hl : length (c :: v') = (length name + 1)%nat).
    { rewrite <- Ev, length_app. reflexivity. }
    rewrite !drop_0, Ev, Hc. rewrite to_int_len by lia.
    destruct (Z.ltb_spec (Z.of_nat (length (c :: v'))) 0); [lia|].
    rewrite Nat2Z.id, firstn_all.
    rewrite take_ge by lia. rewrite <- Ev.
    apply until_app, HnoLF.
Qed.

End OsReleaseFacts.

Module UptimeFacts.
Import Uptime.

(** X18.  For an uptime that converts to a number of seconds that is not
    negative, [read_uptime] gives hours, minutes and seconds that add up to
    that number, with minutes and seconds below 60; without a file it gives
    0:0:0. *)
Theorem uptime_parts (x : double) (secs : Z) :
  to_int x = Some secs -> 0 <= secs ->
  exists h m s,
    read_uptime (Some x) = Some (h, m, s)
    /\ h * 3600 + m * 60 + s = secs
    /\ 0 <= h /\ 0 <= m < 60 /\ 0 <= s < 60
    /\ read_uptime None = Some (0, 0, 0).
Proof.
  intros Hx Hs. unfold read_uptime. rewrite Hx.
  exists (Z.quot secs 3600), (Z.quot (Z.rem secs 3600) 60), (Z.rem secs 60).
  split; [reflexivity|].
  rewrite !Z.quot_div_nonneg, !Z.rem_mod_nonneg by
    (try lia; rewrite ?Z.rem_mod_nonneg by lia; apply Z.mod_pos_bound; lia).
  pose proof (Z.div_mod secs 3600 ltac:(lia)).
  pose proof (Z.mod_pos_bound secs 3600 ltac:(lia)).
  pose proof (Z.div_mod (secs mod 3600) 60 ltac:(lia)).
  pose proof (Z.mod_pos_bound (secs mod 3600) 60 ltac:(lia)).
  pose proof (Z.mod_pos_bound secs 60 ltac:(lia)).
  assert (secs mod 60 = (secs mod 3600) mod 60).
  { symmetry. apply (Z.mod_unique_pos secs 60
             (60 * (secs / 3600) + (secs mod 3600) / 60)); lia. }
  assert (0 <= secs / 3600) by (apply Z.div_pos; lia).
  repeat split; try lia; reflexivity.
Qed.

End UptimeFacts.

(* ================================================================== *)
(** ** Adding to the priority list *)

Module AddFacts.
Import Proc Policy Main.

Lemma append_empty (c : string) : String.append c EmptyString = c.
Proof. induction c as [|a c IH]; simpl; [reflexivity|]. rewrite IH. reflexivity. Qed.

Lemma existsb_eqb_In (c : string) (l : list string) :
  existsb (String.eqb c) l = true -> In c l.
Proof.
  intros H. apply existsb_exists in H. destruct H as (x & Hin & Hx).
  apply String.eqb_eq in Hx. subst. exact Hin.
Qed.

(** X19.  When the priority list has room, key [A] on a row puts the
    command name of the row on the list (or finds it there), and from then
    on the policy marks neither that process nor any process whose name
    contains that name for stopping, and a pass leaves their records as
    they are.  When the list holds 10 names the key does nothing. *)
Theorem added_is_protected (sel : Z) (s : Sys) (p : PInfo) :
  0 <= sel -> procs (tables s) !! Z.to_nat sel = Some p ->
  let s' := key_A sel s in
  (Z.of_nat (length (priority_procs s)) < MAX_PRIORITY_PROCS ->
   In (comm p) (priority_procs s')
   /\ should_stop (priority_procs s') p = false
   /\ forall q, (exists a b,
                   comm q = String.append a (String.append (comm p) b)) ->
        should_stop (priority_procs s') q = false
        /\ forall enabled l w i, l !! i = Some q ->
             fst (manage_resources enabled (priority_procs s') l w) !! i
             = Some q)
  /\ (MAX_PRIORITY_PROCS <= Z.of_nat (length (priority_procs s)) -> s' = s).
Proof.
  intros Hsel Hp s'. subst s'. unfold key_A.
  assert (Hlt : (Z.to_nat sel < length (procs (tables s)))%nat).
  { apply lookup_lt_Some in Hp. exact Hp. }
  split.
  - intros Hroom.
    destruct (Z.leb_spec 0 sel); [|lia].
    destruct (Z.ltb_spec sel (Z.of_nat (length (procs (tables s))))); [|lia].
    destruct (Z.ltb_spec (Z.of_nat (length (priority_procs s)))
                MAX_PRIORITY_PROCS); [|lia].
    cbn [andb]. rewrite Hp.
    set (s' := if existsb (String.eqb (comm p)) (priority_procs s) then s
               else {| tables := tables s;
                       priority_procs := priority_procs s ++ [comm p];
                       auto_manage_enabled := auto_manage_enabled s;
                       os := os s |}).
    assert (Hin : In (comm p) (priority_procs s')).
    { subst s'. destruct (existsb _ _) eqn:Hex.
      - apply existsb_eqb_In, Hex.
      - simpl. apply in_or_app. right. left. reflexivity. }
    clearbody s'.
    assert (Hall : forall q,
              (exists a b,
                 comm q = String.append a (String.append (comm p) b)) ->
              should_stop (priority_procs s') q = false
              /\ forall enabled l w i, l !! i = Some q ->
                   fst (manage_resources enabled (priority_procs s') l w) !! i
                   = Some q).
    { intros q (a & b & Hq).
      assert (Hstop : should_stop (priority_procs s') q = false).
      { unfold should_stop.
        assert (is_priority_proc (priority_procs s') (comm q) = true) as ->;
          [|reflexivity].
        apply MatchFacts.existsb_strstr. exists (comm p), a, b.
        split; [exact Hin|exact Hq]. }
      split; [exact Hstop|]. intros enabled l w i Hi.
      destruct (PolicyFacts.manage_resources_lookup enabled
                  (priority_procs s') l w i q Hi) as [Hsame|[Hs _]];
        [exact Hsame|congruence]. }
    split; [exact Hin|]. split; [|exact Hall].
    apply Hall. exists EmptyString, EmptyString. simpl.
    rewrite append_empty. reflexivity.
  - intros Hfull.
    destruct (Z.ltb_spec (Z.of_nat (length (priority_procs s)))
                MAX_PRIORITY_PROCS); [lia|].
    rewrite andb_false_r. reflexivity.
Qed.

End AddFacts.

(* ================================================================== *)
(** ** The neofetch buffer *)

Module NeofetchFacts.
Import CStr CStrFacts Neofetch.

Lemma fgets_all_sizes (cap : nat) (s : list ascii) : forall room : nat,
  (1 <= cap)%nat ->
  match fgets_all cap room s with
  | [] => True
  | t :: ts =>
      (length t <= Nat.max 1 room)%nat
      /\ Forall (fun ch : list ascii => (length ch <= cap)%nat) ts
  end.
Proof.
  induction s as [|c s IH]; intros room Hcap; [exact I|].
  cbn [fgets_all].
  assert (Hfresh : Forall (fun ch : list ascii => (length ch <= cap)%nat)
                          (fgets_all cap cap s)).
  { specialize (IH cap Hcap). destruct (fgets_all cap cap s) as [|t ts];
      [constructor|]. destruct IH as [Ht Hts]. constructor; [lia|exact Hts]. }
  destruct (Ascii.eqb c LF); [split; [cbn; lia|exact Hfresh]|].
  destruct (Nat.leb_spec room 1); [split; [cbn; lia|exact Hfresh]|].
  specialize (IH (room - 1)%nat Hcap).
  destruct (fgets_all cap (room - 1) s) as [|t ts].
  - split; [cbn; lia|constructor].
  - destruct IH as [Ht Hts]. split; [cbn [length]; lia|exact Hts].
Qed.

Lemma fgets_all_chunks (cap : nat) (s : list ascii) :
  (1 <= cap)%nat ->
  Forall (fun ch : list ascii => (length ch <= cap)%nat) (fgets_all cap cap s).
Proof.
  intros Hcap. pose proof (fgets_all_sizes cap s cap Hcap) as H.
  destruct (fgets_all cap cap s) as [|t ts]; [constructor|].
  destruct H as [Ht Hts]. constructor; [lia|exact Hts].
Qed.

Lemma c_str_length (s : list ascii) : (length (c_str s) <= length s)%nat.
Proof.
  induction s as [|c s IH]; [reflexivity|]. cbn [c_str].
  destruct (Ascii.eqb c NUL); cbn [length]; lia.
Qed.

Lemma copy_loop_fits (chunks : list (list ascii)) : forall info : list ascii,
  Forall (fun ch : list ascii => (length ch <= 255)%nat) chunks ->
  (length info <= 4094)%nat ->
  (length (copy_loop chunks info) <= 4094)%nat.
Proof.
  induction chunks as [|ch rest IH]; intros info Hch Hinfo; [exact Hinfo|].
  inversion Hch as [|? ? Hc Hrest]; subst. cbn [copy_loop].
  unfold INFO_SIZE. destruct (Nat.ltb_spec (length info) (4096 - 256));
    [|exact Hinfo].
  apply IH; [exact Hrest|]. rewrite length_app.
  pose proof (c_str_length ch). lia.
Qed.

Lemma copy_loop_prefix (chunks : list (list ascii)) : forall info : list ascii,
  Forall (fun ch => forallb (fun c => negb (Ascii.eqb c NUL)) ch = true)
         chunks ->
  (exists rest, info ++ concat chunks = copy_loop chunks info ++ rest)
  /\ ((length (info ++ concat chunks) <= 3840)%nat ->
      copy_loop chunks info = info ++ concat chunks).
Proof.
  induction chunks as [|ch rest IH]; intros info Hn.
  - cbn. rewrite app_nil_r. split; [exists []; rewrite app_nil_r|]; reflexivity.
  - inversion Hn as [|? ? Hc Hrest]; subst. cbn [copy_loop concat].
    unfold INFO_SIZE.
    destruct (Nat.ltb_spec (length info) (4096 - 256)) as [Hlt|Hge].
    + rewrite c_str_id by exact Hc. rewrite app_assoc. apply IH, Hrest.
    + split; [exists (ch ++ concat rest); reflexivity|].
      intros Hlen. rewrite length_app in Hlen.
      assert (Hz : length (ch ++ concat rest) = 0%nat) by lia.
      apply length_zero_iff_nil in Hz. rewrite Hz, app_nil_r. reflexivity.
Qed.

Lemma chunks_no_NUL (cap : nat) (s : list ascii) :
  forallb (fun c => negb (Ascii.eqb c NUL)) s = true ->
  Forall (fun ch => forallb (fun c => negb (Ascii.eqb c NUL)) ch = true)
         (fgets_all cap cap s).
Proof.
  intros Hs. pose proof (fgets_all_concat cap s cap) as Hcat.
  apply List.Forall_forall. intros ch Hch. apply forallb_forall.
  intros c Hc. rewrite forallb_forall in Hs. apply Hs.
  rewrite <- Hcat. apply in_concat. exists ch. split; assumption.
Qed.

(** X20.  The copy of the output of neofetch stays below the size of
    [neofetch_info], terminator included.  For an output without NUL bytes
    what is stored is a prefix of the output, and the whole of it when it is
    at most 3840 bytes long. *)
Theorem neofetch_fits (out : option (list ascii)) :
  (length (run_neofetch_stdout out) < INFO_SIZE - 1)%nat
  /\ forall content, out = Some content ->
       forallb (fun c => negb (Ascii.eqb c NUL)) content = true ->
       (exists rest, content = run_neofetch_stdout out ++ rest)
       /\ ((length content <= 3840)%nat -> run_neofetch_stdout out = content).
Proof.
  split.
  - destruct out as [content|]; [|cbn; lia]. unfold run_neofetch_stdout.
    pose proof (copy_loop_fits (fgets_all 255 255 content) []
                  (fgets_all_chunks 255 content ltac:(lia))
                  ltac:(cbn; lia)).
    unfold INFO_SIZE. lia.
  - intros content -> Hn. unfold run_neofetch_stdout.
    pose proof (copy_loop_prefix (fgets_all 255 255 content) []
                  (chunks_no_NUL 255 content Hn)) as [Hpre Hall].
    rewrite fgets_all_concat in Hpre, Hall. cbn [app] in *.
    split; [exact Hpre|exact Hall].
Qed.

End NeofetchFacts.

(* ================================================================== *)
(** ** The command name *)

Module CommFacts.
Import CStr CStrFacts Comm.

Lemma until_length (d : ascii) (s : list ascii) :
  (length (until d s) <= length s)%nat.
Proof.
  induction s as [|c s IH]; [reflexivity|]. cbn [until].
  destruct (Ascii.eqb c d); cbn [length]; lia.
Qed.

Lemma until_absent (d : ascii) (s : list ascii) : ~ In d (until d s).
Proof.
  induction s as [|c s IH]; [intros []|]. cbn [until].
  destruct (Ascii.eqb_spec c d) as [->|Hne]; [intros []|].
  intros [E|Hin]; [congruence|exact (IH Hin)].
Qed.

Lemma until_In (d x : ascii) (s : list ascii) : In x (until d s) -> In x s.
Proof.
  induction s as [|c s IH]; [intros []|]. cbn [until].
  destruct (Ascii.eqb c d); [intros []|].
  intros [->|H]; [left; reflexivity|right; apply IH, H].
Qed.

Lemma c_str_absent (s : list ascii) : ~ In NUL (c_str s).
Proof.
  induction s as [|c s IH]; [intros []|]. cbn [c_str].
  destruct (Ascii.eqb_spec c NUL) as [->|Hne]; [intros []|].
  intros [E|Hin]; [congruence|exact (IH Hin)].
Qed.

(** X21.  What [read_comm] returns is shorter than [MAX_COMM], holds no
    newline and no NUL, and is copied whole by the [strncpy] of key [A].
    It is the first line of the file when that line has fewer than 63
    bytes; an empty file and a file that cannot be opened give -1. *)
Theorem read_comm_line (file : option (list ascii)) (c name rest : list ascii) :
  (read_comm file = Some c ->
   (length c < MAX_COMM)%nat /\ ~ In LF c /\ ~ In NUL c
   /\ stored_name c = c)
  /\ (forallb line_byte name = true -> (length name < 63)%nat ->
      read_comm (Some (name ++ LF :: rest)) = Some name)
  /\ read_comm (Some []) = None /\ read_comm None = None.
Proof.
  split; [|split; [|split; reflexivity]].
  - unfold read_comm. destruct file as [content|]; [|discriminate].
    pose proof (NeofetchFacts.fgets_all_chunks 63 content ltac:(lia)) as Hsz.
    change (MAX_COMM - 1)%nat with 63%nat.
    destruct (fgets_all 63 63 content) as [|chunk chunks]; [discriminate|].
    intros E. injection E as <-. inversion Hsz as [|? ? Hc _]; subst.
    assert (Hlen : (length (until LF (c_str chunk)) <= 63)%nat).
    { pose proof (until_length LF (c_str chunk)).
      pose proof (NeofetchFacts.c_str_length chunk). lia. }
    split; [unfold MAX_COMM; lia|]. split; [apply until_absent|]. split.
    + intros Hin. apply until_In in Hin. exact (c_str_absent _ Hin).
    + unfold stored_name. change (MAX_COMM - 1)%nat with 63%nat.
      apply take_ge. exact Hlen.
  - intros Hb Hlen. unfold read_comm.
    change (MAX_COMM - 1)%nat with 63%nat.
    rewrite fgets_line by (try apply OsReleaseFacts.line_no_LF; assumption).
    rewrite c_str_id.
    2:{ rewrite forallb_app. cbn [forallb].
        rewrite OsReleaseFacts.line_no_NUL by assumption. reflexivity. }
    rewrite OsReleaseFacts.until_app by (apply OsReleaseFacts.line_no_LF, Hb).
    reflexivity.
Qed.

End CommFacts.

(* ================================================================== *)
(** ** The further properties on sample inputs *)

Module Examples.
Import Scenario Samples.


Lemma sample_retained_witness :
  Cpu.cell (Cpu.run 2 later (Cpu.cpu_sample 2 (Some stat2) sampled)) 0
           (Z.to_nat (Cpu.hpos sampled))
  = Cpu.clamp (Cpu.core (Cpu.cpu (Cpu.cpu_sample 2 (Some stat2) sampled))
               !!! 0%nat).
Proof.
  apply (CpuCountFacts.sample_retained 2 sampled stat2 later 0).
  - apply CpuFacts.cpu_sample_hist_ok, CpuFacts.init_hist_ok.
  - vm_compute. reflexivity.
  - vm_compute. reflexivity.
Defined.

Lemma no_progress_is_zero_witness : Proc.cpu_pct chrome_now = Dbl.zero.
Proof.
  apply (TableFacts.no_progress_is_zero 100 8000 dir3 (Main.tables s3)
           chrome_now chrome_before).
  - vm_compute. right; right; left; reflexivity.
  - vm_compute. reflexivity.
  - vm_compute. discriminate.
  - vm_compute. discriminate.
  - lia.
  - vm_compute. reflexivity.
Defined.

Lemma priority_list_invariant_witness :
  Z.of_nat (length (Main.priority_procs s3)) <= MAX_PRIORITY_PROCS
  /\ List.NoDup (Main.priority_procs s3).
Proof.
  exact (PriorityFacts.priority_list_invariant 100 always_ok s3
           Instances.reach_s3).
Defined.

Lemma resume_answers_last_pass_witness :
  let s1 := Main.timer_scan 100 8000 (Some dir3) s3 in
  let s2 := Main.key_R s1 in
  let conts := map (fun p => (Proc.pid p, Os.SIGCONT))
                 (List.filter Proc.suspended_by_manager
                    (Proc.procs (Main.tables s1))) in
  (exists events,
     Os.trace (Main.os s1) = Os.trace (Main.os s3) ++ events
     /\ Os.signals (Os.trace (Main.os s2))
        = Os.signals (Os.trace (Main.os s1)) ++ conts
     /\ forall p, In (p, Os.SIGCONT) conts ->
                  In (p, Os.SIGSTOP) (Os.signals events))
  /\ Os.trace (Main.os (Main.key_R (Main.plain_scan 100 8000 (Some dir3) s3)))
     = Os.trace (Main.os s3).
Proof.
  exact (RefreshFacts.resume_answers_last_pass 100 always_ok s3 8000
           (Some dir3) Instances.reach_s3).
Defined.

Lemma content_centred_witness :
  let cw := Ui.get_content_width 121 in
  let sx := Ui.get_start_x 121 cw in
  let right := 121 - (sx + cw) in
  0 <= cw <= Ui.CONTENT_WIDTH
  /\ 0 <= sx /\ sx + cw <= 121
  /\ (sx = right \/ sx + 1 = right)
  /\ (121 <= Ui.CONTENT_WIDTH -> sx = 1 /\ right = 1).
Proof.
  exact (UiFacts.content_centred 121 ltac:(lia)).
Defined.

Lemma cursor_keys_witness :
  0 <= fold_left (Ui.key_nav 5) [Ui.KeyDown; Ui.KeyNPage; Ui.KeyUp] 2 < 5.
Proof.
  exact (proj1 (UiFacts.cursor_keys 5 2 [Ui.KeyDown; Ui.KeyNPage; Ui.KeyUp]
                  ltac:(lia) ltac:(lia))).
Defined.

Lemma menu_wraps_witness :
  Ui.menu_down (Ui.menu_up 3) = 3 /\ Nat.iter 7 Ui.menu_down 3 = 3.
Proof.
  destruct (UiFacts.menu_wraps 3 ltac:(lia)) as (_ & _ & H1 & _ & _ & _ & H2).
  split; assumption.
Defined.

Lemma selection_visible_witness :
  exists (first : Z) (n : nat),
    Ui.draw_procs 80 24 100 50 = (50, Ui.block first n)
    /\ 0 <= first /\ first + Z.of_nat n <= 100
    /\ first <= 50 < first + Z.of_nat n
    /\ Z.of_nat n <= 24 - 8
    /\ (24 - 8 <= 100 -> Z.of_nat n = 24 - 8)
    /\ In (50, 6 + (50 - first)) (Ui.block first n)
    /\ 6 + (50 - first) < 24 - 1.
Proof.
  exact (UiFacts.selection_visible 80 24 100 50 ltac:(lia) ltac:(lia)
           ltac:(lia)).
Defined.

Lemma pids_ok_by_mem : Sort.pids_ok by_mem.
Proof. repeat constructor; vm_compute; discriminate. Qed.

Lemma sorted_by_mem : Sort.sorted_by Sort.cmp_mem by_mem.
Proof.
  intros [|[|[|i]]] a b Ha Hb; try discriminate;
    injection Ha as <-; injection Hb as <-; vm_compute; discriminate.
Qed.

Lemma mem_page_order_witness :
  Proc.rss_kb systemd2 < Proc.rss_kb chrome2
  \/ (Proc.rss_kb systemd2 = Proc.rss_kb chrome2
      /\ Proc.pid chrome2 <= Proc.pid systemd2).
Proof.
  exact (proj2 (SortFacts.mem_page_order by_mem pids_ok_by_mem) sorted_by_mem
           0%nat 2%nat chrome2 systemd2 ltac:(lia) eq_refl eq_refl).
Defined.

Lemma pids_ok_by_cpu : Sort.pids_ok by_cpu.
Proof. repeat constructor; vm_compute; discriminate. Qed.

Lemma no_nan_by_cpu : Sort.no_nan by_cpu.
Proof. repeat constructor; vm_compute; discriminate. Qed.

Lemma sorted_by_cpu : Sort.sorted_by Sort.cmp_cpu by_cpu.
Proof.
  intros [|[|[|i]]] a b Ha Hb; try discriminate;
    injection Ha as <-; injection Hb as <-; vm_compute; discriminate.
Qed.

Lemma cpu_page_order_witness :
  Dbl.lt (Proc.cpu_pct systemd2) (Proc.cpu_pct chrome2) = false
  /\ (Dbl.lt (Proc.cpu_pct chrome2) (Proc.cpu_pct systemd2) = true
      \/ Proc.pid systemd2 <= Proc.pid chrome2).
Proof.
  exact (proj2 (SortFacts.cpu_page_order by_cpu pids_ok_by_cpu no_nan_by_cpu)
           sorted_by_cpu 0%nat 2%nat systemd2 chrome2 ltac:(lia)
           eq_refl eq_refl).
Defined.

Lemma read_stat_positional_witness :
  Stat.read_stat
    (Some (Stat.stat_line stat_pid stat_comm
             ([txt "S"] ++ stat_4_13 ++ [txt "1050"; txt "230"]
              ++ stat_16_18 ++ [txt "-5"] ++ stat_tail) ++ []))
  = Stat.Parsed {| Proc.sf_ut := 1050; Proc.sf_st := 230;
                   Proc.sf_nicev := -5; Proc.sf_running := true |}.
Proof.
  exact (StatFacts.read_stat_positional stat_pid stat_comm (txt "S")
           (txt "1050") (txt "230") (txt "-5") stat_4_13 stat_16_18
           stat_tail [] eq_refl eq_refl eq_refl
           ltac:(discriminate) eq_refl ltac:(vm_compute; lia)).
Defined.

Lemma os_release_name_witness :
  OsRelease.read_os_release
    (Some (OsRelease.text release_head ++ OsRelease.PRETTY_NAME
           ++ [CStr.QUOTE] ++ release_name ++ [CStr.QUOTE; CStr.LF]
           ++ release_rest)) (txt "Linux")
  = release_name ++ [CStr.QUOTE].
Proof.
  exact (proj1 (OsReleaseFacts.os_release_name release_head release_name
                  release_rest (txt "Linux") eq_refl eq_refl
                  ltac:(vm_compute; lia))).
Defined.

Lemma uptime_parts_witness :
  exists h m s,
    Uptime.read_uptime (Some up_sample) = Some (h, m, s)
    /\ h * 3600 + m * 60 + s = 3725
    /\ 0 <= h /\ 0 <= m < 60 /\ 0 <= s < 60
    /\ Uptime.read_uptime None = Some (0, 0, 0).
Proof.
  exact (UptimeFacts.uptime_parts up_sample 3725 eq_refl ltac:(lia)).
Defined.

Lemma added_is_protected_witness :
  In (Proc.comm ffmpeg1) (Main.priority_procs (Main.key_A 1 s1))
  /\ Policy.should_stop (Main.priority_procs (Main.key_A 1 s1)) ffmpeg1
     = false.
Proof.
  destruct (AddFacts.added_is_protected 1 s1 ffmpeg1 ltac:(lia) eq_refl)
    as [H _].
  destruct (H ltac:(vm_compute; reflexivity)) as (Hin & Hstop & _).
  split; assumption.
Defined.

Lemma read_comm_line_witness :
  Comm.read_comm (Some (txt "Web Content" ++ CStr.LF :: []))
  = Some (txt "Web Content")
  /\ Comm.stored_name (txt "Web Content") = txt "Web Content".
Proof.
  destruct (CommFacts.read_comm_line
              (Some (txt "Web Content" ++ CStr.LF :: []))
              (txt "Web Content") (txt "Web Content") [])
    as (Hfit & Hline & _).
  pose proof (Hline eq_refl ltac:(vm_compute; lia)) as E.
  split; [exact E|]. exact (proj2 (proj2 (proj2 (Hfit E)))).
Defined.

End Examples.
